(** * GovBot chat client: session store and action gate

  A shallow embedding of [src/screens/ChatBotUi/ChatBotUi.tsx] and of
  [lib/gemini.ts], with the JavaScript run-time primitives the component
  relies on (string methods, the four regular expressions of the gate,
  [Date], [JSON.stringify] / [JSON.parse], [localStorage], React state
  setters and effects); further the markdown clean-up of
  [components/ui/chat-message.tsx] and the typing animation of
  [hooks/useTypingEffect.ts].

  Conventions.
  - A JavaScript string is a sequence of UTF-16 code units.  The model
    keeps the code units below 256 (the Latin-1 range), one [ascii] per
    code unit; on that range [toLowerCase], [trim] and the regular
    expression classes are given exactly.
  - A [Date] is its time value: milliseconds since the epoch, or the
    invalid date.
  - React state is a record; a handler reads the snapshot of the render
    it was created in and queues updates through the setters. *)

From Stdlib Require Import ZArith Lia Ascii String List Bool.
From Stdlib Require DecimalString.
From stdpp Require Import base option list strings gmap.

#[local] Set Warnings "-register-all".

Local Open Scope Z_scope.
Local Open Scope list_scope.
Local Open Scope stdpp_scope.

(** ** JavaScript strings *)

Module JsString.

Definition code (c : ascii) : nat := nat_of_ascii c.

(** [String.prototype.toLowerCase] on one code unit: A-Z, and the
    Latin-1 capitals U+00C0..U+00DE except the multiplication sign. *)
Definition lowerChar (c : ascii) : ascii :=
  let n := code c in
  if ((65 <=? n) && (n <=? 90))%nat then ascii_of_nat (n + 32)
  else if ((192 <=? n) && (n <=? 222) && negb (n =? 215))%nat
       then ascii_of_nat (n + 32)
       else c.

Fixpoint toLowerCase (s : string) : string :=
  match s with
  | EmptyString => EmptyString
  | String c s' => String (lowerChar c) (toLowerCase s')
  end.

(** WhiteSpace and LineTerminator code units, as [trim] strips them:
    TAB, LF, VT, FF, CR, SP and NBSP. *)
Definition isWhite (c : ascii) : bool :=
  let n := code c in
  ((9 <=? n) && (n <=? 13) || (n =? 32) || (n =? 160))%nat.

(** LineTerminator: what the regular expression [.] refuses. *)
Definition isLineTerminator (c : ascii) : bool :=
  let n := code c in ((n =? 10) || (n =? 13))%nat.

(** [\w]: letters, digits and the underscore. *)
Definition isWordChar (c : ascii) : bool :=
  let n := code c in
  ((65 <=? n) && (n <=? 90) || (97 <=? n) && (n <=? 122)
   || (48 <=? n) && (n <=? 57) || (n =? 95))%nat.

Fixpoint trimStart (s : string) : string :=
  match s with
  | EmptyString => EmptyString
  | String c s' => if isWhite c then trimStart s' else s
  end.

Fixpoint trimEnd (s : string) : string :=
  match s with
  | EmptyString => EmptyString
  | String c s' =>
      match trimEnd s' with
      | EmptyString => if isWhite c then EmptyString else String c EmptyString
      | t => String c t
      end
  end.

Definition trim (s : string) : string := trimEnd (trimStart s).

Fixpoint startsWith (p s : string) : bool :=
  match p, s with
  | EmptyString, _ => true
  | String a p', String b s' => if Ascii.eqb a b then startsWith p' s' else false
  | String _ _, EmptyString => false
  end.

(** [s.includes(k)] *)
Fixpoint includes (s k : string) : bool :=
  startsWith k s ||
  match s with
  | EmptyString => false
  | String _ s' => includes s' k
  end.

(** [s.slice(0, n)] *)
Fixpoint slice0 (n : nat) (s : string) : string :=
  match n, s with
  | O, _ => EmptyString
  | S n', String c s' => String c (slice0 n' s')
  | S _, EmptyString => EmptyString
  end.

Fixpoint dropChars (n : nat) (s : string) : string :=
  match n, s with
  | O, _ => s
  | S n', String _ s' => dropChars n' s'
  | S _, EmptyString => EmptyString
  end.

(** [s.replace(pat, rep)] with a string pattern: only the first
    occurrence is replaced ([rep] has no dollar sign here). *)
Fixpoint replace (pat rep s : string) : string :=
  if startsWith pat s then rep +:+ dropChars (String.length pat) s
  else match s with
       | EmptyString => EmptyString
       | String c s' => String c (replace pat rep s')
       end.

(** [l.join(sep)] *)
Fixpoint join (sep : string) (l : list string) : string :=
  match l with
  | [] => EmptyString
  | [x] => x
  | x :: l' => x +:+ sep +:+ join sep l'
  end.

(** Truthiness of a string, and of [string | null]. *)
Definition truthy (s : string) : bool :=
  match s with EmptyString => false | _ => true end.

Definition truthyOpt (o : option string) : bool :=
  match o with Some s => truthy s | None => false end.

(** Declarative substring relation. *)
Definition Substring (k s : string) : Prop :=
  exists pre post, s = pre +:+ k +:+ post.

End JsString.

(** ** The regular expressions of the gate *)

Module Regex.
Import JsString.

Inductive regex : Type :=
| Bol                              (* ^ *)
| Eol                              (* $ *)
| WordB                            (* \b *)
| Dot                              (* . *)
| Chr (c : ascii)
| Eps
| Seq (r1 r2 : regex)
| Alt (r1 r2 : regex)
| Rep (r : regex) (lo hi : nat).   (* r{lo,hi}, greedy *)

Fixpoint lit (s : string) : regex :=
  match s with
  | EmptyString => Eps
  | String c s' => Seq (Chr c) (lit s')
  end.

(** [(w1|w2|...|wn)] *)
Fixpoint alts (ws : list string) : regex :=
  match ws with
  | [] => Rep Dot 1 0   (* never matches; not used with an empty list *)
  | [w] => lit w
  | w :: ws' => Alt (lit w) (alts ws')
  end.

Definition wordBefore (prev : option ascii) : bool :=
  match prev with Some c => isWordChar c | None => false end.

Definition wordAfter (s : string) : bool :=
  match s with String c _ => isWordChar c | EmptyString => false end.

(** Backtracking matcher in continuation-passing style.  [prev] is the
    code unit before the current position ([None] at index 0), [s] the
    rest of the input. *)
Fixpoint m (r : regex) (prev : option ascii) (s : string)
    (k : option ascii -> string -> bool) {struct r} : bool :=
  match r with
  | Bol => match prev with None => k prev s | Some _ => false end
  | Eol => match s with EmptyString => k prev s | String _ _ => false end
  | WordB => if xorb (wordBefore prev) (wordAfter s) then k prev s else false
  | Dot =>
      match s with
      | String c s' => if isLineTerminator c then false else k (Some c) s'
      | EmptyString => false
      end
  | Chr a =>
      match s with
      | String c s' => if Ascii.eqb a c then k (Some c) s' else false
      | EmptyString => false
      end
  | Eps => k prev s
  | Seq r1 r2 => m r1 prev s (fun p' s' => m r2 p' s' k)
  | Alt r1 r2 => m r1 prev s k || m r2 prev s k
  | Rep r0 lo hi =>
      (fix rep (hi lo : nat) (prev : option ascii) (s : string) : bool :=
         match hi with
         | O => match lo with O => k prev s | S _ => false end
         | S hi' =>
             m r0 prev s (fun p' s' => rep hi' (Nat.pred lo) p' s')
             || match lo with O => k prev s | S _ => false end
         end) hi lo prev s
  end.

(** [re.test(s)]: a match starting at some index. *)
Fixpoint searchFrom (r : regex) (prev : option ascii) (s : string) : bool :=
  m r prev s (fun _ _ => true) ||
  match s with
  | EmptyString => false
  | String c s' => searchFrom r (Some c) s'
  end.

Definition test (r : regex) (s : string) : bool := searchFrom r None s.

(** The code unit before the position reached after reading [w] from a
    position whose previous code unit is [prev]. *)
Fixpoint lastOr (prev : option ascii) (w : string) : option ascii :=
  match w with
  | EmptyString => prev
  | String c w' => lastOr (Some c) w'
  end.

(** No line terminator in [s]. *)
Fixpoint oneLine (s : string) : bool :=
  match s with
  | EmptyString => true
  | String c s' => negb (isLineTerminator c) && oneLine s'
  end.

End Regex.

(** ** Data model ([lib/gemini.ts], [ChatBotUi.tsx]) *)

(** A [Date] object: its time value in milliseconds since the epoch, or
  the invalid date (time value NaN). *)
Inductive Date : Type :=
| TimeValue (t : Z)
| InvalidDate.

Inductive Role : Type := user | assistant.

Definition Role_eqb (a b : Role) : bool :=
  match a, b with
  | user, user | assistant, assistant => true
  | _, _ => false
  end.

Module Citation.
Record t : Type := mk { id : string; title : string; url : string; snippet : string }.
End Citation.

Module ChatMessage.
Record t : Type := mk {
  id : string;
  role : Role;
  content : string;
  timestamp : Date;
  sources : option (list Citation.t)   (* [sources?:] absent or undefined is [None] *)
}.
End ChatMessage.

Module ChatSession.
Record t : Type := mk {
  id : string;
  title : string;
  messages : list ChatMessage.t;
  createdAt : Date
}.
End ChatSession.

(** ** Action gate: [isSimpleChat] inside [handleActionResponse] *)

Module Gate.
Import JsString Regex.

Definition simplePatterns : list regex :=
  [ Seq Bol (Seq (alts ["hi"; "hello"; "hey"; "good morning"; "good afternoon";
                        "good evening"]) WordB);
    Seq Bol (Seq (alts ["how are you"; "what's up"; "what are you"; "who are you"]) WordB);
    Seq Bol (Seq (alts ["thanks"; "thank you"; "ok"; "okay"; "yes"; "no"]) WordB);
    Seq Bol (Seq (Rep Dot 1 20) Eol) ].

Definition governmentKeywords : list string :=
  [ "government"; "policy"; "service"; "department"; "ministry"; "public";
    "citizen"; "administration"; "regulation"; "law"; "budget"; "project";
    "initiative"; "reform"; "development"; "infrastructure"; "governance";
    "flood"; "disaster"; "emergency"; "monsoon"; "pdma"; "contingency";
    "preparedness"; "response"; "management"; "kp"; "khyber pakhtunkhwa";
    "chief secretary"; "deputy commissioner"; "district"; "provincial";
    "planning"; "coordination"; "safety"; "vulnerability"; "assessment";
    "mitigation"; "relief"; "rehabilitation"; "damage"; "report"; "advisory" ].

Definition isUser (msg : ChatMessage.t) : bool :=
  Role_eqb (ChatMessage.role msg) user.

(** [l.slice(-n)] *)
Definition sliceLast {A} (n : nat) (l : list A) : list A :=
  drop (length l - n) l.

Definition userMessageTexts (messages : list ChatMessage.t) : list string :=
  let userMessages := List.filter isUser messages in
  let recentUserMessages := sliceLast 3 userMessages in
  map (fun msg => toLowerCase (ChatMessage.content msg)) recentUserMessages.

Definition hasSimpleContent (messages : list ChatMessage.t) : bool :=
  existsb (fun msg => existsb (fun pattern => test pattern (trim msg)) simplePatterns)
          (userMessageTexts messages).

Definition hasGovernmentContent (messages : list ChatMessage.t) : bool :=
  existsb (fun msg => existsb (fun keyword => includes msg keyword) governmentKeywords)
          (userMessageTexts messages).

Definition isDetailedRequest (messages : list ChatMessage.t) : bool :=
  let userConversationText := join " " (userMessageTexts messages) in
  includes userConversationText "detail" ||
  includes userConversationText "complete" ||
  includes userConversationText "comprehensive" ||
  includes userConversationText "analysis" ||
  includes userConversationText "insight" ||
  includes userConversationText "report".

Definition isSimpleChat (messages : list ChatMessage.t) : bool :=
  match messages with
  | [] => true
  | _ =>
      hasSimpleContent messages && negb (hasGovernmentContent messages)
      && negb (isDetailedRequest messages)
  end.

(** The text of the local message of lines 197-202. *)
Definition insufficientDataContent (action : string) : string :=
  "I don't have enough specific government or policy-related information in our conversation to provide a meaningful "
  +:+ replace "_" " " action
  +:+ " analysis. Please share more details about a specific government service, policy, or initiative you'd like me to analyze, and I'll be happy to help with a detailed "
  +:+ replace "_" " " action +:+ ".".

End Gate.

(** ** [Date]: time values and the ISO format

  The day and year arithmetic follows the ECMAScript definitions
  ([Day], [DayFromYear], [YearFromTime], [MonthFromTime], [MakeDay],
  [MakeTime], [TimeClip]). *)

Module JsDate.

Definition msPerDay : Z := 86400000.
Definition maxTime : Z := 8640000000000000.

Definition Day (t : Z) : Z := t / msPerDay.
Definition TimeWithinDay (t : Z) : Z := t mod msPerDay.

Definition isLeap (y : Z) : bool :=
  (y mod 4 =? 0) && (negb (y mod 100 =? 0) || (y mod 400 =? 0)).

Definition DaysInYear (y : Z) : Z := if isLeap y then 366 else 365.

Definition DayFromYear (y : Z) : Z :=
  365 * (y - 1970) + (y - 1969) / 4 - (y - 1901) / 100 + (y - 1601) / 400.

(** The largest [y] with [DayFromYear y <= d]: an estimate from the mean
    year length, corrected by one. *)
Definition yearFromDay (d : Z) : Z :=
  let y0 := 1970 + (d * 400) / 146097 in
  if DayFromYear (y0 + 1) <=? d then y0 + 1
  else if d <? DayFromYear y0 then y0 - 1
  else y0.

Definition YearFromTime (t : Z) : Z := yearFromDay (Day t).

(** Days before month [mo] (0-based) in a year. *)
Definition daysBeforeMonth (leap : bool) (mo : Z) : Z :=
  let l := if leap then 1 else 0 in
  if mo <=? 0 then 0
  else if mo =? 1 then 31
  else if mo =? 2 then 59 + l
  else if mo =? 3 then 90 + l
  else if mo =? 4 then 120 + l
  else if mo =? 5 then 151 + l
  else if mo =? 6 then 181 + l
  else if mo =? 7 then 212 + l
  else if mo =? 8 then 243 + l
  else if mo =? 9 then 273 + l
  else if mo =? 10 then 304 + l
  else if mo =? 11 then 334 + l
  else 365 + l.

Definition DayWithinYear (t : Z) : Z := Day t - DayFromYear (YearFromTime t).

Definition monthFromDayInYear (leap : bool) (dy : Z) : Z :=
  if dy <? daysBeforeMonth leap 1 then 0
  else if dy <? daysBeforeMonth leap 2 then 1
  else if dy <? daysBeforeMonth leap 3 then 2
  else if dy <? daysBeforeMonth leap 4 then 3
  else if dy <? daysBeforeMonth leap 5 then 4
  else if dy <? daysBeforeMonth leap 6 then 5
  else if dy <? daysBeforeMonth leap 7 then 6
  else if dy <? daysBeforeMonth leap 8 then 7
  else if dy <? daysBeforeMonth leap 9 then 8
  else if dy <? daysBeforeMonth leap 10 then 9
  else if dy <? daysBeforeMonth leap 11 then 10
  else 11.

Definition MonthFromTime (t : Z) : Z :=
  monthFromDayInYear (isLeap (YearFromTime t)) (DayWithinYear t).

Definition DateFromTime (t : Z) : Z :=
  DayWithinYear t
  - daysBeforeMonth (isLeap (YearFromTime t)) (MonthFromTime t) + 1.

Definition HourFromTime (t : Z) : Z := (TimeWithinDay t) / 3600000.
Definition MinFromTime (t : Z) : Z := (TimeWithinDay t) / 60000 mod 60.
Definition SecFromTime (t : Z) : Z := (TimeWithinDay t) / 1000 mod 60.
Definition msFromTime (t : Z) : Z := (TimeWithinDay t) mod 1000.

Definition MakeTime (h mi s ms : Z) : Z :=
  h * 3600000 + mi * 60000 + s * 1000 + ms.

(** [MakeDay(year, month, date)] for a month already in 0..11. *)
Definition MakeDay (y mo d : Z) : Z :=
  DayFromYear y + daysBeforeMonth (isLeap y) mo + d - 1.

Definition MakeDate (day time : Z) : Z := day * msPerDay + time.

Definition TimeClip (t : Z) : Date :=
  if Z.abs t <=? maxTime then TimeValue t else InvalidDate.

(** Decimal digits, fixed width. *)
Definition digitChar (d : Z) : ascii := ascii_of_nat (48 + Z.to_nat d).

Fixpoint padAcc (k : nat) (n : Z) (acc : string) : string :=
  match k with
  | O => acc
  | S k' => padAcc k' (n / 10) (String (digitChar (n mod 10)) acc)
  end.

Definition digitVal (c : ascii) : option Z :=
  let n := nat_of_ascii c in
  if ((48 <=? n) && (n <=? 57))%nat then Some (Z.of_nat n - 48) else None.

Fixpoint readDigits (k : nat) (s : string) (acc : Z) : option (Z * string) :=
  match k with
  | O => Some (acc, s)
  | S k' =>
      match s with
      | String c s' =>
          match digitVal c with
          | Some d => readDigits k' s' (acc * 10 + d)
          | None => None
          end
      | EmptyString => None
      end
  end.

(** [Date.prototype.toISOString] on a finite time value:
    [YYYY-MM-DDTHH:mm:ss.sssZ], the year as a sign and six digits when it
    is outside 0..9999. *)
Definition isoYear (y : Z) (rest : string) : string :=
  if (0 <=? y) && (y <=? 9999) then padAcc 4 y rest
  else String (if y <? 0 then "-"%char else "+"%char) (padAcc 6 (Z.abs y) rest).

Definition toISOString (t : Z) : string :=
  let ms := padAcc 3 (msFromTime t) "Z" in
  let sec := padAcc 2 (SecFromTime t) (String "."%char ms) in
  let mi := padAcc 2 (MinFromTime t) (String ":"%char sec) in
  let h := padAcc 2 (HourFromTime t) (String ":"%char mi) in
  let d := padAcc 2 (DateFromTime t) (String "T"%char h) in
  let mo := padAcc 2 (MonthFromTime t + 1) (String "-"%char d) in
  isoYear (YearFromTime t) (String "-"%char mo).

(** [Date.prototype.toJSON]: the ISO string, or [null] for the invalid
    date. *)
Definition toJSON (d : Date) : option string :=
  match d with
  | TimeValue t => Some (toISOString t)
  | InvalidDate => None
  end.

End JsDate.

(** [new Date(s)] on a string in the format [toISOString] writes. *)

Module DateParse.
Import JsDate.

Definition expectChar (c : ascii) (s : string) : option string :=
  match s with
  | String a s' => if Ascii.eqb a c then Some s' else None
  | EmptyString => None
  end.

Definition daysInMonth (y mo : Z) : Z :=
  daysBeforeMonth (isLeap y) (mo + 1) - daysBeforeMonth (isLeap y) mo.

(** The year: four digits, or a sign and six digits.  The [bool] is
    false for the year [-000000], which the format forbids. *)
Definition readYear (s : string) : option (Z * bool * string) :=
  match s with
  | String c s' =>
      if Ascii.eqb c "+"%char then
        '(y, r) ← readDigits 6 s' 0; Some (y, true, r)
      else if Ascii.eqb c "-"%char then
        '(y, r) ← readDigits 6 s' 0; Some (- y, negb (y =? 0), r)
      else
        '(y, r) ← readDigits 4 s 0; Some (y, true, r)
  | EmptyString => None
  end.

(** [Date.parse] restricted to [YYYY-MM-DDTHH:mm:ss.sssZ] (with the
    expanded year).  [None]: the string has another form (a shorter ISO
    form, an offset, an engine-specific format) or a day number past the
    end of its month, which engines read differently; these are left out
    of the model.  Field values out of range give the invalid date. *)
Definition parseISO (s : string) : option Date :=
  '(y, yok, r) ← readYear s;
  r ← expectChar "-" r;
  '(mo, r) ← readDigits 2 r 0;
  r ← expectChar "-" r;
  '(d, r) ← readDigits 2 r 0;
  r ← expectChar "T" r;
  '(h, r) ← readDigits 2 r 0;
  r ← expectChar ":" r;
  '(mi, r) ← readDigits 2 r 0;
  r ← expectChar ":" r;
  '(sec, r) ← readDigits 2 r 0;
  r ← expectChar "." r;
  '(ms, r) ← readDigits 3 r 0;
  r ← expectChar "Z" r;
  match r with
  | String _ _ => None
  | EmptyString =>
      if negb yok || (mo <? 1) || (12 <? mo) || (d <? 1) || (31 <? d)
         || (24 <? h) || (59 <? mi) || (59 <? sec)
         || ((h =? 24) && negb ((mi =? 0) && (sec =? 0) && (ms =? 0)))
      then Some InvalidDate
      else if daysInMonth y (mo - 1) <? d then None
      else Some (TimeClip (MakeDate (MakeDay y (mo - 1) d) (MakeTime h mi sec ms)))
  end.

End DateParse.

(** ** [JSON.stringify] and [JSON.parse] *)

Module Json.
Import JsString.

(** A JSON text as a tree.  An object keeps its members in text order;
    a number keeps its literal (no field of the stored sessions is
    numeric). *)
Inductive json : Type :=
| JNull
| JBool (b : bool)
| JNum (literal : string)
| JStr (s : string)
| JArr (l : list json)
| JObj (members : list (string * json)).

Definition hexDigit (n : nat) : ascii :=
  if (n <? 10)%nat then ascii_of_nat (48 + n) else ascii_of_nat (87 + n).

(** QuoteJSONString: the two-character escapes, [\u00XX] for the other
    control characters, everything else as it is. *)
Definition escapeChar (c : ascii) (rest : string) : string :=
  let n := code c in
  if (n =? 34)%nat then String "\" (String "034" rest)
  else if (n =? 92)%nat then String "\" (String "\" rest)
  else if (n =? 8)%nat then String "\" (String "b" rest)
  else if (n =? 9)%nat then String "\" (String "t" rest)
  else if (n =? 10)%nat then String "\" (String "n" rest)
  else if (n =? 12)%nat then String "\" (String "f" rest)
  else if (n =? 13)%nat then String "\" (String "r" rest)
  else if (n <? 32)%nat then
    String "\" (String "u" (String "0" (String "0"
      (String (hexDigit (n / 16)) (String (hexDigit (n mod 16)) rest)))))
  else String c rest.

Fixpoint escapeChars (s : string) (rest : string) : string :=
  match s with
  | EmptyString => rest
  | String c s' => escapeChar c (escapeChars s' rest)
  end.

Definition quote (s : string) (rest : string) : string :=
  String "034" (escapeChars s (String "034" rest)).

(** SerializeJSONProperty without indentation, written in front of
    [rest]. *)
Fixpoint print (j : json) (rest : string) : string :=
  match j with
  | JNull => "null" +:+ rest
  | JBool true => "true" +:+ rest
  | JBool false => "false" +:+ rest
  | JNum literal => literal +:+ rest
  | JStr s => quote s rest
  | JArr [] => "[]" +:+ rest
  | JArr (x :: l) =>
      String "[" (print x
        ((fix elems (l : list json) : string :=
            match l with
            | [] => String "]" rest
            | y :: l' => String "," (print y (elems l'))
            end) l))
  | JObj [] => "{}" +:+ rest
  | JObj ((k, x) :: l) =>
      String "{" (quote k (String ":" (print x
        ((fix members (l : list (string * json)) : string :=
            match l with
            | [] => String "}" rest
            | (k', y) :: l' =>
                String "," (quote k' (String ":" (print y (members l'))))
            end) l))))
  end.

(** The two inner loops of [print], by name. *)
Definition printElems (rest : string) : list json -> string :=
  fix elems (l : list json) : string :=
    match l with
    | [] => String "]" rest
    | y :: l' => String "," (print y (elems l'))
    end.

Definition printMembers (rest : string) : list (string * json) -> string :=
  fix members (l : list (string * json)) : string :=
    match l with
    | [] => String "}" rest
    | (k', y) :: l' => String "," (quote k' (String ":" (print y (members l'))))
    end.

Definition stringify (j : json) : string := print j EmptyString.

(** *** Parsing *)

Definition isJsonWs (c : ascii) : bool :=
  let n := code c in ((n =? 32) || (n =? 9) || (n =? 10) || (n =? 13))%nat.

Fixpoint skipWs (s : string) : string :=
  match s with
  | String c s' => if isJsonWs c then skipWs s' else s
  | EmptyString => EmptyString
  end.

Definition hexVal (c : ascii) : option nat :=
  let n := code c in
  if ((48 <=? n) && (n <=? 57))%nat then Some (n - 48)%nat
  else if ((97 <=? n) && (n <=? 102))%nat then Some (n - 87)%nat
  else if ((65 <=? n) && (n <=? 70))%nat then Some (n - 55)%nat
  else None.

(** [\uXXXX]: the code unit, when it is below 256. *)
Definition unicodeEscape (a b c d : ascii) : option ascii :=
  a ← hexVal a; b ← hexVal b; c ← hexVal c; d ← hexVal d;
  if ((a =? 0) && (b =? 0))%nat then Some (ascii_of_nat (c * 16 + d)) else None.

Definition simpleEscape (e : ascii) : option ascii :=
  let n := code e in
  if (n =? 34)%nat then Some "034"%char
  else if (n =? 92)%nat then Some "\"%char
  else if (n =? 47)%nat then Some "/"%char
  else if (n =? 98)%nat then Some (ascii_of_nat 8)
  else if (n =? 102)%nat then Some (ascii_of_nat 12)
  else if (n =? 110)%nat then Some (ascii_of_nat 10)
  else if (n =? 114)%nat then Some (ascii_of_nat 13)
  else if (n =? 116)%nat then Some (ascii_of_nat 9)
  else None.

(** The characters of a string literal after its opening quote, up to
    and including the closing quote. *)
Fixpoint parseChars (s : string) : option (string * string) :=
  match s with
  | EmptyString => None
  | String c s' =>
      if (code c =? 34)%nat then Some (EmptyString, s')
      else if (code c =? 92)%nat then
        match s' with
        | String e s'' =>
            if (code e =? 117)%nat then
              match s'' with
              | String h1 (String h2 (String h3 (String h4 s3))) =>
                  u ← unicodeEscape h1 h2 h3 h4;
                  '(t, r) ← parseChars s3; Some (String u t, r)
              | _ => None
              end
            else
              u ← simpleEscape e;
              '(t, r) ← parseChars s''; Some (String u t, r)
        | EmptyString => None
        end
      else if (code c <? 32)%nat then None
      else '(t, r) ← parseChars s'; Some (String c t, r)
  end.

Definition isDigit (c : ascii) : bool :=
  ((48 <=? code c) && (code c <=? 57))%nat.

Fixpoint takeDigits (s : string) : string * string :=
  match s with
  | String c s' =>
      if isDigit c then let '(d, r) := takeDigits s' in (String c d, r)
      else (EmptyString, s)
  | EmptyString => (EmptyString, EmptyString)
  end.

(** A number literal: [-? int frac? exp?]. *)
Definition parseNumber (s : string) : option (string * string) :=
  let '(sign, s1) :=
    match s with
    | String "-" r => ("-", r)
    | _ => (EmptyString, s)
    end in
  let '(int, s2) := takeDigits s1 in
  match int with
  | EmptyString => None
  | String "0" (String _ _) => None
  | _ =>
      let '(frac, s3) :=
        match s2 with
        | String "." r => let '(d, r') := takeDigits r in (String "." d, r')
        | _ => (EmptyString, s2)
        end in
      if String.eqb frac "." then None
      else
        match s3 with
        | String e r =>
            if (Ascii.eqb e "e" || Ascii.eqb e "E")%bool then
              let '(sg, r1) :=
                match r with
                | String "+" r' => ("+", r')
                | String "-" r' => ("-", r')
                | _ => (EmptyString, r)
                end in
              let '(d, r2) := takeDigits r1 in
              match d with
              | EmptyString => None
              | _ => Some (sign +:+ int +:+ frac +:+ String e sg +:+ d, r2)
              end
            else Some (sign +:+ int +:+ frac, s3)
        | EmptyString => Some (sign +:+ int +:+ frac, s3)
        end
  end.

Definition expect (lit : string) (s : string) : option string :=
  if startsWith lit s then Some (dropChars (String.length lit) s) else None.

(** Recursive descent; [fuel] bounds the nesting of the calls. *)
Fixpoint parseValue (fuel : nat) (s : string) : option (json * string) :=
  match fuel with
  | O => None
  | S f =>
      match skipWs s with
      | EmptyString => None
      | String c s' =>
          if Ascii.eqb c "n" then r ← expect "ull" s'; Some (JNull, r)
          else if Ascii.eqb c "t" then r ← expect "rue" s'; Some (JBool true, r)
          else if Ascii.eqb c "f" then r ← expect "alse" s'; Some (JBool false, r)
          else if Ascii.eqb c "034" then
            '(t, r) ← parseChars s'; Some (JStr t, r)
          else if Ascii.eqb c "[" then
            match skipWs s' with
            | String "]" r => Some (JArr [], r)
            | _ =>
                '(x, r) ← parseValue f s';
                '(l, r') ← parseElems f r; Some (JArr (x :: l), r')
            end
          else if Ascii.eqb c "{" then
            match skipWs s' with
            | String "}" r => Some (JObj [], r)
            | _ =>
                '(kx, r) ← parseMember f s';
                '(l, r') ← parseMembers f r; Some (JObj (kx :: l), r')
            end
          else
            '(n, r) ← parseNumber (String c s'); Some (JNum n, r)
      end
  end
with parseElems (fuel : nat) (s : string) : option (list json * string) :=
  match fuel with
  | O => None
  | S f =>
      match skipWs s with
      | String "]" r => Some ([], r)
      | String "," r =>
          '(x, r1) ← parseValue f r;
          '(l, r2) ← parseElems f r1; Some (x :: l, r2)
      | _ => None
      end
  end
with parseMember (fuel : nat) (s : string) : option (string * json * string) :=
  match fuel with
  | O => None
  | S f =>
      match skipWs s with
      | String "034" r =>
          '(k, r1) ← parseChars r;
          match skipWs r1 with
          | String ":" r2 => '(x, r3) ← parseValue f r2; Some (k, x, r3)
          | _ => None
          end
      | _ => None
      end
  end
with parseMembers (fuel : nat) (s : string) : option (list (string * json) * string) :=
  match fuel with
  | O => None
  | S f =>
      match skipWs s with
      | String "}" r => Some ([], r)
      | String "," r =>
          '(kx, r1) ← parseMember f r;
          '(l, r2) ← parseMembers f r1; Some (kx :: l, r2)
      | _ => None
      end
  end.

(** [JSON.parse(text)]; [None] is the SyntaxError. *)
Definition parse (text : string) : option json :=
  '(j, r) ← parseValue (S (S (String.length text))) text;
  match skipWs r with
  | EmptyString => Some j
  | String _ _ => None
  end.

(** Property access on a parsed object: a later member with the same
    key has overwritten an earlier one. *)
Fixpoint get (k : string) (members : list (string * json)) : option json :=
  match members with
  | [] => None
  | (k', v) :: l =>
      match get k l with
      | Some v' => Some v'
      | None => if String.eqb k k' then Some v else None
      end
  end.

(** A tree without number literals, as every stored collection is. *)
Fixpoint numFree (j : json) : bool :=
  match j with
  | JNum _ => false
  | JArr l => forallb numFree l
  | JObj l => forallb (fun kx => numFree (snd kx)) l
  | _ => true
  end.

(** A bound on the nesting of the parser's calls on the printed tree. *)
Fixpoint size (j : json) : nat :=
  match j with
  | JArr l => S (list_sum (map (fun x => S (size x)) l))
  | JObj l => S (list_sum (map (fun kx => S (S (size (snd kx)))) l))
  | _ => 1
  end.

(** The characters a printed value can start with. *)
Definition opener (c : ascii) : Prop :=
  c = "n"%char \/ c = "t"%char \/ c = "f"%char \/ c = "034"%char
  \/ c = "["%char \/ c = "{"%char.

End Json.

(** ** Persistence: what the save and load effects write and read *)

Module Persist.
Import Json.

Definition roleString (r : Role) : string :=
  match r with user => "user" | assistant => "assistant" end.

Definition dateJson (d : Date) : json :=
  match JsDate.toJSON d with
  | Some iso => JStr iso
  | None => JNull
  end.

(** The objects [JSON.stringify] walks, members in creation order, a
    member whose value is [undefined] left out. *)
Definition encodeCitation (c : Citation.t) : json :=
  JObj [ ("id", JStr (Citation.id c)); ("title", JStr (Citation.title c));
         ("url", JStr (Citation.url c)); ("snippet", JStr (Citation.snippet c)) ].

Definition encodeMessage (msg : ChatMessage.t) : json :=
  JObj ([ ("id", JStr (ChatMessage.id msg));
          ("role", JStr (roleString (ChatMessage.role msg)));
          ("content", JStr (ChatMessage.content msg));
          ("timestamp", dateJson (ChatMessage.timestamp msg)) ]
        ++ match ChatMessage.sources msg with
           | Some l => [ ("sources", JArr (map encodeCitation l)) ]
           | None => []
           end).

Definition encodeSession (session : ChatSession.t) : json :=
  JObj [ ("id", JStr (ChatSession.id session));
         ("title", JStr (ChatSession.title session));
         ("messages", JArr (map encodeMessage (ChatSession.messages session)));
         ("createdAt", dateJson (ChatSession.createdAt session)) ].

(** [JSON.stringify(chatSessions)] *)
Definition stringifySessions (chatSessions : list ChatSession.t) : string :=
  stringify (JArr (map encodeSession chatSessions)).

(** [new Date(v)] for a property value [v] of a parsed object: a string
    is parsed, [null] is the epoch, a missing property gives the invalid
    date.  Other values do not occur in a typed session. *)
Definition newDate (v : option json) : option Date :=
  match v with
  | Some (JStr iso) => DateParse.parseISO iso
  | Some JNull => Some (TimeValue 0)
  | None => Some InvalidDate
  | Some _ => None
  end.

Definition asString (v : option json) : option string :=
  match v with Some (JStr x) => Some x | _ => None end.

Definition asRole (v : option json) : option Role :=
  x ← asString v;
  if String.eqb x "user" then Some user
  else if String.eqb x "assistant" then Some assistant
  else None.

Fixpoint mapM {A B} (f : A -> option B) (l : list A) : option (list B) :=
  match l with
  | [] => Some []
  | x :: l' => y ← f x; r ← mapM f l'; Some (y :: r)
  end.

Definition loadCitation (j : json) : option Citation.t :=
  match j with
  | JObj o =>
      i ← asString (get "id" o); t ← asString (get "title" o);
      u ← asString (get "url" o); sn ← asString (get "snippet" o);
      Some (Citation.mk i t u sn)
  | _ => None
  end.

(** [{ ...msg, timestamp: new Date(msg.timestamp) }], read at type
    [ChatMessage]. *)
Definition loadMessage (msg : json) : option ChatMessage.t :=
  match msg with
  | JObj o =>
      i ← asString (get "id" o); r ← asRole (get "role" o);
      c ← asString (get "content" o);
      ts ← newDate (get "timestamp" o);
      src ← match get "sources" o with
            | None => Some None
            | Some (JArr l) => l' ← mapM loadCitation l; Some (Some l')
            | Some _ => None
            end;
      Some (ChatMessage.mk i r c ts src)
  | _ => None
  end.

(** [{ ...session, createdAt: new Date(session.createdAt),
       messages: session.messages.map(...) }] *)
Definition loadSession (session : json) : option ChatSession.t :=
  match session with
  | JObj o =>
      i ← asString (get "id" o); t ← asString (get "title" o);
      created ← newDate (get "createdAt" o);
      msgs ← match get "messages" o with
             | Some (JArr l) => mapM loadMessage l
             | _ => None
             end;
      Some (ChatSession.mk i t msgs created)
  | _ => None
  end.

(** [JSON.parse(savedSessions).map(...)].  [None]: the text is not JSON
    (the effect throws) or is not an array of typed sessions. *)
Definition loadSessions (savedSessions : string) : option (list ChatSession.t) :=
  j ← parse savedSessions;
  match j with
  | JArr l => mapM loadSession l
  | _ => None
  end.

End Persist.

(** ** The component: React state, handlers and effects *)

Module Store.
Import JsString.

(** The [useState] cells the handlers read or write.  The sidebar flag
    is presentational only and is left out. *)
Record State : Type := mkState {
  messages : list ChatMessage.t;
  inputValue : string;
  isLoading : bool;
  chatSessions : list ChatSession.t;
  currentSessionId : option string;
  editingSessionId : option string;
  editingTitle : string;
  deleteDialogOpen : bool;
  sessionToDelete : option string
}.

Definition initialState : State :=
  mkState [] "" false [] None None "" false None.

(** [lib/gemini.ts] *)
Record ChatResponse : Type := mkChatResponse {
  answer : string;
  documents_retrieved : Z;
  response_sources : option (list Citation.t)
}.

(** What [fetch] followed by [response.json()] comes to: the decoded
    body, or a failure (transport error, status outside 2xx). *)
Inductive NetResult (A : Type) : Type :=
| NetOk (data : A)
| NetFail.
Arguments NetOk {A} data.
Arguments NetFail {A}.

Definition generateResponse (net : NetResult ChatResponse) : ChatResponse :=
  match net with
  | NetOk data => data
  | NetFail =>
      mkChatResponse
        "I apologize, but I'm experiencing technical difficulties. Please try again in a moment or contact the PMRU support team for assistance."
        0 None
  end.

Definition generateActionResponse (net : NetResult string) : string :=
  match net with
  | NetOk result => result
  | NetFail =>
      "I apologize, but I'm experiencing technical difficulties generating the specialized report. Please try again in a moment."
  end.

(** How an awaited promise settles. *)
Inductive Settled (A : Type) : Type :=
| Fulfilled (v : A)
| Rejected.
Arguments Fulfilled {A} v.
Arguments Rejected {A}.

(** A call of one of the two remote helpers, with its arguments. *)
Inductive RemoteCall : Type :=
| ChatCall (message : string) (context : list ChatMessage.t)
| ActionCall (actionType query context : string).

(** *** Handlers as state computations

    A handler runs against the state being built for the next render
    ([st]); functional updates see the updates queued before them.  The
    flags record which dependency arrays have a new identity, [tick]
    counts the clock readings made so far, [out] collects the remote
    calls started. *)
Record Run : Type := mkRun {
  st : State;
  dirtyMessages : bool;
  dirtyChatSessions : bool;
  tick : nat;
  out : list RemoteCall
}.

(** The clock: the [n]-th reading of [Date.now()] during a handler. *)
Definition Clock : Type := nat -> Z.

Definition M (A : Type) : Type := Clock -> Run -> A * Run.

#[export] Instance M_ret : MRet M := fun A a _ r => (a, r).
#[export] Instance M_bind : MBind M :=
  fun A B k c clk r => let '(a, r') := c clk r in k a clk r'.

Definition skip : M unit := mret tt.

(** One cell replaced, the others kept. *)
Definition withMessages (v : list ChatMessage.t) (s : State) : State :=
  mkState v (inputValue s) (isLoading s) (chatSessions s) (currentSessionId s)
          (editingSessionId s) (editingTitle s) (deleteDialogOpen s)
          (sessionToDelete s).

Definition withInputValue (v : string) (s : State) : State :=
  mkState (messages s) v (isLoading s) (chatSessions s) (currentSessionId s)
          (editingSessionId s) (editingTitle s) (deleteDialogOpen s)
          (sessionToDelete s).

Definition withIsLoading (v : bool) (s : State) : State :=
  mkState (messages s) (inputValue s) v (chatSessions s) (currentSessionId s)
          (editingSessionId s) (editingTitle s) (deleteDialogOpen s)
          (sessionToDelete s).

Definition withChatSessions (v : list ChatSession.t) (s : State) : State :=
  mkState (messages s) (inputValue s) (isLoading s) v (currentSessionId s)
          (editingSessionId s) (editingTitle s) (deleteDialogOpen s)
          (sessionToDelete s).

Definition withCurrentSessionId (v : option string) (s : State) : State :=
  mkState (messages s) (inputValue s) (isLoading s) (chatSessions s) v
          (editingSessionId s) (editingTitle s) (deleteDialogOpen s)
          (sessionToDelete s).

Definition withEditingSessionId (v : option string) (s : State) : State :=
  mkState (messages s) (inputValue s) (isLoading s) (chatSessions s)
          (currentSessionId s) v (editingTitle s) (deleteDialogOpen s)
          (sessionToDelete s).

Definition withEditingTitle (v : string) (s : State) : State :=
  mkState (messages s) (inputValue s) (isLoading s) (chatSessions s)
          (currentSessionId s) (editingSessionId s) v (deleteDialogOpen s)
          (sessionToDelete s).

Definition withDeleteDialogOpen (v : bool) (s : State) : State :=
  mkState (messages s) (inputValue s) (isLoading s) (chatSessions s)
          (currentSessionId s) (editingSessionId s) (editingTitle s) v
          (sessionToDelete s).

Definition withSessionToDelete (v : option string) (s : State) : State :=
  mkState (messages s) (inputValue s) (isLoading s) (chatSessions s)
          (currentSessionId s) (editingSessionId s) (editingTitle s)
          (deleteDialogOpen s) v.

Definition modify (f : State -> State) : M unit :=
  fun _ r => (tt, mkRun (f (st r)) (dirtyMessages r) (dirtyChatSessions r)
                        (tick r) (out r)).

(** [Date.now()]; [new Date()] has the same reading as time value. *)
Definition DateNow : M Z :=
  fun clk r => (clk (tick r),
                mkRun (st r) (dirtyMessages r) (dirtyChatSessions r)
                      (S (tick r)) (out r)).

Definition newDateNow : M Date := t ← DateNow; mret (TimeValue t).

(** [n.toString()] for an integer. *)
Definition toString (n : Z) : string :=
  DecimalString.NilZero.string_of_int (Z.to_int n).

(** Starting one of the two remote helpers. *)
Definition call (c : RemoteCall) : M unit :=
  fun _ r => (tt, mkRun (st r) (dirtyMessages r) (dirtyChatSessions r)
                        (tick r) (out r ++ [c])).

(** The setters.  An array passed to [setMessages] or [setChatSessions]
    is always a new one, so the dependency counts as changed. *)
Definition setMessages (f : list ChatMessage.t -> list ChatMessage.t) : M unit :=
  fun _ r =>
    (tt, mkRun (withMessages (f (messages (st r))) (st r))
               true (dirtyChatSessions r) (tick r) (out r)).

Definition setChatSessions (f : list ChatSession.t -> list ChatSession.t) : M unit :=
  fun _ r =>
    (tt, mkRun (withChatSessions (f (chatSessions (st r))) (st r))
               (dirtyMessages r) true (tick r) (out r)).

Definition setInputValue (v : string) : M unit := modify (withInputValue v).
Definition setIsLoading (v : bool) : M unit := modify (withIsLoading v).
Definition setCurrentSessionId (v : option string) : M unit :=
  modify (withCurrentSessionId v).
Definition setEditingSessionId (v : option string) : M unit :=
  modify (withEditingSessionId v).
Definition setEditingTitle (v : string) : M unit := modify (withEditingTitle v).
Definition setDeleteDialogOpen (v : bool) : M unit :=
  modify (withDeleteDialogOpen v).
Definition setSessionToDelete (v : option string) : M unit :=
  modify (withSessionToDelete v).

(** [a === b] on [string | null] *)
Definition optEqb (a b : option string) : bool :=
  match a, b with
  | Some x, Some y => String.eqb x y
  | None, None => true
  | _, _ => false
  end.

(** The three updater functions passed to [setChatSessions] by the
    copy effect, the rename and the delete. *)
Definition copyMessages (cur : string) (msgs : list ChatMessage.t)
    (prev : list ChatSession.t) : list ChatSession.t :=
  map (fun session =>
         if String.eqb (ChatSession.id session) cur
         then ChatSession.mk (ChatSession.id session) (ChatSession.title session)
                             msgs (ChatSession.createdAt session)
         else session)
      prev.

Definition retitle (sessionId newTitle : string)
    (prev : list ChatSession.t) : list ChatSession.t :=
  map (fun session =>
         if String.eqb (ChatSession.id session) sessionId
         then ChatSession.mk (ChatSession.id session) newTitle
                             (ChatSession.messages session)
                             (ChatSession.createdAt session)
         else session)
      prev.

Definition withoutSession (sessionToDelete : option string)
    (prev : list ChatSession.t) : list ChatSession.t :=
  List.filter
    (fun session => negb (optEqb (Some (ChatSession.id session)) sessionToDelete))
    prev.

(** *** [handleSendMessage] (lines 82-132)

    [snap] is the state of the render the handler closes over.  The part
    before the [await] starts the remote call; the continuation runs
    when it settles. *)
Definition sendText (messageText : option string) (snap : State) : string :=
  match messageText with
  | Some t => if truthy t then t else trim (inputValue snap)
  | None => trim (inputValue snap)
  end.

Definition sessionTitle (text : string) : string :=
  slice0 30 text +:+ (if (30 <? String.length text)%nat then "..." else "").

Definition handleSendMessage (messageText : option string) (snap : State) : M unit :=
  let text := sendText messageText snap in
  if negb (truthy text) || isLoading snap then skip
  else
    (if negb (truthyOpt (currentSessionId snap)) then
       now ← DateNow;
       let newSessionId := toString now in
       created ← newDateNow;
       let newSession :=
         ChatSession.mk newSessionId (sessionTitle text) [] created in
       setChatSessions (fun prev => newSession :: prev);;
       setCurrentSessionId (Some newSessionId)
     else skip);;
    now ← DateNow;
    stamp ← newDateNow;
    let userMessage := ChatMessage.mk (toString now) user text stamp None in
    setMessages (fun prev => prev ++ [userMessage]);;
    setInputValue "";;
    setIsLoading true;;
    call (ChatCall text (messages snap)).

Definition handleSendMessage_settled (response : Settled ChatResponse)
    (snap : State) : M unit :=
  match response with
  | Fulfilled response =>
      now ← DateNow;
      stamp ← newDateNow;
      let assistantMessage :=
        ChatMessage.mk (toString (now + 1)) assistant (answer response) stamp
                       (response_sources response) in
      setMessages (fun prev => prev ++ [assistantMessage])
  | Rejected =>
      now ← DateNow;
      stamp ← newDateNow;
      let errorMessage :=
        ChatMessage.mk (toString (now + 1)) assistant
          "I apologize for the technical difficulty. Please try again."
          stamp None in
      setMessages (fun prev => prev ++ [errorMessage])
  end;;
  setIsLoading false.

(** [messages.map(m => m.content).join('\n')] *)
Definition transcript (msgs : list ChatMessage.t) : string :=
  join (String (ascii_of_nat 10) EmptyString) (map ChatMessage.content msgs).

(** *** [handleActionResponse] (lines 134-231) *)
Definition handleActionResponse (action originalMessage : string)
    (snap : State) : M unit :=
  setIsLoading true;;
  if Gate.isSimpleChat (messages snap) then
    now ← DateNow;
    stamp ← newDateNow;
    let insufficientDataMessage :=
      ChatMessage.mk (toString now) assistant
                     (Gate.insufficientDataContent action) stamp None in
    setMessages (fun prev => prev ++ [insufficientDataMessage]);;
    setIsLoading false
  else
    call (ActionCall action originalMessage (transcript (messages snap))).

Definition handleActionResponse_settled (response : Settled string)
    (snap : State) : M unit :=
  match response with
  | Fulfilled response =>
      now ← DateNow;
      stamp ← newDateNow;
      let assistantMessage :=
        ChatMessage.mk (toString now) assistant response stamp None in
      setMessages (fun prev => prev ++ [assistantMessage])
  | Rejected =>
      now ← DateNow;
      stamp ← newDateNow;
      let errorMessage :=
        ChatMessage.mk (toString now) assistant
          "I apologize for the technical difficulty with the specialized analysis. Please try again."
          stamp None in
      setMessages (fun prev => prev ++ [errorMessage])
  end;;
  setIsLoading false.

(** *** Session list handlers (lines 240-286, 324-327, 351-356) *)
Definition handleDeleteSession (sessionId : string) (snap : State) : M unit :=
  setSessionToDelete (Some sessionId);;
  setDeleteDialogOpen true.

Definition confirmDeleteSession (snap : State) : M unit :=
  if truthyOpt (sessionToDelete snap) then
    setChatSessions (withoutSession (sessionToDelete snap));;
    (if optEqb (currentSessionId snap) (sessionToDelete snap) then
       setMessages (fun _ => []);;
       setCurrentSessionId None
     else skip);;
    setDeleteDialogOpen false;;
    setSessionToDelete None
  else skip.

Definition handleStartEdit (sessionId currentTitle : string) (snap : State) : M unit :=
  setEditingSessionId (Some sessionId);;
  setEditingTitle currentTitle.

Definition handleSaveEdit (sessionId : string) (snap : State) : M unit :=
  (if truthy (trim (editingTitle snap)) then
     setChatSessions (retitle sessionId (trim (editingTitle snap)))
   else skip);;
  setEditingSessionId None;;
  setEditingTitle "".

Definition handleCancelEdit (snap : State) : M unit :=
  setEditingSessionId None;;
  setEditingTitle "".

Definition handleReturnHome (snap : State) : M unit :=
  setMessages (fun _ => []);;
  setCurrentSessionId None.

(** The click on a session row. *)
Definition selectSession (session : ChatSession.t) (snap : State) : M unit :=
  if negb (optEqb (editingSessionId snap) (Some (ChatSession.id session))) then
    setCurrentSessionId (Some (ChatSession.id session));;
    setMessages (fun _ => ChatSession.messages session)
  else skip.

(** *** Effects (lines 48-80) *)

Definition storageKey : string := "chatSessions".

(** The save effect, dependency [chatSessions]. *)
Definition saveEffect (s : State) (localStorage : gmap string string)
    : gmap string string :=
  if (0 <? length (chatSessions s))%nat
  then <[storageKey := Persist.stringifySessions (chatSessions s)]> localStorage
  else localStorage.

(** The effect that copies the displayed messages into the active
    session, dependencies [messages] and [currentSessionId]. *)
Definition syncEffect (s : State) : M unit :=
  match currentSessionId s with
  | Some cur =>
      if truthy cur && (0 <? length (messages s))%nat then
        setChatSessions (copyMessages cur (messages s))
      else skip
  | None => skip
  end.

(** *** What the handlers build, by name *)

(** The user message and the session of a first send, from the four
    clock readings the handler makes. *)
Definition firstMessage (text : string) (clk : Clock) : ChatMessage.t :=
  ChatMessage.mk (toString (clk 2%nat)) user text (TimeValue (clk 3%nat)) None.

Definition firstSession (text : string) (clk : Clock)
    (msgs : list ChatMessage.t) : ChatSession.t :=
  ChatSession.mk (toString (clk 0%nat)) (sessionTitle text) msgs
                 (TimeValue (clk 1%nat)).

(** The local reply of the gate. *)
Definition insufficientDataMessage (action : string) (clk : Clock) : ChatMessage.t :=
  ChatMessage.mk (toString (clk 0%nat)) assistant
                 (Gate.insufficientDataContent action) (TimeValue (clk 1%nat)) None.

(** *** Renders, events and the transition function *)

(** The component together with what it shares with the outside: the
    browser's [localStorage] and the remote calls still in flight. *)
Record World : Type := mkWorld {
  ui : State;
  localStorage : gmap string string;
  inflight : list RemoteCall
}.

Definition freshRun (s : State) (n : nat) : Run := mkRun s false false n [].

(** One handler run followed by the renders it causes.  The updates of
    the handler are applied in one batch; then the effects whose
    dependencies changed run in the order of their declaration (save,
    then copy); the copy effect queues a further update of
    [chatSessions], whose render runs the save effect once more. *)
Definition dispatch (h : State -> M unit) (clk : Clock) (w : World) : World :=
  let snap := ui w in
  let r := snd (h snap clk (freshRun snap 0)) in
  let ls1 := if dirtyChatSessions r then saveEffect (st r) (localStorage w)
             else localStorage w in
  if dirtyMessages r
     || negb (optEqb (currentSessionId snap) (currentSessionId (st r)))
  then
    let r2 := snd (syncEffect (st r) clk (freshRun (st r) (tick r))) in
    let ls2 := if dirtyChatSessions r2 then saveEffect (st r2) ls1 else ls1 in
    mkWorld (st r2) ls2 (inflight w ++ out r)
  else mkWorld (st r) ls1 (inflight w ++ out r).

(** The first render: the load effect reads the stored text; the
    render after it runs the save effect.  [None]: the load effect
    throws, or the text is outside the typed model. *)
Definition mount (ls : gmap string string) : option World :=
  match ls !! storageKey with
  | Some savedSessions =>
      if truthy savedSessions then
        sessions ← Persist.loadSessions savedSessions;
        Some (dispatch (fun _ => setChatSessions (fun _ => sessions))
                       (fun _ => 0) (mkWorld initialState ls []))
      else Some (mkWorld initialState ls [])
  | None => Some (mkWorld initialState ls [])
  end.

Inductive Event : Type :=
| EInput (v : string)
| ESend (messageText : option string) (clk : Clock)
| EChatSettled (i : nat) (net : NetResult ChatResponse) (clk : Clock)
| EAction (action originalMessage : string) (clk : Clock)
| EActionSettled (i : nat) (net : NetResult string) (clk : Clock)
| ESelect (i : nat)
| ENewChat
| EReturnHome
| EDeleteRequest (sessionId : string)
| EDeleteConfirm
| EDialogOpenChange (open : bool)
| EStartEdit (sessionId currentTitle : string)
| EEditTitle (v : string)
| ESaveEdit (sessionId : string)
| ECancelEdit.

Definition noClock : Clock := fun _ => 0.

Definition removeAt {A} (i : nat) (l : list A) : list A :=
  take i l ++ drop (S i) l.

Definition step (w : World) (e : Event) : World :=
  match e with
  | EInput v => dispatch (fun _ => setInputValue v) noClock w
  | ESend messageText clk => dispatch (handleSendMessage messageText) clk w
  | EChatSettled i net clk =>
      match inflight w !! i with
      | Some (ChatCall _ _) =>
          dispatch (handleSendMessage_settled (Fulfilled (generateResponse net)))
                   clk (mkWorld (ui w) (localStorage w) (removeAt i (inflight w)))
      | _ => w
      end
  | EAction action originalMessage clk =>
      dispatch (handleActionResponse action originalMessage) clk w
  | EActionSettled i net clk =>
      match inflight w !! i with
      | Some (ActionCall _ _ _) =>
          dispatch (handleActionResponse_settled
                      (Fulfilled (generateActionResponse net)))
                   clk (mkWorld (ui w) (localStorage w) (removeAt i (inflight w)))
      | _ => w
      end
  | ESelect i =>
      match chatSessions (ui w) !! i with
      | Some session => dispatch (selectSession session) noClock w
      | None => w
      end
  | ENewChat => dispatch handleReturnHome noClock w
  | EReturnHome => dispatch handleReturnHome noClock w
  | EDeleteRequest sessionId => dispatch (handleDeleteSession sessionId) noClock w
  | EDeleteConfirm => dispatch confirmDeleteSession noClock w
  | EDialogOpenChange open => dispatch (fun _ => setDeleteDialogOpen open) noClock w
  | EStartEdit sessionId currentTitle =>
      dispatch (handleStartEdit sessionId currentTitle) noClock w
  | EEditTitle v => dispatch (fun _ => setEditingTitle v) noClock w
  | ESaveEdit sessionId => dispatch (handleSaveEdit sessionId) noClock w
  | ECancelEdit => dispatch handleCancelEdit noClock w
  end.

Definition run (w : World) (es : list Event) : World := foldl step w es.

Definition actionTypes : list string :=
  ["feasibility"; "case_study"; "executive_report"].

Definition hasSessionId (sessionId : string) (s : State) : bool :=
  existsb (fun session => String.eqb (ChatSession.id session) sessionId)
          (chatSessions s).

(** What the rendered page lets happen: the send button and the input
    are disabled while loading ([messageText] is never passed), the
    quick actions sit under the assistant messages, the row buttons show
    for rows not being edited, the confirm button sits in the open
    dialog. *)
Definition enabled (w : World) (e : Event) : bool :=
  let s := ui w in
  match e with
  | EInput _ => negb (isLoading s)
  | ESend None _ => negb (isLoading s)
  | ESend (Some _) _ => false
  | EChatSettled i _ _ =>
      match inflight w !! i with Some (ChatCall _ _) => true | _ => false end
  | EActionSettled i _ _ =>
      match inflight w !! i with Some (ActionCall _ _ _) => true | _ => false end
  | EAction action originalMessage _ =>
      existsb (String.eqb action) actionTypes
      && existsb (fun msg => negb (Gate.isUser msg)
                             && String.eqb (ChatMessage.content msg) originalMessage)
                 (messages s)
  | ESelect i => (i <? length (chatSessions s))%nat
  | ENewChat => true
  | EReturnHome => (0 <? length (messages s))%nat
  | EDeleteRequest sessionId =>
      hasSessionId sessionId s && negb (optEqb (editingSessionId s) (Some sessionId))
  | EStartEdit sessionId currentTitle =>
      existsb (fun session => String.eqb (ChatSession.id session) sessionId
                              && String.eqb (ChatSession.title session) currentTitle)
              (chatSessions s)
      && negb (optEqb (editingSessionId s) (Some sessionId))
  | EDeleteConfirm => deleteDialogOpen s
  | EDialogOpenChange open => deleteDialogOpen s && negb open
  | EEditTitle _ | ECancelEdit =>
      match editingSessionId s with
      | Some sessionId => hasSessionId sessionId s
      | None => false
      end
  | ESaveEdit sessionId =>
      optEqb (editingSessionId s) (Some sessionId) && hasSessionId sessionId s
  end.

(** Every event of the list is one the page offers when it happens. *)
Fixpoint feasible (w : World) (es : list Event) : bool :=
  match es with
  | [] => true
  | e :: es' => enabled w e && feasible (step w e) es'
  end.

(** The state a handler leaves for the next render. *)
Definition after (h : State -> M unit) (clk : Clock) (snap : State) : Run :=
  snd (h snap clk (freshRun snap 0)).

(** The copy effect run on the state a handler left. *)
Definition synced (r : Run) (clk : Clock) : Run :=
  snd (syncEffect (st r) clk (freshRun (st r) (tick r))).

Definition emptyWorld : World := mkWorld initialState ∅ [].

End Store.

(** ** The gate as the specification words it *)

Module GateSpec.
Import JsString.

(** The words of the three greeting and acknowledgment patterns. *)
Definition greetingWords : list string :=
  [ "hi"; "hello"; "hey"; "good morning"; "good afternoon"; "good evening";
    "how are you"; "what's up"; "what are you"; "who are you";
    "thanks"; "thank you"; "ok"; "okay"; "yes"; "no" ].

Definition detailWords : list string :=
  [ "detail"; "complete"; "comprehensive"; "analysis"; "insight"; "report" ].

(** The contents of the last three user messages, in order. *)
Definition Selected (history : list ChatMessage.t) (recent : list string) : Prop :=
  exists older latest,
    List.filter Gate.isUser history = older ++ latest
    /\ length latest = Nat.min 3 (length (List.filter Gate.isUser history))
    /\ recent = map ChatMessage.content latest.

(** [s] begins with the word [w], and the word ends there. *)
Definition BeginsWithWord (w s : string) : Prop :=
  exists rest, s = w +:+ rest /\ Regex.wordAfter rest = false.

Definition MatchesGreeting (s : string) : Prop :=
  exists w, In w greetingWords /\ BeginsWithWord w s.

Definition NoLineTerminator (s : string) : Prop :=
  forall pre c post, s = pre +:+ String c post -> isLineTerminator c = false.

(** [k] occurs in [s] up to the case of letters. *)
Definition SubstringNoCase (k s : string) : Prop :=
  exists pre mid post, s = pre +:+ mid +:+ post /\ toLowerCase mid = k.

Definition text (msg : string) : string := trim (toLowerCase msg).

(** As the claim words it: a greeting, or 1 to 20 characters. *)
Definition HasSimpleContent_stated (recent : list string) : Prop :=
  exists msg, In msg recent
    /\ (MatchesGreeting (text msg)
        \/ (1 <= String.length (text msg) <= 20)%nat).

(** As the fourth pattern reads: 1 to 20 characters on one line. *)
Definition HasSimpleContent (recent : list string) : Prop :=
  exists msg, In msg recent
    /\ (MatchesGreeting (text msg)
        \/ ((1 <= String.length (text msg) <= 20)%nat
            /\ NoLineTerminator (text msg))).

Definition HasGovernmentContent (recent : list string) : Prop :=
  exists msg k, In msg recent /\ In k Gate.governmentKeywords
                /\ SubstringNoCase k msg.

(** As the claim words it: the messages put end to end. *)
Definition IsDetailedRequest_stated (recent : list string) : Prop :=
  exists w, In w detailWords
    /\ Substring w (String.concat "" (map toLowerCase recent)).

(** As the code joins them: a space between two messages. *)
Definition IsDetailedRequest (recent : list string) : Prop :=
  exists w, In w detailWords
    /\ Substring w (String.concat " " (map toLowerCase recent)).

Definition Insufficient_stated (history : list ChatMessage.t) : Prop :=
  history = []
  \/ exists recent, Selected history recent
       /\ HasSimpleContent_stated recent
       /\ ~ HasGovernmentContent recent
       /\ ~ IsDetailedRequest_stated recent.

Definition Insufficient (history : list ChatMessage.t) : Prop :=
  history = []
  \/ exists recent, Selected history recent
       /\ HasSimpleContent recent
       /\ ~ HasGovernmentContent recent
       /\ ~ IsDetailedRequest recent.

Definition recentUser (history : list ChatMessage.t) : list string :=
  map ChatMessage.content (Gate.sliceLast 3 (List.filter Gate.isUser history)).

Fixpoint underscores (s : string) : nat :=
  match s with
  | EmptyString => 0
  | String c s' => (if Ascii.eqb c "_" then 1 else 0) + underscores s'
  end.

(** Every underscore turned into a space. *)
Fixpoint spaced (action : string) : string :=
  match action with
  | EmptyString => EmptyString
  | String c s =>
      String (if Ascii.eqb c "_" then " "%char else c) (spaced s)
  end.

End GateSpec.

(** ** Well-formed stored data *)

Module Wf.

(** A date that denotes an instant: a time value within the range of
    [TimeClip]. *)
Definition validDate (d : Date) : Prop :=
  match d with
  | TimeValue t => - JsDate.maxTime <= t <= JsDate.maxTime
  | InvalidDate => False
  end.

Definition validMessage (msg : ChatMessage.t) : Prop :=
  validDate (ChatMessage.timestamp msg).

Definition validSession (session : ChatSession.t) : Prop :=
  validDate (ChatSession.createdAt session)
  /\ Forall validMessage (ChatSession.messages session).

(** [new] is [old] with the title replaced when its id is [sessionId],
    and [old] itself otherwise. *)
Definition renamed (sessionId newTitle : string) (old new : ChatSession.t) : Prop :=
  if String.eqb (ChatSession.id old) sessionId
  then ChatSession.id new = ChatSession.id old
       /\ ChatSession.title new = newTitle
       /\ ChatSession.messages new = ChatSession.messages old
       /\ ChatSession.createdAt new = ChatSession.createdAt old
  else new = old.


Definition callText (c : Store.RemoteCall) : string :=
  match c with
  | Store.ChatCall message _ => message
  | Store.ActionCall _ query _ => query
  end.

(** The stored text mirrors the collection. *)
Definition inSync (w : Store.World) : Prop :=
  Store.localStorage w !! Store.storageKey
  = Some (Persist.stringifySessions (Store.chatSessions (Store.ui w))).

Definition messageIds (w : Store.World) : list string :=
  map ChatMessage.id (Store.messages (Store.ui w)).

Definition sessionIds (w : Store.World) : list string :=
  map ChatSession.id (Store.chatSessions (Store.ui w)).

Definition isChatCall (c : Store.RemoteCall) : bool :=
  match c with Store.ChatCall _ _ => true | Store.ActionCall _ _ _ => false end.

(** The chat calls that have not settled yet. *)
Definition pendingSends (w : Store.World) : list Store.RemoteCall :=
  List.filter isChatCall (Store.inflight w).

End Wf.

(** ** Sample runs *)

Module Samples.
Import Store.

Definition at_ (t : Z) : Clock := fun _ => t.

Definition hello : ChatResponse := mkChatResponse "Hello!" 0 None.

(** A first exchange, then a quick action one millisecond after the
    reply arrived. *)
Definition quickActionRun : list Event :=
  [ EInput "hello there"; ESend None (at_ 1000);
    EChatSettled 0 (NetOk hello) (at_ 1005);
    EAction "feasibility" "Hello!" (at_ 1006) ].

(** A first exchange, then the only session is deleted. *)
Definition deleteLastRun : list Event :=
  [ EInput "hi"; ESend None (at_ 1000);
    EChatSettled 0 (NetOk hello) (at_ 1005);
    EDeleteRequest "1000"; EDeleteConfirm ].

(** A quick action on an earlier reply while a send is pending, then
    another send. *)
Definition quickActionWhilePending : list Event :=
  [ EInput "hi"; ESend None (at_ 1000);
    EChatSettled 0 (NetOk hello) (at_ 1005);
    EInput "ok"; ESend None (at_ 2000);
    EAction "feasibility" "Hello!" (at_ 2500) ].

Definition overlappingSendsRun : list Event :=
  quickActionWhilePending ++ [ EInput "yes"; ESend None (at_ 3000) ].


Definition userSays (content : string) : ChatMessage.t :=
  ChatMessage.mk "1" user content (TimeValue 0) None.

Definition botSays (content : string) : ChatMessage.t :=
  ChatMessage.mk "2" assistant content (TimeValue 0) None.

Definition newline : string := String (ascii_of_nat 10) EmptyString.

Definition cited : ChatMessage.t :=
  ChatMessage.mk "1730512346679" assistant
    ("The " +:+ String "034" "PDMA" +:+ String "034" " plan:" +:+ newline
     +:+ "see \contingency\ section")
    (TimeValue 1730512346678)
    (Some [ Citation.mk "1" "Monsoon Contingency Plan" "https://example.org/plan"
                        "Preparedness and response" ]).

Definition storedSessions : list ChatSession.t :=
  [ ChatSession.mk "1730512345678" "flood response in the province..."
      [ ChatMessage.mk "1730512345678" user
          "flood response in the province of Khyber Pakhtunkhwa"
          (TimeValue 1730512345678) None;
        cited ]
      (TimeValue 1730512345678);
    ChatSession.mk "-1" "before the epoch" [] (TimeValue (-62167219200001)) ].

(** A short message of two lines, and a word of the list split over two
    messages. *)
Definition twoLines : list ChatMessage.t := [ userSays ("a" +:+ newline +:+ "b") ].

Definition splitWord : list ChatMessage.t := [ userSays "det"; userSays "ail" ].

Definition greeted : World :=
  mkWorld (mkState [userSays "hi"; botSays "Hello!"] "" false [] None None "" false None)
          ∅ [].

Definition welcomed : World :=
  mkWorld (mkState [botSays "Welcome."] "" false [] None None "" false None) ∅ [].

Definition idleHome (input : string) (sessions : list ChatSession.t) : World :=
  mkWorld (mkState [] input false sessions None None "" false None) ∅ [].

End Samples.

(** ** Reachable states, what the page renders, more sample states *)

Module Reach.
Import JsString Store.

(** Every reading of the clock is an instant in the range of [Date]. *)
Definition clockOk (clk : Clock) : Prop :=
  forall n, - JsDate.maxTime <= clk n <= JsDate.maxTime.

Definition eventOk (e : Event) : Prop :=
  match e with
  | ESend _ clk | EChatSettled _ _ clk | EAction _ _ clk | EActionSettled _ _ clk =>
      clockOk clk
  | _ => True
  end.

Definition validState (s : State) : Prop :=
  Forall Wf.validSession (chatSessions s) /\ Forall Wf.validMessage (messages s).

End Reach.


Module Mirror.
Import JsString Store.

(** The ids of the collection are non-empty strings and the active id,
    if any, is one of them. *)
Definition linked (s : State) : Prop :=
  Forall (fun sessionId => truthy sessionId = true)
         (map ChatSession.id (chatSessions s))
  /\ forall cur, currentSessionId s = Some cur ->
                 In cur (map ChatSession.id (chatSessions s)).

(** While messages are displayed, the sessions with the active id hold
    exactly the displayed messages. *)
Definition mirrored (s : State) : Prop :=
  forall cur, currentSessionId s = Some cur -> messages s <> [] ->
    Forall (fun session => ChatSession.id session = cur ->
                           ChatSession.messages session = messages s)
           (chatSessions s).

End Mirror.

(** ** What the page renders from the state ([ChatBotUi.tsx], lines 288-731) *)

Module Render.
Import JsString Store.

(** The keyboard event, as far as [handleKeyPress] reads it. *)
Record KeyboardEvent : Type := mkKeyboardEvent { key : string; shiftKey : bool }.

(** [handleKeyPress] (lines 233-238); [preventDefault] does not touch
    the state. *)
Definition handleKeyPress (e : KeyboardEvent) (snap : State) : M unit :=
  if String.eqb (key e) "Enter" && negb (shiftKey e)
  then handleSendMessage None snap
  else skip.

(** [disabled] of the send button (line 690). *)
Definition sendDisabled (s : State) : bool :=
  negb (truthy (trim (inputValue s))) || isLoading s.

(** [chatSessions.find(s => s.id === sessionId)?.title] *)
Definition titleOf (sessionId : option string) (l : list ChatSession.t)
    : option string :=
  ChatSession.title
    <$> List.find (fun s => optEqb (Some (ChatSession.id s)) sessionId) l.

(** The title shown above the messages (line 644). *)
Definition headerTitle (s : State) : option string :=
  if truthyOpt (currentSessionId s)
  then titleOf (currentSessionId s) (chatSessions s)
  else None.

End Render.

(** ** The messages the handlers build, by name *)

Module Built.
Import JsString Store.

(** The user message of a send in an active session (lines 99-104). *)
Definition userMessage (text : string) (clk : Clock) : ChatMessage.t :=
  ChatMessage.mk (toString (clk 0%nat)) user text (TimeValue (clk 1%nat)) None.

(** The assistant message made from a settled chat call (lines 112-118). *)
Definition chatReply (response : ChatResponse) (clk : Clock) : ChatMessage.t :=
  ChatMessage.mk (toString (clk 0%nat + 1)) assistant (answer response)
                 (TimeValue (clk 1%nat)) (response_sources response).


(** The collection after the copy effect ran on [msgs] (lines 72-80). *)
Definition copied (cur : option string) (msgs : list ChatMessage.t)
    (sessions : list ChatSession.t) : list ChatSession.t :=
  match cur with
  | Some c => if truthy c && (0 <? length msgs)%nat
              then copyMessages c msgs sessions else sessions
  | None => sessions
  end.

End Built.

(** ** More sample states *)

Module Scenes.
Import Store.

(** A first question sent, its reply not yet there. *)
Definition asked : World :=
  run emptyWorld [ EInput "flood policy"; ESend None (Samples.at_ 1000) ].

(** The reply arrived. *)
Definition answered : World :=
  step asked (EChatSettled 0 (NetOk Samples.hello) (Samples.at_ 1005)).



(** Back on the welcome page, the session kept. *)
Definition home : World := step answered ENewChat.

(** The session of that conversation. *)
Definition firstSession : ChatSession.t :=
  ChatSession.mk "1000" "flood policy"
    [ ChatMessage.mk "1000" user "flood policy" (TimeValue 1000) None;
      ChatMessage.mk "1006" assistant "Hello!" (TimeValue 1005) None ]
    (TimeValue 1000).

End Scenes.

(** ** The remote helpers in full ([lib/gemini.ts]) *)

Module Gemini.
Import JsString Json.

Definition BACKEND_URL : string := "http://localhost:8000".

(** [d.toISOString()]: a [RangeError] on the invalid date. *)
Definition toISOString (d : Date) : option string :=
  match d with
  | TimeValue t => Some (JsDate.toISOString t)
  | InvalidDate => None
  end.

(** One entry of [conversationHistory] (lines 42-46); [None]: the
    callback throws. *)
Definition historyEntry (msg : ChatMessage.t) : option json :=
  iso ← toISOString (ChatMessage.timestamp msg);
  Some (JObj [ ("role", JStr (Persist.roleString (ChatMessage.role msg)));
               ("content", JStr (ChatMessage.content msg));
               ("timestamp", JStr iso) ]).

(** [context ? context.map(...) : []] *)
Definition conversationHistory (context : option (list ChatMessage.t))
    : option (list json) :=
  match context with
  | Some msgs => Persist.mapM historyEntry msgs
  | None => Some []
  end.

(** The body of the POST to [/chat] (lines 53-56). *)
Definition chatBody (message : string) (context : option (list ChatMessage.t))
    : option string :=
  history ← conversationHistory context;
  Some (stringify (JObj [ ("query", JStr message);
                          ("conversation_history", JArr history) ])).

(** [generateResponse] (lines 39-74).  [fetch url body] stands for the
    request and the decoding of its answer; an exception anywhere in the
    [try] block ends in the [catch] block. *)
Definition generateResponse
    (fetch : string -> string -> Store.NetResult Store.ChatResponse)
    (message : string) (context : option (list ChatMessage.t))
    : Store.ChatResponse :=
  match chatBody message context with
  | Some body => Store.generateResponse (fetch (BACKEND_URL +:+ "/chat") body)
  | None => Store.generateResponse Store.NetFail
  end.

(** What a reader of the body finds in an entry of the history: the
    role and the content of the message, and a text that reads back as its
    date. *)
Definition carries (msg : ChatMessage.t) (entry : json) : Prop :=
  exists iso,
    entry = JObj [ ("role", JStr (Persist.roleString (ChatMessage.role msg)));
                   ("content", JStr (ChatMessage.content msg));
                   ("timestamp", JStr iso) ]
    /\ DateParse.parseISO iso = Some (ChatMessage.timestamp msg).

End Gemini.

(** ** The typing animation ([hooks/useTypingEffect.ts]) *)

Module TypingEffect.
Import JsString.

(** The options of the hook; [onComplete] is an optional callback, of
    which only the presence matters here. *)
Record Options : Type := mkOptions {
  text : string;
  speed : Z;
  startDelay : Z;
  onComplete : bool
}.

(** A pending [setTimeout]: the closure it will run, with the variables
    the closure captured. *)
Inductive Timer : Type :=
| StartTyping (o : Options)
| TypeNextCharacter (o : Options) (currentIndex : nat).

(** The three state cells, the timeouts not fired yet (with their
    delays) and the number of calls of [onComplete] so far. *)
Record Hook : Type := mkHook {
  displayedText : string;
  isTyping : bool;
  isComplete : bool;
  timers : list (Z * Timer);
  completions : nat
}.

Definition initial : Hook := mkHook "" false false [] 0.

(** [typeNextCharacter] (lines 34-44) *)
Definition typeNextCharacter (o : Options) (currentIndex : nat) (h : Hook) : Hook :=
  if (currentIndex <? String.length (text o))%nat then
    mkHook (slice0 (currentIndex + 1) (text o)) (isTyping h) (isComplete h)
           (timers h ++ [(speed o, TypeNextCharacter o (currentIndex + 1))])
           (completions h)
  else
    mkHook (displayedText h) false true (timers h)
           (if onComplete o then S (completions h) else completions h).

(** [startTyping] (lines 31-47) *)
Definition startTyping (o : Options) (h : Hook) : Hook := typeNextCharacter o 0 h.

(** The effect (lines 20-58), run after the first render and after a
    render with changed options. *)
Definition effect (o : Options) (h : Hook) : Hook :=
  if negb (truthy (text o)) then
    mkHook "" (isTyping h) true (timers h) (completions h)
  else
    let h1 := mkHook "" true false (timers h) (completions h) in
    if 0 <? startDelay o
    then mkHook (displayedText h1) (isTyping h1) (isComplete h1)
                (timers h1 ++ [(startDelay o, StartTyping o)]) (completions h1)
    else startTyping o h1.

(** The cleanup the effect returns when the text is not empty
    (lines 55-57): the timeouts are not cleared. *)
Definition cleanup (o : Options) (h : Hook) : Hook :=
  if negb (truthy (text o)) then h
  else mkHook (displayedText h) false (isComplete h) (timers h) (completions h).

Definition mount (o : Options) : Hook := effect o initial.

(** A render with new options. *)
Definition update (old new : Options) (h : Hook) : Hook :=
  effect new (cleanup old h).

(** The [k]-th pending timeout fires. *)
Definition fire (k : nat) (h : Hook) : Hook :=
  match timers h !! k with
  | Some (_, t) =>
      let h' := mkHook (displayedText h) (isTyping h) (isComplete h)
                       (take k (timers h) ++ drop (S k) (timers h))
                       (completions h) in
      match t with
      | StartTyping o => startTyping o h'
      | TypeNextCharacter o currentIndex => typeNextCharacter o currentIndex h'
      end
  | None => h
  end.

(** The state after [n] firings of the oldest pending timeout. *)
Definition ticks (n : nat) (h : Hook) : Hook := Nat.iter n (fire 0) h.

End TypingEffect.

(** ** Markdown clean-up of a message ([components/ui/chat-message.tsx]) *)

Module Markdown.
Import JsString.

(** The regular expressions of [cleanMarkdownContent], with capture
    groups; [Bol] and [Eol] are the anchors under the [m] flag. *)
Inductive re : Type :=
| Bol
| Eol
| Cls (p : ascii -> bool)
| Cat (r1 r2 : re)
| Grp (n : nat) (r : re)
| Rep (r : re) (lo : nat) (hi : option nat).   (* r{lo,hi} and r{lo,}, greedy *)

Definition Captures : Type := list (nat * string).

(** Backtracking matcher in continuation-passing style.  [prev] is the
    code unit before the current position, [s] the rest of the input; the
    first result in priority order is the match.  An unbounded repetition
    of a pattern that reads at least one code unit makes at most
    [length s] rounds. *)
Fixpoint mt {R : Type} (r : re) (prev : option ascii) (s : string)
    (caps : Captures) (k : option ascii -> string -> Captures -> option R)
    {struct r} : option R :=
  match r with
  | Bol =>
      match prev with
      | None => k prev s caps
      | Some c => if isLineTerminator c then k prev s caps else None
      end
  | Eol =>
      match s with
      | EmptyString => k prev s caps
      | String c _ => if isLineTerminator c then k prev s caps else None
      end
  | Cls p =>
      match s with
      | String c s' => if p c then k (Some c) s' caps else None
      | EmptyString => None
      end
  | Cat r1 r2 => mt r1 prev s caps (fun p' s' c' => mt r2 p' s' c' k)
  | Grp n r0 =>
      mt r0 prev s caps
         (fun p' s' c' =>
            k p' s' ((n, slice0 (String.length s - String.length s') s) :: c'))
  | Rep r0 lo hi =>
      (fix rep (rounds lo : nat) (prev : option ascii) (s : string)
           (caps : Captures) : option R :=
         match rounds with
         | O => match lo with O => k prev s caps | S _ => None end
         | S rounds' =>
             match mt r0 prev s caps
                      (fun p' s' c' => rep rounds' (Nat.pred lo) p' s' c') with
             | Some x => Some x
             | None => match lo with O => k prev s caps | S _ => None end
             end
         end)
        (match hi with Some h => h | None => String.length s end) lo prev s caps
  end.

(** A replacement text: literal parts and references [$n]. *)
Inductive piece : Type :=
| Lit (s : string)
| Ref (n : nat).

Fixpoint captured (n : nat) (caps : Captures) : string :=
  match caps with
  | [] => EmptyString
  | (i, x) :: caps' => if (i =? n)%nat then x else captured n caps'
  end.

Fixpoint expand (tmpl : list piece) (caps : Captures) : string :=
  match tmpl with
  | [] => EmptyString
  | Lit x :: tmpl' => x +:+ expand tmpl' caps
  | Ref n :: tmpl' => captured n caps +:+ expand tmpl' caps
  end.

(** [s.replace(re, tmpl)] under the [g] flag: the matches are taken from
    left to right, each search starting where the last match ended (one
    code unit further after an empty match). *)
Fixpoint replaceFrom (fuel : nat) (r : re) (tmpl : list piece)
    (prev : option ascii) (s : string) : string :=
  match fuel with
  | O => s
  | S fuel' =>
      match mt r prev s [] (fun p' s' c' => Some (p', s', c')) with
      | Some (p', s', caps) =>
          if (String.length s' <? String.length s)%nat
          then expand tmpl caps +:+ replaceFrom fuel' r tmpl p' s'
          else expand tmpl caps
               +:+ match s with
                   | EmptyString => EmptyString
                   | String c s'' => String c (replaceFrom fuel' r tmpl (Some c) s'')
                   end
      | None =>
          match s with
          | EmptyString => EmptyString
          | String c s'' => String c (replaceFrom fuel' r tmpl (Some c) s'')
          end
      end
  end.

Definition replaceAll (r : re) (tmpl : list piece) (s : string) : string :=
  replaceFrom (S (String.length s)) r tmpl None s.

Definition isHash (c : ascii) : bool := Ascii.eqb c "#".
Definition isNewline (c : ascii) : bool := (code c =? 10)%nat.
Definition notNewline (c : ascii) : bool := negb (isNewline c).
Definition notLineTerminator (c : ascii) : bool := negb (isLineTerminator c).

Definition newline : string := String (ascii_of_nat 10) EmptyString.

(** [/^(#{1,6})\s{2,}(.+)$/gm] *)
Definition spacedHeader : re :=
  Cat Bol (Cat (Grp 1%nat (Rep (Cls isHash) 1%nat (Some 6%nat)))
               (Cat (Rep (Cls isWhite) 2%nat None)
                    (Cat (Grp 2%nat (Rep (Cls notLineTerminator) 1%nat None)) Eol))).

(** [/([^\n])(\n)(#{1,6}\s)/g] *)
Definition headerAfterLine : re :=
  Cat (Grp 1%nat (Cls notNewline))
      (Cat (Grp 2%nat (Cls isNewline))
           (Grp 3%nat (Cat (Rep (Cls isHash) 1%nat (Some 6%nat)) (Cls isWhite)))).

(** [/\n{3,}/g] *)
Definition blankLines : re := Rep (Cls isNewline) 3%nat None.

(** [cleanMarkdownContent] (lines 28-37) *)
Definition cleanMarkdownContent (content : string) : string :=
  trim (replaceAll blankLines [Lit (newline +:+ newline)]
          (replaceAll headerAfterLine [Ref 1%nat; Lit (newline +:+ newline); Ref 3%nat]
             (replaceAll spacedHeader [Ref 1%nat; Lit " "; Ref 2%nat] content))).

(** Three line feeds in a row: what the last replacement removes. *)
Definition blankRun : string := newline +:+ newline +:+ newline.

(** The number of line feeds [s] begins with, and [s] without them. *)
Fixpoint lead (s : string) : nat :=
  match s with
  | String c s' => if isNewline c then S (lead s') else O
  | EmptyString => O
  end.

Fixpoint dropLead (s : string) : string :=
  match s with
  | String c s' => if isNewline c then dropLead s' else s
  | EmptyString => EmptyString
  end.

(** No number sign in [s]. *)
Fixpoint noHash (s : string) : bool :=
  match s with
  | String c s' => negb (isHash c) && noHash s'
  | EmptyString => true
  end.

End Markdown.

(** * Part II: lemmas and theorems *)

Module JsStringFacts.
Import JsString.

Lemma sapp_cons (x : ascii) (a b : string) :
  String x a +:+ b = String x (a +:+ b).
Proof. reflexivity. Qed.

Lemma sapp_nil_l (a : string) : "" +:+ a = a.
Proof. reflexivity. Qed.

Ltac sapp := rewrite ?sapp_cons, ?sapp_nil_l in *.
Ltac ssimpl := repeat (progress (simpl in *; rewrite ?sapp_cons, ?sapp_nil_l in * )).

Lemma sapp_assoc (a b c : string) : (a +:+ b) +:+ c = a +:+ b +:+ c.
Proof. induction a as [|x a IH]; ssimpl; [reflexivity | f_equal; exact IH]. Qed.


Lemma slength_app (a b : string) :
  String.length (a +:+ b) = (String.length a + String.length b)%nat.
Proof. induction a as [|x a IH]; ssimpl; [reflexivity | f_equal; exact IH]. Qed.

Lemma startsWith_spec (p s : string) :
  startsWith p s = true <-> exists rest, s = p +:+ rest.
Proof.
  revert s. induction p as [|a p IH]; intros s; simpl.
  - split; [intros _; now exists s | reflexivity].
  - destruct s as [|b s].
    + split; [discriminate | intros [rest H]; discriminate].
    + destruct (Ascii.eqb_spec a b) as [->|Hne].
      * rewrite IH. split; intros [rest H]; exists rest; sapp; congruence.
      * split; [discriminate | intros [rest H]; sapp; congruence].
Qed.

Lemma startsWith_app (p rest : string) : startsWith p (p +:+ rest) = true.
Proof. apply startsWith_spec. now exists rest. Qed.

Lemma dropChars_app (p rest : string) :
  dropChars (String.length p) (p +:+ rest) = rest.
Proof. induction p as [|a p IH]; sapp; simpl; [now destruct rest | exact IH]. Qed.

Lemma includes_spec (s k : string) :
  includes s k = true <-> Substring k s.
Proof.
  unfold Substring. induction s as [|c s IH]; simpl.
  - rewrite orb_false_r, startsWith_spec. split.
    + intros [rest H]. now exists ""%string, rest.
    + intros (pre & post & H). destruct pre; [now exists post | discriminate].
  - rewrite orb_true_iff, startsWith_spec, IH. split.
    + intros [[rest H] | (pre & post & H)].
      * now exists ""%string, rest.
      * exists (String c pre), post. sapp. now rewrite H.
    + intros (pre & post & H). destruct pre as [|a pre]; sapp.
      * left. now exists post.
      * right. exists pre, post. congruence.
Qed.

Lemma includes_false (s k : string) :
  includes s k = false <-> ~ Substring k s.
Proof.
  rewrite <- includes_spec. destruct (includes s k); split; congruence.
Qed.

Lemma toLowerCase_app (a b : string) :
  toLowerCase (a +:+ b) = toLowerCase a +:+ toLowerCase b.
Proof. induction a as [|x a IH]; ssimpl; [reflexivity | f_equal; exact IH]. Qed.

Lemma toLowerCase_length (a : string) :
  String.length (toLowerCase a) = String.length a.
Proof. induction a as [|x a IH]; ssimpl; [reflexivity | f_equal; exact IH]. Qed.

(** A decomposition of the lowered text comes from one of the text. *)
Lemma toLowerCase_split (s x y : string) :
  toLowerCase s = x +:+ y ->
  exists a b, s = a +:+ b /\ toLowerCase a = x /\ toLowerCase b = y.
Proof.
  revert x. induction s as [|c s IH]; intros x H; simpl in H.
  - destruct x; sapp; [|discriminate]. subst y.
    now exists ""%string, ""%string.
  - destruct x as [|c' x]; sapp.
    + exists ""%string, (String c s). now subst y.
    + injection H as Hc Hs. destruct (IH _ Hs) as (a & b & -> & Ha & Hb).
      exists (String c a), b. sapp. simpl. now rewrite Ha, Hc, Hb.
Qed.

Lemma includes_lower_spec (s k : string) :
  includes (toLowerCase s) k = true <-> GateSpec.SubstringNoCase k s.
Proof.
  rewrite includes_spec. unfold Substring, GateSpec.SubstringNoCase. split.
  - intros (pre & post & H).
    destruct (toLowerCase_split _ _ _ H) as (a & b & -> & Ha & Hb).
    destruct (toLowerCase_split _ _ _ Hb) as (c & d & -> & Hc & Hd).
    now exists a, c, d.
  - intros (pre & mid & post & -> & Hk).
    exists (toLowerCase pre), (toLowerCase post).
    now rewrite !toLowerCase_app, Hk.
Qed.

Lemma join_concat (sep : string) (l : list string) :
  join sep l = String.concat sep l.
Proof.
  induction l as [|x l IH]; [reflexivity|].
  destruct l as [|y l]; [reflexivity|].
  change (join sep (x :: y :: l)) with (x +:+ sep +:+ join sep (y :: l)).
  now rewrite IH.
Qed.

End JsStringFacts.

Module RegexFacts.
Import JsString Regex JsStringFacts.

Lemma m_lit (w : string) : forall prev s k,
  m (lit w) prev s k = true
  <-> exists rest, s = w +:+ rest /\ k (lastOr prev w) rest = true.
Proof.
  induction w as [|c w IH]; intros prev s k; simpl.
  - split; [intros H; now exists s | intros (rest & -> & H); exact H].
  - destruct s as [|a s].
    + split; [discriminate | intros (rest & H & _); discriminate].
    + destruct (Ascii.eqb_spec c a) as [->|Hne].
      * rewrite IH. split; intros (rest & H & Hk); exists rest; sapp;
          split; congruence.
      * split; [discriminate | intros (rest & H & _); sapp; congruence].
Qed.

Lemma m_alts (ws : list string) : forall prev s k,
  m (alts ws) prev s k = true
  <-> exists w, In w ws
        /\ exists rest, s = w +:+ rest /\ k (lastOr prev w) rest = true.
Proof.
  induction ws as [|w ws IH]; intros prev s k.
  - simpl. split; [discriminate | intros (w & [] & _)].
  - destruct ws as [|w' ws].
    + change (alts [w]) with (lit w). rewrite m_lit. split.
      * intros H. exists w. split; [now left | exact H].
      * intros (w0 & [<- | []] & H). exact H.
    + change (alts (w :: w' :: ws)) with (Alt (lit w) (alts (w' :: ws))).
      change (m (Alt (lit w) (alts (w' :: ws))) prev s k)
        with (m (lit w) prev s k || m (alts (w' :: ws)) prev s k).
      rewrite orb_true_iff, m_lit, IH. split.
      * intros [H | (w0 & Hin & H)].
        -- exists w. split; [now left | exact H].
        -- exists w0. split; [now right | exact H].
      * intros (w0 & [<- | Hin] & H); [now left | right; now exists w0].
Qed.

Lemma searchFrom_bol (r : regex) (s : string) : forall c,
  searchFrom (Seq Bol r) (Some c) s = false.
Proof. induction s as [|a s IH]; intros c; simpl; [reflexivity | apply IH]. Qed.

Lemma test_bol (r : regex) (s : string) :
  test (Seq Bol r) s = m r None s (fun _ _ => true).
Proof.
  unfold test. destruct s as [|a s]; simpl.
  - now rewrite orb_false_r.
  - now rewrite searchFrom_bol, orb_false_r.
Qed.

(** [^(w1|...|wn)\b] when every word ends in a word character. *)
Lemma test_words (ws : list string) (s : string) :
  Forall (fun w => wordBefore (lastOr None w) = true) ws ->
  test (Seq Bol (Seq (alts ws) WordB)) s = true
  <-> exists w, In w ws /\ GateSpec.BeginsWithWord w s.
Proof.
  intros Hws. rewrite test_bol.
  change (m (Seq (alts ws) WordB) None s (fun _ _ => true))
    with (m (alts ws) None s (fun p' s' => m WordB p' s' (fun _ _ => true))).
  rewrite m_alts. rewrite List.Forall_forall in Hws.
  split; intros (w & Hin & rest & -> & H); exists w; (split; [exact Hin|]);
    exists rest; (split; [reflexivity|]); simpl in *; rewrite (Hws w Hin) in *;
    destruct (wordAfter rest); simpl in *; congruence.
Qed.

Lemma m_rep_step (r : regex) (lo hi : nat) prev s k :
  m (Rep r lo (S hi)) prev s k
  = m r prev s (fun p' s' => m (Rep r (Nat.pred lo) hi) p' s' k)
    || match lo with O => k prev s | S _ => false end.
Proof. reflexivity. Qed.

Lemma m_rep_zero (r : regex) (lo : nat) prev s k :
  m (Rep r lo 0) prev s k = match lo with O => k prev s | S _ => false end.
Proof. reflexivity. Qed.

Lemma oneLine_spec (s : string) :
  oneLine s = true <-> GateSpec.NoLineTerminator s.
Proof.
  unfold GateSpec.NoLineTerminator. induction s as [|c s IH]; simpl.
  - split; [|reflexivity]. intros _ pre a post H.
    destruct pre; sapp; discriminate.
  - rewrite andb_true_iff, negb_true_iff, IH. split.
    + intros [Hc Hs] pre a post H. destruct pre as [|b pre]; sapp.
      * congruence.
      * injection H as -> H. now apply (Hs pre a post).
    + intros H. split.
      * now apply (H ""%string c s).
      * intros pre a post ->. now apply (H (String c pre) a post).
Qed.

(** [.{lo,hi}$] *)
Lemma m_rep_dot_eol (hi : nat) : forall lo prev s,
  m (Rep Dot lo hi) prev s (fun p' s' => m Eol p' s' (fun _ _ => true)) = true
  <-> (lo <= String.length s <= hi)%nat /\ oneLine s = true.
Proof.
  induction hi as [|hi IH]; intros lo prev s.
  - rewrite m_rep_zero. destruct lo, s; simpl; split; try discriminate;
      try (intros [[? ?] ?]; lia); try (intros _; split; [lia | reflexivity]).
  - rewrite m_rep_step, orb_true_iff. destruct s as [|c s].
    + simpl. destruct lo; split; try (intros [|]; discriminate);
        try (intros [[? ?] ?]; lia); intros _; split; [simpl; lia | reflexivity].
    + change (m Dot prev (String c s)
                (fun p' s' => m (Rep Dot (Nat.pred lo) hi) p' s'
                                (fun p'0 s'0 => m Eol p'0 s'0 (fun _ _ => true))))
        with (if isLineTerminator c then false
              else m (Rep Dot (Nat.pred lo) hi) (Some c) s
                     (fun p' s' => m Eol p' s' (fun _ _ => true))).
      simpl oneLine. simpl String.length.
      destruct (isLineTerminator c); cbn [negb andb].
      * destruct lo; split; try (intros [|]; discriminate);
          intros [_ ?]; discriminate.
      * rewrite IH. destruct lo; simpl; split.
        -- intros [[H1 H2] | H]; [split; [lia | exact H2] | discriminate].
        -- intros [H1 H2]. left. split; [lia | exact H2].
        -- intros [[H1 H2] | H]; [split; [lia | exact H2] | discriminate].
        -- intros [H1 H2]. left. split; [lia | exact H2].
Qed.

Lemma test_short (s : string) :
  test (Seq Bol (Seq (Rep Dot 1 20) Eol)) s = true
  <-> (1 <= String.length s <= 20)%nat /\ GateSpec.NoLineTerminator s.
Proof.
  rewrite test_bol, <- oneLine_spec.
  change (m (Seq (Rep Dot 1 20) Eol) None s (fun _ _ => true))
    with (m (Rep Dot 1 20) None s (fun p' s' => m Eol p' s' (fun _ _ => true))).
  apply m_rep_dot_eol.
Qed.

End RegexFacts.

Module GateFacts.
Import JsString Regex JsStringFacts RegexFacts Gate GateSpec.

Lemma simplePatterns_spec (s : string) :
  existsb (fun pattern => test pattern s) simplePatterns = true
  <-> MatchesGreeting s
      \/ ((1 <= String.length s <= 20)%nat /\ NoLineTerminator s).
Proof.
  unfold simplePatterns, MatchesGreeting.
  cbn [existsb]. rewrite !orb_true_iff, test_short.
  rewrite !test_words by (repeat constructor).
  change greetingWords
    with (["hi"; "hello"; "hey"; "good morning"; "good afternoon"; "good evening"]
          ++ ["how are you"; "what's up"; "what are you"; "who are you"]
          ++ ["thanks"; "thank you"; "ok"; "okay"; "yes"; "no"]).
  split.
  - intros [(w & Hin & H) | [(w & Hin & H) | [(w & Hin & H) | [H | H]]]];
      try discriminate; try (right; exact H);
      left; exists w; (split; [|exact H]); rewrite !in_app_iff; tauto.
  - intros [(w & Hin & H) | H]; [|tauto].
    rewrite !in_app_iff in Hin.
    destruct Hin as [Hin | [Hin | Hin]]; [left | right; left | right; right; left];
      now exists w.
Qed.

Lemma sliceLast_app {A} (n : nat) (l older latest : list A) :
  l = older ++ latest -> length latest = Nat.min n (length l) ->
  sliceLast n l = latest.
Proof.
  intros -> Hlen. unfold sliceLast. rewrite length_app in *.
  replace (length older + length latest - n)%nat with (length older) by lia.
  now rewrite drop_app_length.
Qed.

Lemma sliceLast_split {A} (n : nat) (l : list A) :
  l = take (length l - n) l ++ sliceLast n l
  /\ length (sliceLast n l) = Nat.min n (length l).
Proof.
  unfold sliceLast. rewrite take_drop, length_drop. split; [reflexivity | lia].
Qed.

Lemma Selected_iff (history : list ChatMessage.t) (recent : list string) :
  Selected history recent <-> recent = recentUser history.
Proof.
  unfold Selected, recentUser. split.
  - intros (older & latest & Happ & Hlen & ->).
    now rewrite (sliceLast_app 3 _ older latest Happ Hlen).
  - intros ->. destruct (sliceLast_split 3 (List.filter isUser history)) as [H1 H2].
    eexists _, _. split; [exact H1 | split; [exact H2 | reflexivity]].
Qed.

Lemma userMessageTexts_recent (history : list ChatMessage.t) :
  userMessageTexts history = map toLowerCase (recentUser history).
Proof. unfold userMessageTexts, recentUser. now rewrite map_map. Qed.

Lemma hasSimpleContent_spec (history : list ChatMessage.t) :
  hasSimpleContent history = true <-> HasSimpleContent (recentUser history).
Proof.
  unfold hasSimpleContent, HasSimpleContent, text.
  rewrite userMessageTexts_recent, existsb_exists. split.
  - intros (x & Hin & H). apply in_map_iff in Hin as (msg & <- & Hin).
    exists msg. split; [exact Hin | now apply simplePatterns_spec].
  - intros (msg & Hin & H). exists (toLowerCase msg).
    split; [now apply in_map | now apply simplePatterns_spec].
Qed.

Lemma hasGovernmentContent_spec (history : list ChatMessage.t) :
  hasGovernmentContent history = true
  <-> HasGovernmentContent (recentUser history).
Proof.
  unfold hasGovernmentContent, HasGovernmentContent.
  rewrite userMessageTexts_recent, existsb_exists. split.
  - intros (x & Hin & H). apply in_map_iff in Hin as (msg & <- & Hin).
    apply existsb_exists in H as (k & Hk & H).
    exists msg, k. repeat split; try assumption. now apply includes_lower_spec.
  - intros (msg & k & Hin & Hk & H). exists (toLowerCase msg).
    split; [now apply in_map|]. apply existsb_exists. exists k.
    split; [exact Hk | now apply includes_lower_spec].
Qed.

Lemma isDetailedRequest_spec (history : list ChatMessage.t) :
  isDetailedRequest history = true <-> IsDetailedRequest (recentUser history).
Proof.
  unfold isDetailedRequest, IsDetailedRequest, detailWords.
  rewrite userMessageTexts_recent, join_concat, !orb_true_iff, !includes_spec.
  cbn [In]. split.
  - intros H. decompose [or] H; eexists; (split; [|eassumption]); tauto.
  - intros (w & Hin & H). decompose [or] Hin; subst; tauto.
Qed.

Lemma isSimpleChat_iff (history : list ChatMessage.t) :
  isSimpleChat history = true <-> Insufficient history.
Proof.
  unfold Insufficient. destruct history as [|msg history].
  - split; [now left | reflexivity].
  - set (h := msg :: history).
    change (isSimpleChat h)
      with (hasSimpleContent h && negb (hasGovernmentContent h)
            && negb (isDetailedRequest h)).
    rewrite !andb_true_iff, !negb_true_iff, hasSimpleContent_spec.
    rewrite <- !not_true_iff_false, hasGovernmentContent_spec, isDetailedRequest_spec.
    split.
    + intros [[H1 H2] H3]. right. exists (recentUser h).
      split; [now apply Selected_iff | tauto].
    + intros [H | (recent & Hsel & H1 & H2 & H3)]; [discriminate|].
      apply Selected_iff in Hsel. subst recent. tauto.
Qed.

End GateFacts.

Module DateFacts.
Import JsDate DateParse JsStringFacts.

Ltac divs := Z.div_mod_to_equations; lia.

Lemma digitVal_digitChar (d : Z) :
  0 <= d <= 9 -> digitVal (digitChar d) = Some d.
Proof.
  intros H.
  assert (Hd : d = 0 \/ d = 1 \/ d = 2 \/ d = 3 \/ d = 4 \/ d = 5 \/ d = 6
               \/ d = 7 \/ d = 8 \/ d = 9) by lia.
  decompose [or] Hd; subst; reflexivity.
Qed.

Lemma readDigits_padAcc (k : nat) : forall (j : nat) (n : Z) (rest : string) (acc : Z),
  0 <= n < 10 ^ Z.of_nat k ->
  readDigits (k + j) (padAcc k n rest) acc
  = readDigits j rest (acc * 10 ^ Z.of_nat k + n).
Proof.
  induction k as [|k IH]; intros j n rest acc Hn.
  - simpl in *. f_equal. lia.
  - cbn [padAcc]. replace (S k + j)%nat with (k + S j)%nat by lia.
    rewrite Nat2Z.inj_succ, Z.pow_succ_r in Hn by lia.
    rewrite IH by divs.
    cbn [readDigits]. rewrite digitVal_digitChar by divs.
    f_equal. rewrite Nat2Z.inj_succ, Z.pow_succ_r by lia. divs.
Qed.

Lemma readDigits_pad (k : nat) (n : Z) (rest : string) :
  0 <= n < 10 ^ Z.of_nat k ->
  readDigits k (padAcc k n rest) 0 = Some (n, rest).
Proof.
  intros H. replace k with (k + 0)%nat at 1 by lia.
  rewrite readDigits_padAcc by exact H. cbn [readDigits]. f_equal.
Qed.

(** [yearFromDay] is the year of the day. *)
Lemma yearFromDay_spec (d : Z) :
  DayFromYear (yearFromDay d) <= d < DayFromYear (yearFromDay d + 1).
Proof.
  unfold yearFromDay. cbv zeta.
  set (y0 := 1970 + d * 400 / 146097).
  assert (H0 : DayFromYear (y0 - 1) <= d < DayFromYear (y0 + 2)).
  { unfold DayFromYear, y0. divs. }
  destruct (Z.leb_spec (DayFromYear (y0 + 1)) d) as [H1|H1].
  - replace (y0 + 1 + 1) with (y0 + 2) by lia. lia.
  - destruct (Z.ltb_spec d (DayFromYear y0)) as [H2|H2].
    + replace (y0 - 1 + 1) with y0 by lia. lia.
    + lia.
Qed.

Lemma DayFromYear_succ (y : Z) :
  DayFromYear (y + 1) = DayFromYear y + DaysInYear y.
Proof.
  unfold DaysInYear, isLeap, DayFromYear.
  destruct (Z.eqb_spec (y mod 4) 0) as [H4|H4];
    destruct (Z.eqb_spec (y mod 100) 0) as [H100|H100];
    destruct (Z.eqb_spec (y mod 400) 0) as [H400|H400];
    cbn [andb orb negb]; divs.
Qed.

Lemma year_range (d : Z) :
  - 100000000 <= d <= 100000000 ->
  - 271821 <= yearFromDay d <= 275760.
Proof.
  intros H. pose proof (yearFromDay_spec d) as Hy.
  unfold DayFromYear in Hy. divs.
Qed.

Ltac decide_ltb :=
  repeat match goal with
         | |- context [?a <? ?b] =>
             first [ replace (a <? b) with true by (symmetry; apply Z.ltb_lt; lia)
                   | replace (a <? b) with false by (symmetry; apply Z.ltb_ge; lia) ]
         end.

Lemma month_spec (leap : bool) (dy : Z) :
  0 <= dy < (if leap then 366 else 365) ->
  let mo := monthFromDayInYear leap dy in
  0 <= mo <= 11
  /\ daysBeforeMonth leap mo <= dy < daysBeforeMonth leap (mo + 1).
Proof.
  intros H. unfold monthFromDayInYear.
  set (l := if leap then 1 else 0).
  assert (Hl : (if leap then 366 else 365) = 365 + l) by (now destruct leap).
  assert (Hl' : 0 <= l <= 1) by (unfold l; destruct leap; lia).
  rewrite Hl in H.
  assert (Hb : forall k, daysBeforeMonth leap k =
     if k <=? 0 then 0 else if k =? 1 then 31 else if k =? 2 then 59 + l
     else if k =? 3 then 90 + l else if k =? 4 then 120 + l
     else if k =? 5 then 151 + l else if k =? 6 then 181 + l
     else if k =? 7 then 212 + l else if k =? 8 then 243 + l
     else if k =? 9 then 273 + l else if k =? 10 then 304 + l
     else if k =? 11 then 334 + l else 365 + l) by reflexivity.
  assert (Hc : dy < 31 \/ 31 <= dy < 59 + l \/ 59 + l <= dy < 90 + l
               \/ 90 + l <= dy < 120 + l \/ 120 + l <= dy < 151 + l
               \/ 151 + l <= dy < 181 + l \/ 181 + l <= dy < 212 + l
               \/ 212 + l <= dy < 243 + l \/ 243 + l <= dy < 273 + l
               \/ 273 + l <= dy < 304 + l \/ 304 + l <= dy < 334 + l
               \/ 334 + l <= dy) by lia.
  rewrite !Hb. cbn [Z.leb Z.eqb Z.compare Pos.compare Pos.compare_cont Pos.eqb].
  clearbody l. clear Hb Hl.
  decompose [or] Hc; clear Hc; decide_ltb; cbv zeta;
    repeat match goal with
           | |- context [Z.add ?a 1] =>
               lazymatch a with
               | Z0 => idtac | Zpos _ => idtac
               end;
               let v := eval vm_compute in (Z.add a 1) in
               change (Z.add a 1) with v
           end; cbn; lia.
Qed.

Lemma daysBeforeMonth_bounds (leap : bool) (mo : Z) :
  0 <= mo <= 11 ->
  28 <= daysBeforeMonth leap (mo + 1) - daysBeforeMonth leap mo <= 31.
Proof.
  intros H.
  assert (Hm : mo = 0 \/ mo = 1 \/ mo = 2 \/ mo = 3 \/ mo = 4 \/ mo = 5 \/ mo = 6
               \/ mo = 7 \/ mo = 8 \/ mo = 9 \/ mo = 10 \/ mo = 11) by lia.
  destruct leap; decompose [or] Hm; subst; vm_compute; split; discriminate.
Qed.

(** The fields [toISOString] prints, for a time value in range. *)
Lemma fields_spec (t : Z) :
  - maxTime <= t <= maxTime ->
  let y := YearFromTime t in
  let mo := MonthFromTime t in
  let d := DateFromTime t in
  - 271821 <= y <= 275760
  /\ 0 <= mo <= 11
  /\ 1 <= d <= daysInMonth y mo
  /\ d <= 31
  /\ 0 <= HourFromTime t <= 23 /\ 0 <= MinFromTime t <= 59
  /\ 0 <= SecFromTime t <= 59 /\ 0 <= msFromTime t <= 999
  /\ MakeDate (MakeDay y mo d)
              (MakeTime (HourFromTime t) (MinFromTime t) (SecFromTime t)
                        (msFromTime t)) = t.
Proof.
  intros Ht. cbv zeta.
  unfold DateFromTime, MonthFromTime, DayWithinYear, YearFromTime.
  set (day := Day t).
  assert (Hday : - 100000000 <= day <= 100000000).
  { unfold day, Day, msPerDay, maxTime in *. divs. }
  pose proof (year_range day Hday) as Hy.
  pose proof (yearFromDay_spec day) as Hspec.
  rewrite DayFromYear_succ in Hspec. unfold DaysInYear in Hspec.
  set (y := yearFromDay day) in *.
  set (dy := day - DayFromYear y) in *.
  assert (Hdy : 0 <= dy < (if isLeap y then 366 else 365)).
  { unfold dy. destruct (isLeap y); lia. }
  pose proof (month_spec (isLeap y) dy Hdy) as Hmo. cbv zeta in Hmo.
  set (mo := monthFromDayInYear (isLeap y) dy) in *.
  pose proof (daysBeforeMonth_bounds (isLeap y) mo (proj1 Hmo)) as Hlen.
  unfold daysInMonth, MakeDate, MakeDay, MakeTime,
    HourFromTime, MinFromTime, SecFromTime, msFromTime, TimeWithinDay.
  assert (Htw : 0 <= t mod msPerDay < msPerDay) by (unfold msPerDay; divs).
  set (tw := t mod msPerDay) in *.
  assert (Ht' : t = day * msPerDay + tw).
  { unfold day, tw, Day, msPerDay. divs. }
  unfold msPerDay in *.
  repeat split; try lia; divs.
Qed.

End DateFacts.

Module IsoFacts.
Import JsDate DateParse JsStringFacts DateFacts.

Lemma digitChar_not_sign (d : Z) :
  0 <= d <= 9 ->
  Ascii.eqb (digitChar d) "+" = false /\ Ascii.eqb (digitChar d) "-" = false.
Proof.
  intros H.
  assert (Hd : d = 0 \/ d = 1 \/ d = 2 \/ d = 3 \/ d = 4 \/ d = 5 \/ d = 6
               \/ d = 7 \/ d = 8 \/ d = 9) by lia.
  decompose [or] Hd; subst; split; reflexivity.
Qed.

Lemma padAcc_head (k : nat) : forall (n : Z) (acc : string),
  exists d tail, 0 <= d <= 9 /\ padAcc (S k) n acc = String (digitChar d) tail.
Proof.
  induction k as [|k IH]; intros n acc.
  - exists (n mod 10), acc. split; [divs | reflexivity].
  - destruct (IH (n / 10) (String (digitChar (n mod 10)) acc)) as (d & tail & Hd & E).
    exists d, tail. split; [exact Hd | exact E].
Qed.

Lemma expectChar_same (c : ascii) (r : string) :
  expectChar c (String c r) = Some r.
Proof. unfold expectChar. now rewrite Ascii.eqb_refl. Qed.

Lemma readYear_isoYear (y : Z) (rest : string) :
  - 271821 <= y <= 275760 ->
  readYear (isoYear y rest) = Some (y, true, rest).
Proof.
  intros Hy. unfold isoYear.
  destruct ((0 <=? y) && (y <=? 9999)) eqn:E.
  - apply andb_true_iff in E as [E1 E2].
    apply Z.leb_le in E1. apply Z.leb_le in E2.
    destruct (padAcc_head 3 y rest) as (d & tail & Hd & Hp).
    destruct (digitChar_not_sign d Hd) as [Hplus Hminus].
    unfold readYear. rewrite Hp, Hplus, Hminus, <- Hp.
    rewrite readDigits_pad by (change (10 ^ Z.of_nat 4) with 10000; lia).
    reflexivity.
  - assert (Hout : y < 0 \/ 9999 < y).
    { apply andb_false_iff in E as [E|E];
        [apply Z.leb_gt in E | apply Z.leb_gt in E]; lia. }
    unfold readYear. destruct (Z.ltb_spec y 0) as [Hneg|Hpos].
    + change (Ascii.eqb "-" "+") with false. change (Ascii.eqb "-" "-") with true.
      cbv iota. rewrite readDigits_pad
        by (change (10 ^ Z.of_nat 6) with 1000000; lia).
      cbn [mbind option_bind]. replace (Z.abs y =? 0) with false
        by (symmetry; apply Z.eqb_neq; lia).
      cbn [negb]. repeat f_equal. lia.
    + change (Ascii.eqb "+" "+") with true. cbv iota.
      rewrite readDigits_pad by (change (10 ^ Z.of_nat 6) with 1000000; lia).
      cbn [mbind option_bind]. repeat f_equal. lia.
Qed.

(** Reading back what [toISOString] wrote gives the time value. *)
Theorem parseISO_toISOString (t : Z) :
  - maxTime <= t <= maxTime ->
  parseISO (toISOString t) = Some (TimeValue t).
Proof.
  intros Ht. pose proof (fields_spec t Ht) as H. cbv zeta in H.
  destruct H as (Hy & Hmo & Hd & Hd31 & Hh & Hmi & Hs & Hms & Hmake).
  unfold parseISO, toISOString. cbv zeta.
  rewrite readYear_isoYear by exact Hy. cbn [mbind option_bind].
  repeat (first [ rewrite expectChar_same
                | rewrite readDigits_pad
                    by (first [ change (10 ^ Z.of_nat 2) with 100
                              | change (10 ^ Z.of_nat 3) with 1000 ]; lia) ];
          cbn [mbind option_bind]).
  replace (MonthFromTime t + 1 - 1) with (MonthFromTime t) by lia.
  cbn [negb orb].
  repeat match goal with
         | |- context [?a <? ?b] =>
             first [ replace (a <? b) with false by (symmetry; apply Z.ltb_ge; lia) ]
         end.
  replace (HourFromTime t =? 24) with false by (symmetry; apply Z.eqb_neq; lia).
  cbn [orb andb]. rewrite Hmake. unfold TimeClip.
  replace (Z.abs t <=? maxTime) with true by (symmetry; apply Z.leb_le; lia).
  reflexivity.
Qed.

End IsoFacts.

Module JsonFacts.
Import JsString Json JsStringFacts.

Lemma print_arr (x : json) (l : list json) (rest : string) :
  print (JArr (x :: l)) rest = String "[" (print x (printElems rest l)).
Proof. reflexivity. Qed.

Lemma print_obj (k : string) (x : json) (l : list (string * json)) (rest : string) :
  print (JObj ((k, x) :: l)) rest
  = String "{" (quote k (String ":" (print x (printMembers rest l)))).
Proof. reflexivity. Qed.

(** Induction over a tree and the trees inside it. *)
Lemma json_induction (P : json -> Prop) :
  P JNull -> (forall b, P (JBool b)) -> (forall l, P (JNum l)) ->
  (forall s, P (JStr s)) ->
  (forall l, List.Forall P l -> P (JArr l)) ->
  (forall l, List.Forall (fun kx => P (snd kx)) l -> P (JObj l)) ->
  forall j, P j.
Proof.
  intros HNull HBool HNum HStr HArr HObj. fix IH 1. intros [|b|lit|s|l|l].
  - exact HNull.
  - apply HBool.
  - apply HNum.
  - apply HStr.
  - apply HArr. induction l as [|x l IHl]; constructor; [apply IH | exact IHl].
  - apply HObj. induction l as [|kx l IHl]; constructor; [apply IH | exact IHl].
Qed.

Local Arguments Ascii.eqb : simpl never.

(** One character of a string literal, read back. *)
Lemma parseChars_escapeChar (c : ascii) (tail : string) :
  parseChars (escapeChar c tail)
  = '(t, r) ← parseChars tail; Some (String c t, r).
Proof.
  destruct c as [[] [] [] [] [] [] [] []]; reflexivity.
Qed.

Lemma parseChars_escapeChars (s rest : string) :
  parseChars (escapeChars s (String "034" rest)) = Some (s, rest).
Proof.
  induction s as [|c s IH]; [reflexivity|].
  cbn [escapeChars]. rewrite parseChars_escapeChar, IH. reflexivity.
Qed.

Lemma list_sum_cons (a : nat) (l : list nat) :
  list_sum (a :: l) = (a + list_sum l)%nat.
Proof. reflexivity. Qed.

Lemma skipWs_head (c : ascii) (s : string) :
  isJsonWs c = false -> skipWs (String c s) = String c s.
Proof. intros H. cbn [skipWs]. now rewrite H. Qed.

Lemma print_head (j : json) (rest : string) :
  numFree j = true ->
  exists c tail, print j rest = String c tail /\ opener c.
Proof.
  unfold opener. destruct j as [|[]| | |[|x l]|[|[k x] l]]; intros H;
    try discriminate; eexists _, _; (split; [reflexivity|]); tauto.
Qed.

Lemma opener_facts (c : ascii) :
  opener c ->
  isJsonWs c = false /\ c <> "]"%char /\ c <> "}"%char.
Proof.
  unfold opener. intros H. decompose [or] H; subst; repeat split; discriminate.
Qed.

Lemma parseValue_quote (fuel : nat) (s rest : string) :
  parseValue (S fuel) (quote s rest) = Some (JStr s, rest).
Proof.
  unfold quote. cbn [parseValue]. rewrite skipWs_head by reflexivity.
  change (Ascii.eqb "034" "n") with false. change (Ascii.eqb "034" "t") with false.
  change (Ascii.eqb "034" "f") with false. change (Ascii.eqb "034" "034") with true.
  cbv iota. now rewrite parseChars_escapeChars.
Qed.

Lemma parseMember_quote (fuel : nat) (k rest : string) (x : json) (r : string) :
  parseValue fuel rest = Some (x, r) ->
  parseMember (S fuel) (quote k (String ":" rest)) = Some (k, x, r).
Proof.
  intros H. unfold quote. cbn [parseMember]. rewrite skipWs_head by reflexivity.
  rewrite parseChars_escapeChars. cbn [mbind option_bind].
  rewrite skipWs_head by reflexivity. now rewrite H.
Qed.

(** The elements after the first, each behind its comma. *)
Lemma parseElems_printElems (l : list json) (rest : string) :
  List.Forall (fun x => numFree x = true ->
                 forall rest fuel, (size x <= fuel)%nat ->
                   parseValue fuel (print x rest) = Some (x, rest)) l ->
  forallb numFree l = true ->
  forall fuel, (S (list_sum (map (fun x => S (size x)) l)) <= fuel)%nat ->
  parseElems fuel (printElems rest l) = Some (l, rest).
Proof.
  induction 1 as [|x l Hx Hl IH]; intros Hnf fuel Hfuel.
  - destruct fuel as [|f]; [cbn in Hfuel; lia|]. reflexivity.
  - cbn [forallb] in Hnf. apply andb_true_iff in Hnf as [Hnx Hnl].
    cbn [map] in Hfuel. rewrite list_sum_cons in Hfuel.
    destruct fuel as [|f]; [lia|].
    cbn [printElems parseElems]. rewrite skipWs_head by reflexivity.
    fold (printElems rest l).
    rewrite (Hx Hnx) by lia. cbn [mbind option_bind].
    rewrite (IH Hnl) by lia. reflexivity.
Qed.

Lemma parseMembers_printMembers (l : list (string * json)) (rest : string) :
  List.Forall (fun kx => numFree (snd kx) = true ->
                 forall rest fuel, (size (snd kx) <= fuel)%nat ->
                   parseValue fuel (print (snd kx) rest) = Some (snd kx, rest)) l ->
  forallb (fun kx => numFree (snd kx)) l = true ->
  forall fuel,
    (S (list_sum (map (fun kx => S (S (size (snd kx)))) l)) <= fuel)%nat ->
    parseMembers fuel (printMembers rest l) = Some (l, rest).
Proof.
  induction 1 as [|[k x] l Hx Hl IH]; intros Hnf fuel Hfuel.
  - destruct fuel as [|f]; [cbn in Hfuel; lia|]. reflexivity.
  - cbn [forallb snd] in Hnf. apply andb_true_iff in Hnf as [Hnx Hnl].
    cbn [map snd] in Hfuel, Hx. rewrite list_sum_cons in Hfuel.
    destruct fuel as [|f]; [lia|].
    cbn [printMembers parseMembers]. rewrite skipWs_head by reflexivity.
    fold (printMembers rest l).
    destruct f as [|f]; [lia|].
    rewrite (parseMember_quote f k _ x (printMembers rest l))
      by (apply (Hx Hnx); lia).
    cbn [mbind option_bind].
    rewrite (IH Hnl) by lia. reflexivity.
Qed.

(** Parsing a printed tree gives the tree back. *)
Lemma parseValue_print (j : json) :
  numFree j = true ->
  forall rest fuel, (size j <= fuel)%nat ->
    parseValue fuel (print j rest) = Some (j, rest).
Proof.
  induction j as [|b|lit|s|l IH|l IH] using json_induction;
    intros Hnf rest fuel Hfuel;
    (destruct fuel as [|f]; [cbn [size] in Hfuel; lia|]).
  - reflexivity.
  - destruct b; reflexivity.
  - discriminate.
  - apply parseValue_quote.
  - destruct l as [|x l]; [reflexivity|].
    rewrite print_arr. cbn [numFree forallb] in Hnf.
    apply andb_true_iff in Hnf as [Hnx Hnl].
    cbn [size map] in Hfuel. rewrite list_sum_cons in Hfuel.
    destruct (print_head x (printElems rest l) Hnx) as (c & tail & Hp & Hc).
    destruct (opener_facts c Hc) as (Hws & Hb & _).
    cbn [parseValue]. rewrite skipWs_head by reflexivity.
    change (Ascii.eqb "[" "n") with false. change (Ascii.eqb "[" "t") with false.
    change (Ascii.eqb "[" "f") with false. change (Ascii.eqb "[" "034") with false.
    change (Ascii.eqb "[" "[") with true. cbv iota.
    rewrite Hp, skipWs_head by exact Hws.
    replace (match c with "]"%char => Some (JArr [], tail) | _ =>
               parseValue f (String c tail)
               ≫= (λ '(x0, r), parseElems f r ≫= λ '(l0, r'), Some (JArr (x0 :: l0), r'))
             end)
      with (parseValue f (String c tail)
            ≫= (λ '(x0, r), parseElems f r ≫= λ '(l0, r'), Some (JArr (x0 :: l0), r'))).
    2:{ destruct c as [[] [] [] [] [] [] [] []]; try reflexivity. congruence. }
    rewrite <- Hp. inversion IH as [|? ? Hx Hl]; subst.
    rewrite (Hx Hnx) by lia. cbn [mbind option_bind].
    rewrite (parseElems_printElems l rest Hl Hnl) by lia. reflexivity.
  - destruct l as [|[k x] l]; [reflexivity|].
    rewrite print_obj. cbn [numFree forallb snd] in Hnf.
    apply andb_true_iff in Hnf as [Hnx Hnl].
    cbn [size map snd] in Hfuel. rewrite list_sum_cons in Hfuel.
    cbn [parseValue]. rewrite skipWs_head by reflexivity.
    change (Ascii.eqb "{" "n") with false. change (Ascii.eqb "{" "t") with false.
    change (Ascii.eqb "{" "f") with false. change (Ascii.eqb "{" "034") with false.
    change (Ascii.eqb "{" "[") with false. change (Ascii.eqb "{" "{") with true.
    cbv iota. unfold quote at 1. rewrite skipWs_head by reflexivity.
    fold (quote k (String ":" (print x (printMembers rest l)))).
    inversion IH as [|? ? Hx Hl]; subst. cbn [snd] in Hx.
    destruct f as [|f]; [lia|].
    rewrite (parseMember_quote f k _ x (printMembers rest l))
      by (apply (Hx Hnx); lia).
    cbn [mbind option_bind].
    rewrite (parseMembers_printMembers l rest Hl Hnl) by lia. reflexivity.
Qed.

End JsonFacts.

Module PersistFacts.
Import JsString Json JsStringFacts JsonFacts Persist.

Lemma escapeChar_length (c : ascii) (rest : string) :
  (S (String.length rest) <= String.length (escapeChar c rest))%nat.
Proof.
  unfold escapeChar.
  repeat match goal with
         | |- context [if ?b then _ else _] => destruct b
         end; cbn [String.length]; lia.
Qed.

Lemma escapeChars_length (s rest : string) :
  (String.length rest <= String.length (escapeChars s rest))%nat.
Proof.
  induction s as [|c s IH]; cbn [escapeChars]; [lia|].
  pose proof (escapeChar_length c (escapeChars s rest)). lia.
Qed.

Lemma quote_length (s rest : string) :
  (2 + String.length rest <= String.length (quote s rest))%nat.
Proof.
  unfold quote. cbn [String.length].
  pose proof (escapeChars_length s (String "034" rest)) as H.
  cbn [String.length] in H. lia.
Qed.

Lemma printElems_length (l : list json) (rest : string) :
  List.Forall (fun x => numFree x = true -> forall rest,
                 (size x + String.length rest <= String.length (print x rest))%nat) l ->
  forallb numFree l = true ->
  (S (list_sum (map (fun x => S (size x)) l)) + String.length rest
   <= String.length (printElems rest l))%nat.
Proof.
  induction 1 as [|x l Hx Hl IH]; intros Hnf.
  - cbn. lia.
  - cbn [forallb] in Hnf. apply andb_true_iff in Hnf as [Hnx Hnl].
    cbn [map printElems String.length]. rewrite list_sum_cons.
    fold (printElems rest l).
    specialize (Hx Hnx (printElems rest l)). specialize (IH Hnl). lia.
Qed.

Lemma printMembers_length (l : list (string * json)) (rest : string) :
  List.Forall (fun kx => numFree (snd kx) = true -> forall rest,
                 (size (snd kx) + String.length rest
                  <= String.length (print (snd kx) rest))%nat) l ->
  forallb (fun kx => numFree (snd kx)) l = true ->
  (S (list_sum (map (fun kx => S (S (size (snd kx)))) l)) + String.length rest
   <= String.length (printMembers rest l))%nat.
Proof.
  induction 1 as [|[k x] l Hx Hl IH]; intros Hnf.
  - cbn. lia.
  - cbn [forallb snd] in Hnf. apply andb_true_iff in Hnf as [Hnx Hnl].
    cbn [map printMembers String.length snd] in *. rewrite list_sum_cons.
    fold (printMembers rest l).
    pose proof (quote_length k (String ":" (print x (printMembers rest l)))) as Hq.
    cbn [String.length] in Hq.
    specialize (Hx Hnx (printMembers rest l)). specialize (IH Hnl). lia.
Qed.

(** The fuel [parse] gives is enough for what [print] wrote. *)
Lemma print_length (j : json) :
  numFree j = true ->
  forall rest, (size j + String.length rest <= String.length (print j rest))%nat.
Proof.
  induction j as [|b|lit|s|l IH|l IH] using json_induction; intros Hnf rest.
  - cbn [print size]. rewrite slength_app. cbn [String.length]. lia.
  - destruct b; cbn [print size]; rewrite slength_app; cbn [String.length]; lia.
  - discriminate.
  - cbn [print size]. pose proof (quote_length s rest). lia.
  - destruct l as [|x l];
      [cbn [print size map]; rewrite slength_app; cbn; lia|].
    rewrite print_arr. cbn [numFree forallb] in Hnf.
    apply andb_true_iff in Hnf as [Hnx Hnl].
    inversion IH as [|? ? Hx Hl]; subst.
    cbn [size map String.length]. rewrite list_sum_cons.
    specialize (Hx Hnx (printElems rest l)).
    pose proof (printElems_length l rest Hl Hnl). lia.
  - destruct l as [|[k x] l];
      [cbn [print size map]; rewrite slength_app; cbn; lia|].
    rewrite print_obj. cbn [numFree forallb snd] in Hnf.
    apply andb_true_iff in Hnf as [Hnx Hnl].
    inversion IH as [|? ? Hx Hl]; subst. cbn [snd] in Hx.
    cbn [size map String.length snd]. rewrite list_sum_cons.
    pose proof (quote_length k (String ":" (print x (printMembers rest l)))) as Hq.
    cbn [String.length] in Hq.
    specialize (Hx Hnx (printMembers rest l)).
    pose proof (printMembers_length l rest Hl Hnl). lia.
Qed.

(** [JSON.parse(JSON.stringify(v))] for a value without numbers. *)
Theorem parse_stringify (j : json) :
  numFree j = true -> parse (stringify j) = Some j.
Proof.
  intros Hnf. unfold parse, stringify.
  pose proof (print_length j Hnf EmptyString) as Hlen.
  rewrite (parseValue_print j Hnf) by lia. reflexivity.
Qed.

Lemma mapM_map {A B} (f : A -> option B) (g : B -> A) (l : list B) :
  List.Forall (fun x => f (g x) = Some x) l -> mapM f (map g l) = Some l.
Proof.
  induction 1 as [|x l Hx Hl IH]; [reflexivity|].
  cbn [map mapM]. now rewrite Hx, IH.
Qed.

Lemma loadCitation_encode (c : Citation.t) :
  loadCitation (encodeCitation c) = Some c.
Proof. now destruct c. Qed.

Lemma asRole_roleString (r : Role) : asRole (Some (JStr (roleString r))) = Some r.
Proof. now destruct r. Qed.

Lemma newDate_dateJson (d : Date) :
  Wf.validDate d -> newDate (Some (dateJson d)) = Some d.
Proof.
  destruct d as [t|]; [|intros []]. intros Ht.
  cbn [dateJson JsDate.toJSON newDate].
  now apply IsoFacts.parseISO_toISOString.
Qed.

Lemma loadMessage_encode (msg : ChatMessage.t) :
  Wf.validMessage msg -> loadMessage (encodeMessage msg) = Some msg.
Proof.
  destruct msg as [i r c ts src]. unfold Wf.validMessage, encodeMessage, loadMessage.
  cbn [ChatMessage.id ChatMessage.role ChatMessage.content ChatMessage.timestamp
       ChatMessage.sources]. intros Hts.
  destruct src as [l|]; cbn [app get String.eqb Ascii.eqb Bool.eqb asString mbind option_bind];
    rewrite asRole_roleString, (newDate_dateJson ts Hts); cbn [mbind option_bind].
  - rewrite (mapM_map loadCitation encodeCitation l)
      by (apply List.Forall_forall; intros; apply loadCitation_encode).
    reflexivity.
  - reflexivity.
Qed.

Lemma loadSession_encode (session : ChatSession.t) :
  Wf.validSession session -> loadSession (encodeSession session) = Some session.
Proof.
  destruct session as [i t msgs created]. unfold Wf.validSession, encodeSession, loadSession.
  cbn [ChatSession.id ChatSession.title ChatSession.messages ChatSession.createdAt].
  intros [Hc Hm].
  cbn [get String.eqb Ascii.eqb Bool.eqb asString mbind option_bind].
  rewrite (newDate_dateJson created Hc). cbn [mbind option_bind].
  rewrite (mapM_map loadMessage encodeMessage msgs).
  - reflexivity.
  - apply List.Forall_forall. intros x Hx. apply loadMessage_encode.
    rewrite List.Forall_forall in Hm. now apply Hm.
Qed.

Lemma numFree_dateJson (d : Date) : numFree (dateJson d) = true.
Proof. now destruct d. Qed.

Lemma forallb_map_true {A B} (f : B -> bool) (g : A -> B) (l : list A) :
  (forall x, f (g x) = true) -> forallb f (map g l) = true.
Proof.
  intros H. induction l as [|x l IH]; [reflexivity|].
  cbn [map forallb]. now rewrite H, IH.
Qed.

Lemma numFree_encodeMessage (msg : ChatMessage.t) :
  numFree (encodeMessage msg) = true.
Proof.
  destruct msg as [i r c ts [l|]]; unfold encodeMessage;
    cbn [ChatMessage.id ChatMessage.role ChatMessage.content ChatMessage.timestamp
         ChatMessage.sources app numFree forallb snd];
    rewrite numFree_dateJson; [|reflexivity].
  cbn [andb]. rewrite forallb_map_true; [reflexivity|]. intros x. reflexivity.
Qed.

Lemma numFree_encodeSession (session : ChatSession.t) :
  numFree (encodeSession session) = true.
Proof.
  destruct session as [i t msgs created]. unfold encodeSession.
  cbn [ChatSession.id ChatSession.title ChatSession.messages ChatSession.createdAt
       numFree forallb snd].
  rewrite numFree_dateJson, forallb_map_true; [reflexivity|].
  apply numFree_encodeMessage.
Qed.

Lemma loadSessions_text (chatSessions : list ChatSession.t) :
  loadSessions (stringifySessions chatSessions)
  = mapM loadSession (map encodeSession chatSessions).
Proof.
  unfold loadSessions, stringifySessions.
  rewrite parse_stringify
    by (cbn [numFree]; apply forallb_map_true, numFree_encodeSession).
  reflexivity.
Qed.

(** C6.  Serializing a session collection and reading the text back, as
    the save and the load effect do, gives the collection itself: ids,
    titles, roles, contents and citations as they were, and every
    [createdAt] and [timestamp] a date with the time value it had.  The
    dates of the collection are instants (not the invalid date). *)
Theorem load_after_save (chatSessions : list ChatSession.t) :
  List.Forall Wf.validSession chatSessions ->
  loadSessions (stringifySessions chatSessions) = Some chatSessions.
Proof.
  intros Hv. rewrite loadSessions_text. apply mapM_map.
  induction Hv as [|session rest Hsession _ IH]; constructor.
  - now apply loadSession_encode.
  - exact IH.
Qed.

(** The theorem at a collection with a cited reply, quotes, a backslash
    and a line break in a content, and a date before the year 0. *)
Lemma load_after_save_stored :
  List.Forall Wf.validSession Samples.storedSessions
  /\ loadSessions (stringifySessions Samples.storedSessions)
     = Some Samples.storedSessions.
Proof.
  assert (Hv : List.Forall Wf.validSession Samples.storedSessions).
  { repeat constructor; vm_compute; intros H; discriminate H. }
  split; [exact Hv | exact (load_after_save Samples.storedSessions Hv)].
Defined.

(** The invalid date is written as [null] and read back as the epoch:
    the hypothesis on the dates cannot be dropped. *)
Lemma invalid_date_read_back_as_epoch :
  loadSessions (stringifySessions [ChatSession.mk "1" "t" [] InvalidDate])
  = Some [ChatSession.mk "1" "t" [] (TimeValue 0)].
Proof. vm_compute. reflexivity. Qed.

(** A page started on a store that holds the text of a collection shows
    that collection. *)
Lemma mount_after_save (chatSessions : list ChatSession.t)
    (ls : gmap string string) :
  List.Forall Wf.validSession chatSessions -> chatSessions <> [] ->
  ls !! Store.storageKey = Some (stringifySessions chatSessions) ->
  exists w, Store.mount ls = Some w
            /\ Store.chatSessions (Store.ui w) = chatSessions.
Proof.
  intros Hv Hne Hls. unfold Store.mount. rewrite Hls.
  assert (Ht : truthy (stringifySessions chatSessions) = true).
  { unfold stringifySessions, stringify. destruct chatSessions; [congruence|].
    reflexivity. }
  rewrite Ht, loadSessions_text, mapM_map; cbn [mbind option_bind].
  2:{ eapply List.Forall_impl; [|exact Hv]. intros session.
      apply loadSession_encode. }
  eexists. split; [reflexivity|]. reflexivity.
Qed.

End PersistFacts.

Module StoreFacts.
Import JsString Store.

Ltac runM :=
  unfold after, synced, mbind, mret, M_bind, M_ret, skip, newDateNow,
    setInputValue, setIsLoading, setCurrentSessionId, setEditingSessionId,
    setEditingTitle, setDeleteDialogOpen, setSessionToDelete, modify, DateNow, call,
    setMessages, setChatSessions, mbind, mret, M_bind, M_ret;
  cbn [withMessages withChatSessions withInputValue withIsLoading
       withCurrentSessionId withEditingSessionId withEditingTitle
       withDeleteDialogOpen withSessionToDelete
       freshRun snd fst st dirtyMessages dirtyChatSessions tick out
       messages inputValue isLoading chatSessions currentSessionId editingSessionId
       editingTitle deleteDialogOpen sessionToDelete ui localStorage inflight
       orb andb negb].

Ltac unfoldHandlers :=
  unfold handleSendMessage, handleSendMessage_settled, handleActionResponse,
    handleActionResponse_settled, handleDeleteSession, confirmDeleteSession,
    handleStartEdit, handleSaveEdit, handleCancelEdit, handleReturnHome,
    selectSession, syncEffect.

(** Runs a handler symbolically, splitting on the tests it makes. *)
Ltac runH :=
  unfoldHandlers; unfold after, synced; cbv beta;
  repeat first
    [ progress runM
    | match goal with
      | |- context [if ?c then _ else _] => destruct c eqn:?
      | |- context [match ?c with Fulfilled _ => _ | Rejected => _ end] =>
          destruct c eqn:?
      | |- context [match ?c with Some _ => _ | None => _ end] =>
          destruct c eqn:?
      end ].

Lemma optEqb_refl (a : option string) : optEqb a a = true.
Proof. destruct a; simpl; [apply String.eqb_refl | reflexivity]. Qed.

Lemma optEqb_eq (a b : option string) : optEqb a b = true <-> a = b.
Proof.
  destruct a, b; simpl; try (split; congruence).
  rewrite String.eqb_eq. split; congruence.
Qed.

Lemma copyMessages_ids cur msgs l :
  map ChatSession.id (copyMessages cur msgs l) = map ChatSession.id l.
Proof.
  unfold copyMessages. rewrite map_map. apply map_ext. intros x.
  now destruct (String.eqb (ChatSession.id x) cur).
Qed.

Lemma retitle_ids sessionId t l :
  map ChatSession.id (retitle sessionId t l) = map ChatSession.id l.
Proof.
  unfold retitle. rewrite map_map. apply map_ext. intros x.
  now destruct (String.eqb (ChatSession.id x) sessionId).
Qed.

(** What the copy effect does to the state. *)
Lemma synced_st (r : Run) (clk : Clock) :
  st (synced r clk)
  = match currentSessionId (st r) with
    | Some cur =>
        if truthy cur && (0 <? length (messages (st r)))%nat
        then withChatSessions
               (copyMessages cur (messages (st r)) (chatSessions (st r))) (st r)
        else st r
    | None => st r
    end.
Proof.
  unfold synced, syncEffect. destruct (currentSessionId (st r)) as [cur|];
    [destruct (truthy cur && (0 <? length (messages (st r)))%nat)|]; reflexivity.
Qed.

Lemma synced_dirty (r : Run) (clk : Clock) :
  dirtyChatSessions (synced r clk) = false ->
  st (synced r clk) = st r.
Proof.
  unfold synced, syncEffect. destruct (currentSessionId (st r)) as [cur|];
    [destruct (truthy cur && (0 <? length (messages (st r)))%nat)|];
    runM; congruence.
Qed.

(** A handler that leaves [messages] and the active id alone: only the
    save effect can run. *)
Lemma dispatch_quiet (h : State -> M unit) (clk : Clock) (w : World) :
  dirtyMessages (after h clk (ui w)) = false ->
  currentSessionId (st (after h clk (ui w))) = currentSessionId (ui w) ->
  dispatch h clk w
  = mkWorld (st (after h clk (ui w)))
            (if dirtyChatSessions (after h clk (ui w))
             then saveEffect (st (after h clk (ui w))) (localStorage w)
             else localStorage w)
            (inflight w ++ out (after h clk (ui w))).
Proof.
  intros Hm Hc. unfold dispatch. fold (after h clk (ui w)).
  now rewrite Hm, Hc, optEqb_refl.
Qed.

(** A handler that sets [messages]: the copy effect runs, then the save
    effect if the copy changed the collection. *)
Lemma dispatch_sync (h : State -> M unit) (clk : Clock) (w : World) :
  dirtyMessages (after h clk (ui w)) = true ->
  dispatch h clk w
  = mkWorld (st (synced (after h clk (ui w)) clk))
            (if dirtyChatSessions (synced (after h clk (ui w)) clk)
             then saveEffect (st (synced (after h clk (ui w)) clk))
                    (if dirtyChatSessions (after h clk (ui w))
                     then saveEffect (st (after h clk (ui w))) (localStorage w)
                     else localStorage w)
             else if dirtyChatSessions (after h clk (ui w))
                  then saveEffect (st (after h clk (ui w))) (localStorage w)
                  else localStorage w)
            (inflight w ++ out (after h clk (ui w))).
Proof.
  intros Hm. unfold dispatch. fold (after h clk (ui w)).
  fold (synced (after h clk (ui w)) clk). now rewrite Hm.
Qed.

(** Whatever the handler, the effects touch [chatSessions] only, and
    only the messages stored in it. *)
Lemma dispatch_ui (h : State -> M unit) (clk : Clock) (w : World) :
  let r := after h clk (ui w) in
  let s' := ui (dispatch h clk w) in
  messages s' = messages (st r) /\ inputValue s' = inputValue (st r)
  /\ isLoading s' = isLoading (st r)
  /\ currentSessionId s' = currentSessionId (st r)
  /\ editingSessionId s' = editingSessionId (st r)
  /\ editingTitle s' = editingTitle (st r)
  /\ deleteDialogOpen s' = deleteDialogOpen (st r)
  /\ sessionToDelete s' = sessionToDelete (st r)
  /\ map ChatSession.id (chatSessions s') = map ChatSession.id (chatSessions (st r))
  /\ inflight (dispatch h clk w) = inflight w ++ out r.
Proof.
  unfold dispatch. fold (after h clk (ui w)).
  fold (synced (after h clk (ui w)) clk). cbv zeta.
  set (r := after h clk (ui w)).
  destruct (dirtyMessages r
            || negb (optEqb (currentSessionId (ui w)) (currentSessionId (st r))));
    cbn [ui inflight]; [|tauto].
  rewrite synced_st. destruct (currentSessionId (st r)) as [cur|] eqn:Hc;
    [destruct (truthy cur && (0 <? length (messages (st r)))%nat)|];
    cbn [withChatSessions messages inputValue isLoading chatSessions currentSessionId
         editingSessionId editingTitle deleteDialogOpen sessionToDelete];
    rewrite ?copyMessages_ids; tauto.
Qed.

Lemma dispatch_ids (h : State -> M unit) (clk : Clock) (w : World) :
  Wf.sessionIds (dispatch h clk w)
  = map ChatSession.id (chatSessions (st (after h clk (ui w)))).
Proof. unfold Wf.sessionIds. apply (dispatch_ui h clk w). Qed.

(** No event but the confirmation takes a session out of the list. *)
Lemma step_keeps_sessions (w : World) (e : Event) :
  e <> EDeleteConfirm ->
  exists added, Wf.sessionIds (step w e) = added ++ Wf.sessionIds w.
Proof.
  intros He. unfold Wf.sessionIds at 2.
  destruct e; try congruence; cbn [step];
    try (destruct (inflight w !! i) as [[]|]);
    try (destruct (chatSessions (ui w) !! i));
    try (exists []; reflexivity);
    rewrite dispatch_ids; cbn [ui localStorage inflight]; runH;
    first [ exists []; first [reflexivity | apply retitle_ids]
          | eexists [_]; reflexivity ].
Qed.

(** The batch of updates of the confirmation. *)
Lemma after_confirmDeleteSession (snap : State) (clk : Clock) :
  after confirmDeleteSession clk snap
  = if truthyOpt (sessionToDelete snap) then
      let kept := withChatSessions
                    (withoutSession (sessionToDelete snap) (chatSessions snap)) snap in
      if optEqb (currentSessionId snap) (sessionToDelete snap)
      then mkRun (withSessionToDelete None (withDeleteDialogOpen false
                    (withCurrentSessionId None (withMessages [] kept))))
                 true true 0 []
      else mkRun (withSessionToDelete None (withDeleteDialogOpen false kept))
                 false true 0 []
    else freshRun snap 0.
Proof.
  unfold after, confirmDeleteSession.
  destruct (truthyOpt (sessionToDelete snap)); [|reflexivity].
  destruct (optEqb (currentSessionId snap) (sessionToDelete snap)); reflexivity.
Qed.

End StoreFacts.

Module StoreClaims.
Import JsString Store StoreFacts JsStringFacts.

Lemma retitle_renamed sessionId newTitle l :
  Forall2 (Wf.renamed sessionId newTitle) l (retitle sessionId newTitle l).
Proof.
  induction l as [|x l IH]; cbn [retitle map]; constructor; [|exact IH].
  unfold Wf.renamed. destruct (String.eqb (ChatSession.id x) sessionId); simpl; auto.
Qed.

Lemma after_handleSaveEdit (snap : State) (sessionId : string) (clk : Clock) :
  after (handleSaveEdit sessionId) clk snap
  = if truthy (trim (editingTitle snap))
    then mkRun (withEditingTitle "" (withEditingSessionId None
                  (withChatSessions
                     (retitle sessionId (trim (editingTitle snap))
                              (chatSessions snap)) snap)))
               false true 0 []
    else mkRun (withEditingTitle "" (withEditingSessionId None snap))
               false false 0 [].
Proof.
  unfold after, handleSaveEdit.
  destruct (truthy (trim (editingTitle snap))); reflexivity.
Qed.

(** C9.  Saving a title that is not empty once trimmed gives every
    session with the edited id the trimmed title and leaves its id, its
    messages and its [createdAt], and every other session, as they were;
    saving a title that trims to nothing leaves the collection and the
    stored text as they were. *)
Theorem rename_replaces_title_only (w : World) (sessionId : string) :
  let newTitle := trim (editingTitle (ui w)) in
  let w' := step w (ESaveEdit sessionId) in
  (newTitle <> ""%string ->
     Forall2 (Wf.renamed sessionId newTitle)
             (chatSessions (ui w)) (chatSessions (ui w')))
  /\ (newTitle = ""%string ->
        chatSessions (ui w') = chatSessions (ui w)
        /\ localStorage w' = localStorage w).
Proof.
  cbn [step]. cbv zeta.
  pose proof (after_handleSaveEdit (ui w) sessionId noClock) as Hr.
  rewrite dispatch_quiet
    by (rewrite Hr; now destruct (truthy (trim (editingTitle (ui w))))).
  rewrite Hr. split; intros Ht.
  - destruct (trim (editingTitle (ui w))); [congruence|].
    cbn [truthy]. runM. apply retitle_renamed.
  - rewrite Ht. cbn [truthy]. runM. split; reflexivity.
Qed.

Lemma world_eta (w : World) : mkWorld (ui w) (localStorage w) (inflight w) = w.
Proof. now destruct w. Qed.

(** C8.  The delete request leaves the collection, the stored text, the
    displayed messages and the active id alone and only records the id and
    opens the dialog; no event other than the confirmation takes a session
    out of the collection; the confirmation removes the sessions with the
    recorded id and, when that id was the active one, empties the displayed
    messages and clears the active id; with no id recorded it does
    nothing. *)
Theorem delete_takes_two_steps (w : World) :
  (forall sessionId,
     let w' := step w (EDeleteRequest sessionId) in
     chatSessions (ui w') = chatSessions (ui w)
     /\ localStorage w' = localStorage w
     /\ messages (ui w') = messages (ui w)
     /\ currentSessionId (ui w') = currentSessionId (ui w)
     /\ sessionToDelete (ui w') = Some sessionId
     /\ deleteDialogOpen (ui w') = true)
  /\ (forall e, e <> EDeleteConfirm ->
        exists added, Wf.sessionIds (step w e) = added ++ Wf.sessionIds w)
  /\ (truthyOpt (sessionToDelete (ui w)) = false -> step w EDeleteConfirm = w)
  /\ (forall sessionId,
        sessionToDelete (ui w) = Some sessionId -> truthy sessionId = true ->
        let w' := step w EDeleteConfirm in
        chatSessions (ui w')
        = List.filter (fun session =>
                         negb (String.eqb (ChatSession.id session) sessionId))
                      (chatSessions (ui w))
        /\ (currentSessionId (ui w) = Some sessionId ->
              messages (ui w') = [] /\ currentSessionId (ui w') = None)
        /\ (currentSessionId (ui w) <> Some sessionId ->
              messages (ui w') = messages (ui w)
              /\ currentSessionId (ui w') = currentSessionId (ui w))
        /\ sessionToDelete (ui w') = None
        /\ deleteDialogOpen (ui w') = false).
Proof.
  pose proof (after_confirmDeleteSession (ui w) noClock) as Hr.
  split; [|split; [|split]].
  - intros sessionId. cbn [step]. cbv zeta.
    rewrite dispatch_quiet by reflexivity.
    unfold handleDeleteSession. runM. repeat split.
  - intros e He. now apply step_keeps_sessions.
  - intros Hnone. cbn [step]. rewrite Hnone in Hr.
    rewrite dispatch_quiet by (now rewrite Hr). rewrite Hr. cbn.
    rewrite app_nil_r. apply world_eta.
  - intros sessionId Hdel Ht. cbv zeta. cbn [step].
    rewrite Hdel in Hr. cbn [truthyOpt] in Hr. rewrite Ht in Hr. cbv zeta in Hr.
    destruct (optEqb (currentSessionId (ui w)) (Some sessionId)) eqn:Hcur.
    + apply optEqb_eq in Hcur.
      rewrite dispatch_sync by (now rewrite Hr). cbn [ui].
      rewrite synced_st, Hr. runM.
      split; [reflexivity|]. split; [intros _; now split|].
      split; [intros Hc; now destruct Hc|]. now split.
    + assert (Hne : currentSessionId (ui w) <> Some sessionId).
      { intros Hc. rewrite Hc, optEqb_refl in Hcur. discriminate. }
      rewrite dispatch_quiet by (now rewrite Hr). rewrite Hr. runM.
      split; [reflexivity|]. split; [intros Hc; now destruct Hne|].
      split; [intros _; now split|]. now split.
Qed.

(** A send while loading, or with nothing to send, changes nothing. *)
Lemma send_rejected (w : World) (messageText : option string) (clk : Clock) :
  isLoading (ui w) = true \/ sendText messageText (ui w) = ""%string ->
  step w (ESend messageText clk) = w.
Proof.
  intros H. cbn [step].
  assert (Hr : after (handleSendMessage messageText) clk (ui w) = freshRun (ui w) 0).
  { unfold after, handleSendMessage. destruct H as [-> | ->].
    - now rewrite orb_true_r.
    - reflexivity. }
  rewrite dispatch_quiet by (now rewrite Hr). rewrite Hr. cbn.
  rewrite app_nil_r. apply world_eta.
Qed.

(** C7.  A run the page offers in which a second send is accepted while
    the first is still in flight: the quick action on an earlier reply
    resets the loading flag, so the send after it passes the guard; both
    user messages are appended and two chat calls are pending. *)
Theorem second_send_accepted_while_first_pending :
  let before := run emptyWorld Samples.quickActionWhilePending in
  let w := run emptyWorld Samples.overlappingSendsRun in
  feasible emptyWorld Samples.overlappingSendsRun = true
  /\ map Wf.callText (Wf.pendingSends before) = ["ok"]%string
  /\ isLoading (ui before) = false
  /\ map Wf.callText (Wf.pendingSends w) = ["ok"; "yes"]%string
  /\ map ChatMessage.content (List.filter Gate.isUser (messages (ui w)))
     = ["hi"; "ok"; "yes"]%string.
Proof.
  cbv zeta. split; [vm_compute; reflexivity|].
  split; [vm_compute; reflexivity|]. split; [vm_compute; reflexivity|].
  split; vm_compute; reflexivity.
Qed.

(** C4.  A run the page offers, with the clock advancing at every step,
    after which two messages of the displayed list have the same id: the
    reply gets the reading plus one, the local reply of the gate the next
    reading. *)
Theorem quick_action_repeats_message_id :
  feasible emptyWorld Samples.quickActionRun = true
  /\ Wf.messageIds (run emptyWorld Samples.quickActionRun)
     = ["1000"; "1006"; "1006"]%string
  /\ ~ NoDup (Wf.messageIds (run emptyWorld Samples.quickActionRun)).
Proof.
  assert (H : Wf.messageIds (run emptyWorld Samples.quickActionRun)
              = ["1000"; "1006"; "1006"]%string) by (vm_compute; reflexivity).
  split; [vm_compute; reflexivity|]. split; [exact H|].
  rewrite H. intros Hnd. apply NoDup_cons in Hnd as [_ Hnd].
  apply NoDup_cons in Hnd as [Hin _]. apply Hin. now left.
Qed.

(** C1.  A run the page offers that ends with the deletion of the only
    session: the collection is empty, the stored text still holds the
    session, and a page started on that store shows it again. *)
Theorem deleted_last_session_stays_stored :
  let w := run emptyWorld Samples.deleteLastRun in
  feasible emptyWorld Samples.deleteLastRun = true
  /\ chatSessions (ui w) = []
  /\ ~ Wf.inSync w
  /\ (exists w0, mount (localStorage w) = Some w0
                 /\ Wf.sessionIds w0 = ["1000"]%string).
Proof.
  cbv zeta. split; [vm_compute; reflexivity|]. split; [vm_compute; reflexivity|].
  split.
  - unfold Wf.inSync. vm_compute. discriminate.
  - eexists. split; [vm_compute; reflexivity|]. vm_compute. reflexivity.
Qed.

End StoreClaims.

Module SendClaims.
Import JsString Store StoreFacts JsStringFacts StoreClaims.

Lemma toString_truthy (n : Z) : truthy (toString n) = true.
Proof.
  unfold toString. destruct (Z.to_int n) as [d|d]; [|reflexivity].
  destruct d; reflexivity.
Qed.

Lemma slice0_all (n : nat) (s : string) :
  (String.length s <= n)%nat -> slice0 n s = s.
Proof.
  revert n. induction s as [|c s IH]; intros [|n] H; simpl in *;
    try reflexivity; try lia. f_equal. apply IH. lia.
Qed.



(** The batch of updates of an accepted send from the home state. *)
Lemma after_first_send (snap : State) (messageText : option string) (clk : Clock) :
  sendText messageText snap <> ""%string -> isLoading snap = false ->
  truthyOpt (currentSessionId snap) = false ->
  let text := sendText messageText snap in
  after (handleSendMessage messageText) clk snap
  = mkRun (withIsLoading true (withInputValue ""
             (withMessages (messages snap ++ [firstMessage text clk])
                (withCurrentSessionId (Some (toString (clk 0%nat)))
                   (withChatSessions (firstSession text clk [] :: chatSessions snap)
                                     snap)))))
          true true 4 [ChatCall text (messages snap)].
Proof.
  intros Ht Hl Hc. unfold after, handleSendMessage. rewrite Hl, Hc.
  destruct (sendText messageText snap); [congruence|]. reflexivity.
Qed.

Lemma copyMessages_fresh cur msgs l :
  ~ In cur (map ChatSession.id l) -> copyMessages cur msgs l = l.
Proof.
  induction l as [|x l IH]; intros Hin; [reflexivity|].
  cbn [copyMessages map] in *. fold (copyMessages cur msgs l).
  destruct (String.eqb_spec (ChatSession.id x) cur) as [Heq|Hne].
  - exfalso. apply Hin. now left.
  - f_equal. apply IH. intros H. apply Hin. now right.
Qed.





End SendClaims.

Module ActionClaims.
Import JsString Store StoreFacts JsStringFacts StoreClaims Gate GateFacts.

(** The batch of updates of a quick action, up to the [await]. *)
Lemma after_handleActionResponse (snap : State) (action originalMessage : string)
    (clk : Clock) :
  after (handleActionResponse action originalMessage) clk snap
  = if isSimpleChat (messages snap)
    then mkRun (withIsLoading false
                  (withMessages (messages snap ++ [insufficientDataMessage action clk])
                                (withIsLoading true snap)))
               true false 2 []
    else mkRun (withIsLoading true snap) false false 0
               [ActionCall action originalMessage (transcript (messages snap))].
Proof.
  unfold after, handleActionResponse.
  destruct (isSimpleChat (messages snap)); reflexivity.
Qed.

Local Arguments Ascii.eqb : simpl never.

Lemma spaced_none (s : string) : GateSpec.underscores s = 0%nat -> GateSpec.spaced s = s.
Proof.
  induction s as [|c s IH]; simpl; [reflexivity|].
  destruct (Ascii.eqb c "_"); [discriminate|]. intros H. f_equal. now apply IH.
Qed.

(** With at most one underscore, replacing the first replaces all. *)
Lemma replace_spaced (action : string) :
  (GateSpec.underscores action <= 1)%nat ->
  replace "_" " " action = GateSpec.spaced action.
Proof.
  induction action as [|c s IH]; [reflexivity|].
  cbn [replace startsWith GateSpec.underscores GateSpec.spaced].
  rewrite (Ascii.eqb_sym "_" c). destruct (Ascii.eqb c "_") eqn:E; intros H.
  - cbn. sapp. f_equal. symmetry. apply spaced_none. lia.
  - f_equal. apply IH. lia.
Qed.

Lemma content_names_action (action : string) :
  (GateSpec.underscores action <= 1)%nat ->
  Substring (GateSpec.spaced action) (insufficientDataContent action).
Proof.
  intros H. unfold insufficientDataContent. rewrite (replace_spaced action H).
  eexists _, _. reflexivity.
Qed.

Lemma only_hi_is_simple (history : list ChatMessage.t) :
  map ChatMessage.content (List.filter isUser history) = ["hi"]%string ->
  isSimpleChat history = true.
Proof.
  intros H. destruct history as [|m history]; [discriminate|].
  set (h := m :: history) in *.
  change (isSimpleChat h)
    with (hasSimpleContent h && negb (hasGovernmentContent h)
          && negb (isDetailedRequest h)).
  unfold hasSimpleContent, hasGovernmentContent, isDetailedRequest.
  rewrite userMessageTexts_recent. unfold GateSpec.recentUser.
  destruct (List.filter isUser h) as [|x [|y l]]; try discriminate.
  injection H as H. unfold sliceLast. cbn [length drop Nat.sub map].
  rewrite H. reflexivity.
Qed.

(** C3.  When the only user message of the history is the text hi (or,
    more generally, whenever the gate finds the context insufficient), a
    quick action of one of the three types starts no remote call and
    appends one assistant message, the fixed text naming the action with
    its underscores turned into spaces. *)
Theorem insufficient_context_is_answered_locally (w : World)
    (action originalMessage : string) (clk : Clock) :
  (map ChatMessage.content (List.filter isUser (messages (ui w))) = ["hi"]%string
   \/ isSimpleChat (messages (ui w)) = true) ->
  In action actionTypes ->
  let w' := step w (EAction action originalMessage clk) in
  isSimpleChat (messages (ui w)) = true
  /\ inflight w' = inflight w
  /\ messages (ui w') = messages (ui w) ++ [insufficientDataMessage action clk]
  /\ ChatMessage.role (insufficientDataMessage action clk) = assistant
  /\ Substring (GateSpec.spaced action)
               (ChatMessage.content (insufficientDataMessage action clk)).
Proof.
  intros Hhist Hact. cbv zeta. cbn [step].
  assert (Hs : isSimpleChat (messages (ui w)) = true).
  { destruct Hhist as [H|H]; [now apply only_hi_is_simple | exact H]. }
  pose proof (after_handleActionResponse (ui w) action originalMessage clk) as Hr.
  rewrite Hs in Hr.
  destruct (dispatch_ui (handleActionResponse action originalMessage) clk w)
    as (Hm & _ & _ & _ & _ & _ & _ & _ & _ & Hi).
  rewrite Hm, Hi, Hr. runM. rewrite app_nil_r.
  repeat split; try reflexivity; try assumption.
  apply content_names_action.
  cbn [actionTypes In] in Hact. decompose [or] Hact; subst; simpl; try lia; tauto.
Qed.

(** The theorem at the history of a greeting and its reply, for a
    feasibility request clicked under the reply. *)
Lemma hi_feasibility_is_answered_locally :
  (map ChatMessage.content (List.filter isUser (messages (ui Samples.greeted)))
   = ["hi"]%string
   \/ isSimpleChat (messages (ui Samples.greeted)) = true)
  /\ In "feasibility"%string actionTypes
  /\ (let w' := step Samples.greeted
                    (EAction "feasibility" "Hello!" (Samples.at_ 1007)) in
      isSimpleChat (messages (ui Samples.greeted)) = true
      /\ inflight w' = inflight Samples.greeted
      /\ messages (ui w')
         = messages (ui Samples.greeted)
           ++ [insufficientDataMessage "feasibility" (Samples.at_ 1007)]
      /\ ChatMessage.role (insufficientDataMessage "feasibility" (Samples.at_ 1007))
         = assistant
      /\ Substring (GateSpec.spaced "feasibility")
                   (ChatMessage.content
                      (insufficientDataMessage "feasibility" (Samples.at_ 1007)))).
Proof.
  split; [left; reflexivity|]. split; [left; reflexivity|].
  apply (insufficient_context_is_answered_locally
           Samples.greeted "feasibility" "Hello!" (Samples.at_ 1007));
    left; reflexivity.
Defined.

Lemma no_user_messages_not_simple (history : list ChatMessage.t) :
  List.filter isUser history = [] -> hasSimpleContent history = false.
Proof.
  intros H. unfold hasSimpleContent. rewrite userMessageTexts_recent.
  unfold GateSpec.recentUser. now rewrite H.
Qed.

(** C10.  On a history that is not empty and has no user message the
    simple-content test is false, the gate finds the context sufficient,
    and the quick action starts the remote call with the action type, the
    clicked message and the whole transcript, appending no local message;
    the empty history alone is cut short as insufficient. *)
Theorem no_user_message_history_is_forwarded (w : World)
    (action originalMessage : string) (clk : Clock) :
  messages (ui w) <> [] ->
  List.filter isUser (messages (ui w)) = [] ->
  let w' := step w (EAction action originalMessage clk) in
  hasSimpleContent (messages (ui w)) = false
  /\ isSimpleChat (messages (ui w)) = false
  /\ inflight w'
     = inflight w ++ [ActionCall action originalMessage (transcript (messages (ui w)))]
  /\ messages (ui w') = messages (ui w)
  /\ isLoading (ui w') = true
  /\ isSimpleChat [] = true.
Proof.
  intros Hne Hnone. cbv zeta. cbn [step].
  pose proof (no_user_messages_not_simple _ Hnone) as Hsimple.
  assert (Hs : isSimpleChat (messages (ui w)) = false).
  { destruct (messages (ui w)) as [|m l] eqn:E; [congruence|].
    change (isSimpleChat (m :: l))
      with (hasSimpleContent (m :: l) && negb (hasGovernmentContent (m :: l))
            && negb (isDetailedRequest (m :: l))).
    now rewrite Hsimple. }
  pose proof (after_handleActionResponse (ui w) action originalMessage clk) as Hr.
  rewrite Hs in Hr.
  destruct (dispatch_ui (handleActionResponse action originalMessage) clk w)
    as (Hm & _ & Hl & _ & _ & _ & _ & _ & _ & Hi).
  rewrite Hm, Hl, Hi, Hr. runM. repeat split; try assumption; reflexivity.
Qed.

(** The theorem at a history that holds one assistant message. *)
Lemma welcome_only_history_is_forwarded :
  messages (ui Samples.welcomed) <> []
  /\ List.filter isUser (messages (ui Samples.welcomed)) = []
  /\ (let w' := step Samples.welcomed
                    (EAction "case_study" "Welcome." (Samples.at_ 1007)) in
      hasSimpleContent (messages (ui Samples.welcomed)) = false
      /\ isSimpleChat (messages (ui Samples.welcomed)) = false
      /\ inflight w'
         = inflight Samples.welcomed
           ++ [ActionCall "case_study" "Welcome."
                          (transcript (messages (ui Samples.welcomed)))]
      /\ messages (ui w') = messages (ui Samples.welcomed)
      /\ isLoading (ui w') = true
      /\ isSimpleChat [] = true).
Proof.
  assert (Hne : messages (ui Samples.welcomed) <> []) by discriminate.
  split; [exact Hne|]. split; [reflexivity|].
  exact (no_user_message_history_is_forwarded
           Samples.welcomed "case_study" "Welcome." (Samples.at_ 1007)
           Hne eq_refl).
Defined.

End ActionClaims.

Module SyncFacts.
Import JsString Store StoreFacts.

Lemma saveEffect_inSync (s : State) (ls : gmap string string) (infl : list RemoteCall) :
  chatSessions s <> [] -> Wf.inSync (mkWorld s (saveEffect s ls) infl).
Proof.
  intros Hne. unfold Wf.inSync, saveEffect. cbn [ui localStorage].
  destruct (chatSessions s) as [|x l] eqn:E; [congruence|].
  cbn [length Nat.ltb Nat.leb]. apply lookup_insert_eq.
Qed.

(** Whenever the collection a handler leaves is not empty, the stored
    text mirrors it. *)
Lemma dispatch_inSync (h : State -> M unit) (clk : Clock) (w : World) :
  (dirtyChatSessions (after h clk (ui w)) = false ->
   chatSessions (st (after h clk (ui w))) = chatSessions (ui w)) ->
  (chatSessions (ui w) <> [] -> Wf.inSync w) ->
  chatSessions (ui (dispatch h clk w)) <> [] -> Wf.inSync (dispatch h clk w).
Proof.
  intros Hclean Hinv. unfold dispatch. fold (after h clk (ui w)).
  fold (synced (after h clk (ui w)) clk). cbv zeta.
  set (r := after h clk (ui w)) in *.
  assert (Hr : chatSessions (st r) <> [] ->
               Wf.inSync (mkWorld (st r)
                            (if dirtyChatSessions r
                             then saveEffect (st r) (localStorage w)
                             else localStorage w) (inflight w ++ out r))).
  { intros Hne. destruct (dirtyChatSessions r) eqn:Hd.
    - now apply saveEffect_inSync.
    - specialize (Hclean eq_refl). rewrite Hclean in Hne.
      unfold Wf.inSync in *. cbn [ui localStorage]. rewrite Hclean. now apply Hinv. }
  destruct (dirtyMessages r
            || negb (optEqb (currentSessionId (ui w)) (currentSessionId (st r))));
    [|exact Hr].
  cbn [ui]. intros Hne. destruct (dirtyChatSessions (synced r clk)) eqn:Hd.
  - now apply saveEffect_inSync.
  - rewrite (synced_dirty r clk Hd) in *. now apply Hr.
Qed.

Lemma step_inSync (w : World) (e : Event) :
  (chatSessions (ui w) <> [] -> Wf.inSync w) ->
  chatSessions (ui (step w e)) <> [] -> Wf.inSync (step w e).
Proof.
  intros Hinv.
  destruct e; cbn [step];
    try (destruct (inflight w !! i) as [[]|]);
    try (destruct (chatSessions (ui w) !! i));
    try exact Hinv;
    (apply dispatch_inSync; [|exact Hinv]); cbn [ui];
    runH; first [reflexivity | discriminate].
Qed.

(** From an empty browser store on, every run keeps the invariant. *)
Lemma run_inSync (es : list Event) (w : World) :
  (chatSessions (ui w) <> [] -> Wf.inSync w) ->
  chatSessions (ui (run w es)) <> [] -> Wf.inSync (run w es).
Proof.
  revert w. induction es as [|e es IH]; intros w Hinv; [exact Hinv|].
  cbn [run foldl]. apply IH. now apply step_inSync.
Qed.

End SyncFacts.

Module GateClaims.
Import JsString JsStringFacts Gate GateSpec GateFacts Store StoreFacts ActionClaims.

Lemma IsDetailedRequest_stated_dec (recent : list string) :
  IsDetailedRequest_stated recent
  <-> existsb (includes (String.concat "" (map toLowerCase recent))) detailWords = true.
Proof.
  unfold IsDetailedRequest_stated. rewrite existsb_exists.
  split; intros (x & Hin & H); exists x; (split; [exact Hin|]);
    now apply includes_spec.
Qed.

Lemma userMessages_only (history other : list ChatMessage.t) :
  List.filter isUser other = List.filter isUser history ->
  hasSimpleContent other = hasSimpleContent history
  /\ hasGovernmentContent other = hasGovernmentContent history
  /\ isDetailedRequest other = isDetailedRequest history.
Proof.
  intros H. unfold hasSimpleContent, hasGovernmentContent, isDetailedRequest,
    userMessageTexts. now rewrite H.
Qed.

(** C2, amended.  For every history and every action type the gate finds
    the context insufficient exactly when the history is empty, or, over
    the last three user messages lowercased: some message, trimmed, begins
    with a greeting or acknowledgment word that ends at a word boundary, or
    has 1 to 20 characters none of which is a line terminator; and no
    message contains a domain keyword up to case; and the messages joined
    by single spaces contain none of the six detail words.  The three
    component tests depend on the user messages only. *)
Theorem gate_insufficient_iff (history : list ChatMessage.t) :
  (isSimpleChat history = true <-> Insufficient history)
  /\ (forall action originalMessage snap clk,
        messages snap = history ->
        out (after (handleActionResponse action originalMessage) clk snap) = []
        <-> Insufficient history)
  /\ (forall other,
        List.filter isUser other = List.filter isUser history ->
        hasSimpleContent other = hasSimpleContent history
        /\ hasGovernmentContent other = hasGovernmentContent history
        /\ isDetailedRequest other = isDetailedRequest history).
Proof.
  split; [apply isSimpleChat_iff|]. split; [|apply userMessages_only].
  intros action originalMessage snap clk <-.
  rewrite after_handleActionResponse, <- isSimpleChat_iff.
  destruct (isSimpleChat (messages snap)); cbn [out]; split; congruence.
Qed.

(** C2 as worded fails on a history whose one user message has three
    characters on two lines: its trimmed text has 1 to 20 characters, no
    keyword and no detail word, yet the fourth pattern does not match it
    and the code finds the context sufficient. *)
Lemma gate_as_stated_fails_on_two_lines :
  ~ (isSimpleChat Samples.twoLines = true <-> Insufficient_stated Samples.twoLines).
Proof.
  intros [_ H].
  assert (Hs : isSimpleChat Samples.twoLines = true); [apply H | vm_compute in Hs; discriminate].
  right. exists (recentUser Samples.twoLines). split; [now apply Selected_iff|].
  split; [|split].
  - eexists. split; [now left|]. right. vm_compute. lia.
  - rewrite <- hasGovernmentContent_spec. vm_compute. discriminate.
  - rewrite IsDetailedRequest_stated_dec. vm_compute. discriminate.
Qed.

(** The messages are joined with a space: a word of the list split over
    two messages is not found. *)
Lemma gate_joins_with_spaces :
  isSimpleChat Samples.splitWord = true /\ ~ Insufficient_stated Samples.splitWord.
Proof.
  split; [vm_compute; reflexivity|].
  intros [H | (recent & Hsel & _ & _ & H)]; [discriminate|].
  apply Selected_iff in Hsel. subst recent. apply H.
  apply IsDetailedRequest_stated_dec. vm_compute. reflexivity.
Qed.

End GateClaims.

(** * Part III: the rest of the session store and the helpers around it *)

Module ReachFacts.
Import JsString Store StoreFacts Reach.

Lemma copyMessages_valid cur msgs l :
  Forall Wf.validMessage msgs -> Forall Wf.validSession l ->
  Forall Wf.validSession (copyMessages cur msgs l).
Proof.
  intros Hm Hl. unfold copyMessages. apply Forall_map.
  eapply Forall_impl; [exact Hl|]. intros x [Hc Hx]. simpl.
  destruct (String.eqb (ChatSession.id x) cur); split; assumption.
Qed.

Lemma dispatch_valid (h : State -> M unit) (clk : Clock) (w : World) :
  validState (st (after h clk (ui w))) -> validState (ui (dispatch h clk w)).
Proof.
  intros [Hs Hm]. unfold dispatch. fold (after h clk (ui w)).
  fold (synced (after h clk (ui w)) clk). cbv zeta.
  set (r := after h clk (ui w)) in *.
  destruct (dirtyMessages r
            || negb (optEqb (currentSessionId (ui w)) (currentSessionId (st r))));
    cbn [ui]; [|now split].
  rewrite synced_st. destruct (currentSessionId (st r)) as [cur|];
    [destruct (truthy cur && (0 <? length (messages (st r)))%nat)|];
    try (now split).
  split; cbn [withChatSessions chatSessions messages]; [|exact Hm].
  now apply copyMessages_valid.
Qed.

Lemma retitle_valid sessionId t l :
  Forall Wf.validSession l -> Forall Wf.validSession (retitle sessionId t l).
Proof.
  intros Hl. unfold retitle. apply Forall_map.
  eapply Forall_impl; [exact Hl|]. intros x [Hc Hx]. simpl.
  destruct (String.eqb (ChatSession.id x) sessionId); split; assumption.
Qed.

Lemma withoutSession_valid d l :
  Forall Wf.validSession l -> Forall Wf.validSession (withoutSession d l).
Proof.
  intros Hl. unfold withoutSession. rewrite List.Forall_forall in *.
  intros x Hx. apply List.filter_In in Hx. now apply Hl.
Qed.

Lemma step_valid (w : World) (e : Event) :
  validState (ui w) -> eventOk e -> validState (ui (step w e)).
Proof.
  intros [Hs Hm] He.
  destruct e; cbn [step eventOk] in *;
    try (destruct (inflight w !! i) as [[]|]; [| |]);
    try (destruct (chatSessions (ui w) !! i) eqn:Hi);
    try (now split);
    apply dispatch_valid; cbn [ui]; runH; unfold validState; runM.
  all: try (now split).
  all: try (pose proof (Forall_lookup_1 _ _ _ _ Hs Hi) as [_ Ht]).
  all: split;
    repeat first
      [ assumption
      | apply Forall_app_2 | apply Forall_cons_2 | apply Forall_nil_2
      | apply retitle_valid | apply withoutSession_valid
      | apply He
      | progress (unfold Wf.validSession, Wf.validMessage, Wf.validDate;
                  cbn [ChatSession.createdAt ChatSession.messages
                       ChatMessage.timestamp])
      | split ].
Qed.

Lemma run_valid (es : list Event) (w : World) :
  validState (ui w) -> Forall eventOk es -> validState (ui (run w es)).
Proof.
  revert w. induction es as [|e es IH]; intros w Hw Hes; [exact Hw|].
  cbn [run foldl]. apply Forall_cons_1 in Hes as [He Hes].
  apply IH; [now apply step_valid | exact Hes].
Qed.

End ReachFacts.

Module ReloadFacts.
Import JsString Store StoreFacts Reach ReachFacts Persist PersistFacts SyncFacts.

Lemma stringifySessions_truthy (l : list ChatSession.t) :
  truthy (stringifySessions l) = true.
Proof. unfold stringifySessions, Json.stringify. now destruct l. Qed.

(** The first render on a store that mirrors a valid collection. *)
Lemma mount_inSync (w : World) :
  validState (ui w) -> chatSessions (ui w) <> [] -> Wf.inSync w ->
  mount (localStorage w)
  = Some (mkWorld (withChatSessions (chatSessions (ui w)) initialState)
                  (localStorage w) []).
Proof.
  intros [Hv _] Hne Hsync. unfold mount. rewrite Hsync, stringifySessions_truthy.
  rewrite loadSessions_text, mapM_map.
  2:{ eapply List.Forall_impl; [|exact Hv]. intros session.
      apply loadSession_encode. }
  cbn [mbind option_bind]. f_equal. unfold dispatch. runM.
  unfold saveEffect. cbn [chatSessions].
  destruct (chatSessions (ui w)) as [|x l] eqn:E; [congruence|].
  cbn [length Nat.ltb Nat.leb]. f_equal.
  apply insert_id. unfold Wf.inSync in Hsync. now rewrite E in Hsync.
Qed.

(** The first render leaves the stored text in step with the sessions
    it loaded. *)
Lemma mount_inSync_after (ls : gmap string string) (w0 : World) :
  mount ls = Some w0 -> chatSessions (ui w0) <> [] -> Wf.inSync w0.
Proof.
  unfold mount. intros Hm.
  destruct (ls !! storageKey) as [savedSessions|];
    [destruct (truthy savedSessions);
     [destruct (loadSessions savedSessions) as [sessions|];
      cbn [mbind option_bind] in Hm|]|];
    try discriminate; injection Hm as <-; try (intros H; now destruct H).
  apply dispatch_inSync; [discriminate|]. intros H. now destruct H.
Qed.

(** X2.  From any page load on, whatever the user does, if sessions are left
    the stored text is the serialization of the collection. *)
Theorem stored_text_mirrors_sessions (ls : gmap string string) (w0 : World)
    (es : list Event) :
  mount ls = Some w0 ->
  let w := run w0 es in
  chatSessions (ui w) <> [] ->
  localStorage w !! storageKey = Some (stringifySessions (chatSessions (ui w))).
Proof.
  intros Hm w Hne. apply (run_inSync es w0); [|exact Hne].
  now apply (mount_inSync_after ls).
Qed.

Lemma stored_text_mirrors_sessions_after_quick_action :
  mount ∅ = Some emptyWorld
  /\ chatSessions (ui (run emptyWorld Samples.quickActionRun)) <> []
  /\ localStorage (run emptyWorld Samples.quickActionRun) !! storageKey
     = Some (stringifySessions
               (chatSessions (ui (run emptyWorld Samples.quickActionRun)))).
Proof.
  assert (Hm : mount ∅ = Some emptyWorld) by reflexivity.
  assert (Hne : chatSessions (ui (run emptyWorld Samples.quickActionRun)) <> [])
    by (vm_compute; discriminate).
  split; [exact Hm|]. split; [exact Hne|].
  exact (stored_text_mirrors_sessions ∅ emptyWorld Samples.quickActionRun Hm Hne).
Defined.

(** X1.  Closing the page and opening it again: the sessions come back as
    they were, no session is active and no message is displayed. *)
Theorem reload_restores_sessions (es : list Event) :
  Forall eventOk es ->
  let w := run emptyWorld es in
  chatSessions (ui w) <> [] ->
  mount (localStorage w)
  = Some (mkWorld (withChatSessions (chatSessions (ui w)) initialState)
                  (localStorage w) []).
Proof.
  intros Hes w Hne. apply mount_inSync; [|exact Hne|].
  - apply run_valid; [|exact Hes]. split; constructor.
  - apply (run_inSync es emptyWorld); [|exact Hne]. intros H. now destruct H.
Qed.

Lemma reload_after_quick_action :
  Forall eventOk Samples.quickActionRun
  /\ chatSessions (ui (run emptyWorld Samples.quickActionRun)) <> []
  /\ mount (localStorage (run emptyWorld Samples.quickActionRun))
     = Some (mkWorld (withChatSessions
                        (chatSessions (ui (run emptyWorld Samples.quickActionRun)))
                        initialState)
                     (localStorage (run emptyWorld Samples.quickActionRun)) []).
Proof.
  assert (Hes : Forall eventOk Samples.quickActionRun).
  { unfold Samples.quickActionRun.
    repeat first [apply Forall_cons_2 | apply Forall_nil_2];
      cbn [eventOk]; try exact I; intros n; vm_compute; split; discriminate. }
  assert (Hne : chatSessions (ui (run emptyWorld Samples.quickActionRun)) <> [])
    by (vm_compute; discriminate).
  split; [exact Hes|]. split; [exact Hne|].
  exact (reload_restores_sessions Samples.quickActionRun Hes Hne).
Defined.

End ReloadFacts.

Module MirrorFacts.
Import JsString Store StoreFacts Mirror SendClaims.

Lemma copyMessages_mirrored cur msgs l :
  Forall (fun session => ChatSession.id session = cur ->
                         ChatSession.messages session = msgs)
         (copyMessages cur msgs l).
Proof.
  unfold copyMessages. apply Forall_map, Forall_forall. intros x _. simpl.
  destruct (String.eqb_spec (ChatSession.id x) cur) as [Heq|Hne]; simpl; congruence.
Qed.

Lemma dispatch_mirrored (h : State -> M unit) (clk : Clock) (w : World) :
  linked (st (after h clk (ui w))) ->
  (dirtyMessages (after h clk (ui w)) = false ->
   currentSessionId (st (after h clk (ui w))) = currentSessionId (ui w) ->
   mirrored (st (after h clk (ui w)))) ->
  linked (ui (dispatch h clk w)) /\ mirrored (ui (dispatch h clk w)).
Proof.
  intros Hl Hq. unfold dispatch. fold (after h clk (ui w)).
  fold (synced (after h clk (ui w)) clk). cbv zeta.
  set (r := after h clk (ui w)) in *.
  destruct (dirtyMessages r) eqn:Hd; cbn [orb].
  - cbn [ui]. rewrite synced_st.
    destruct (currentSessionId (st r)) as [cur|] eqn:Hc.
    + destruct Hl as [Hids Hcur]. pose proof (Hcur cur Hc) as Hin.
      assert (Ht : truthy cur = true).
      { rewrite List.Forall_forall in Hids. now apply Hids. }
      rewrite Ht. cbn [andb].
      destruct (messages (st r)) as [|m0 l0] eqn:Hm; cbn [length Nat.ltb Nat.leb].
      * split; [now split|]. intros c _ Hne. now rewrite Hm in Hne.
      * rewrite <- Hm. split.
        -- unfold linked. cbn [withChatSessions chatSessions currentSessionId].
           rewrite copyMessages_ids. now split.
        -- intros c Hc' _. cbn [withChatSessions chatSessions currentSessionId messages] in *.
           assert (c = cur) as -> by congruence. apply copyMessages_mirrored.
    + split; [exact Hl|]. intros c Hc'. congruence.
  - destruct (optEqb (currentSessionId (ui w)) (currentSessionId (st r))) eqn:He;
      cbn [negb ui].
    + apply optEqb_eq in He. split; [exact Hl|]. now apply Hq.
    + rewrite synced_st.
      destruct (currentSessionId (st r)) as [cur|] eqn:Hc.
      * destruct Hl as [Hids Hcur]. pose proof (Hcur cur Hc) as Hin.
        assert (Ht : truthy cur = true).
        { rewrite List.Forall_forall in Hids. now apply Hids. }
        rewrite Ht. cbn [andb].
        destruct (messages (st r)) as [|m0 l0] eqn:Hm; cbn [length Nat.ltb Nat.leb].
        -- split; [now split|]. intros c _ Hne. now rewrite Hm in Hne.
        -- rewrite <- Hm. split.
           ++ unfold linked. cbn [withChatSessions chatSessions currentSessionId].
              rewrite copyMessages_ids. now split.
           ++ intros c Hc' _.
              cbn [withChatSessions chatSessions currentSessionId messages] in *.
              assert (c = cur) as -> by congruence. apply copyMessages_mirrored.
      * split; [exact Hl|]. intros c Hc'. congruence.
Qed.

Lemma withoutSession_Forall {P : ChatSession.t -> Prop} d l :
  Forall P l -> Forall P (withoutSession d l).
Proof.
  intros Hl. unfold withoutSession. rewrite List.Forall_forall in *.
  intros x Hx. apply List.filter_In in Hx. now apply Hl.
Qed.

Lemma withoutSession_ids_Forall {P : string -> Prop} d l :
  Forall P (map ChatSession.id l) -> Forall P (map ChatSession.id (withoutSession d l)).
Proof.
  intros Hl. rewrite List.Forall_forall in *. intros x Hx.
  apply List.in_map_iff in Hx as (y & <- & Hy). apply Hl, List.in_map.
  unfold withoutSession in Hy. now apply List.filter_In in Hy.
Qed.

Lemma withoutSession_other cur d l :
  optEqb (Some cur) d = false ->
  In cur (map ChatSession.id l) -> In cur (map ChatSession.id (withoutSession d l)).
Proof.
  intros Hne Hin. apply List.in_map_iff in Hin as (y & <- & Hy).
  apply List.in_map. unfold withoutSession. apply List.filter_In.
  split; [exact Hy|]. now rewrite Hne.
Qed.

Lemma retitle_Forall_messages sessionId t (P : string -> list ChatMessage.t -> Prop) l :
  Forall (fun session => P (ChatSession.id session) (ChatSession.messages session)) l ->
  Forall (fun session => P (ChatSession.id session) (ChatSession.messages session))
         (retitle sessionId t l).
Proof.
  intros Hl. unfold retitle. apply Forall_map.
  eapply Forall_impl; [exact Hl|]. intros x Hx. simpl.
  now destruct (String.eqb (ChatSession.id x) sessionId).
Qed.

Lemma step_mirrored (w : World) (e : Event) :
  linked (ui w) /\ mirrored (ui w) ->
  linked (ui (step w e)) /\ mirrored (ui (step w e)).
Proof.
  intros [[Hids Hcur] Hmir].
  destruct e; cbn [step] in *;
    try (destruct (inflight w !! i) as [[]|]; [| |]);
    try (destruct (chatSessions (ui w) !! i) as [session|] eqn:Hi);
    try (now split);
    apply dispatch_mirrored; cbn [ui]; runH; unfold linked, mirrored; runM.
  all: try (now split).
  all: try discriminate.
  all: try (intros _ _; exact Hmir).
  all: try (split; [exact Hids|]; intros cur Hcur'; injection Hcur' as <-;
            apply List.in_map; apply list_elem_of_In;
            eapply list_elem_of_lookup_2; exact Hi).
  all: try (split; [apply Forall_cons_2; [apply toString_truthy | exact Hids]|];
            intros cur [= <-]; now left).
  all: rewrite ?retitle_ids; try (now split).
  - split; [now apply withoutSession_ids_Forall|]. discriminate.
  - split; [now apply withoutSession_ids_Forall|]. intros cur Hc.
    apply withoutSession_other; [|now apply Hcur].
    rewrite <- Hc. assumption.
  - intros _ _ cur Hc Hne. apply withoutSession_Forall. now apply Hmir.
  - intros _ _ cur Hc Hne.
    apply (retitle_Forall_messages sessionId _
             (fun i msgs => i = cur -> msgs = messages (ui w))).
    now apply Hmir.
Qed.

Lemma run_mirrored (es : list Event) (w : World) :
  linked (ui w) /\ mirrored (ui w) ->
  linked (ui (run w es)) /\ mirrored (ui (run w es)).
Proof.
  revert w. induction es as [|e es IH]; intros w Hw; [exact Hw|].
  cbn [run foldl]. apply IH. now apply step_mirrored.
Qed.

(** X3.  In every state reached from an empty store the active id is the id
    of a session of the collection, and while messages are displayed every
    session with the active id holds exactly the displayed messages. *)
Theorem active_session_holds_displayed_messages (es : list Event) (cur : string) :
  let w := run emptyWorld es in
  currentSessionId (ui w) = Some cur ->
  In cur (Wf.sessionIds w)
  /\ (messages (ui w) <> [] ->
      forall session, In session (chatSessions (ui w)) ->
                      ChatSession.id session = cur ->
                      ChatSession.messages session = messages (ui w)).
Proof.
  intros w Hc.
  destruct (run_mirrored es emptyWorld) as [[_ Hin] Hmir].
  { split; [split; [constructor | discriminate] | discriminate]. }
  split; [now apply Hin|]. intros Hne session Hs.
  specialize (Hmir cur Hc Hne). rewrite List.Forall_forall in Hmir. now apply Hmir.
Qed.

Lemma active_session_after_quick_action :
  currentSessionId (ui (run emptyWorld Samples.quickActionRun)) = Some "1000"%string
  /\ In "1000"%string (Wf.sessionIds (run emptyWorld Samples.quickActionRun))
  /\ (messages (ui (run emptyWorld Samples.quickActionRun)) <> [] ->
      forall session,
        In session (chatSessions (ui (run emptyWorld Samples.quickActionRun))) ->
        ChatSession.id session = "1000"%string ->
        ChatSession.messages session
        = messages (ui (run emptyWorld Samples.quickActionRun))).
Proof.
  split; [reflexivity|].
  exact (active_session_holds_displayed_messages Samples.quickActionRun "1000" eq_refl).
Defined.

End MirrorFacts.

Module HandlerFacts.
Import JsString Store StoreFacts StoreClaims SendClaims Built Render.

(** After a handler that set [messages], the collection is the one the
    handler left with the copy effect applied. *)
Lemma dispatch_copied (h : State -> M unit) (clk : Clock) (w : World) :
  dirtyMessages (after h clk (ui w)) = true ->
  chatSessions (ui (dispatch h clk w))
  = copied (currentSessionId (st (after h clk (ui w))))
           (messages (st (after h clk (ui w))))
           (chatSessions (st (after h clk (ui w)))).
Proof.
  intros Hd. rewrite dispatch_sync by exact Hd. cbn [ui]. rewrite synced_st.
  unfold copied. destruct (currentSessionId (st (after h clk (ui w)))) as [cur|];
    [|reflexivity].
  now destruct (truthy cur && (0 <? length (messages (st (after h clk (ui w)))))%nat).
Qed.

(** The store is written only if the handler or the copy effect set
    the collection. *)
Lemma dispatch_storage (h : State -> M unit) (clk : Clock) (w : World) :
  dirtyChatSessions (after h clk (ui w)) = false ->
  truthyOpt (currentSessionId (st (after h clk (ui w)))) = false ->
  localStorage (dispatch h clk w) = localStorage w.
Proof.
  intros Hd Hc. unfold dispatch. fold (after h clk (ui w)).
  fold (synced (after h clk (ui w)) clk). cbv zeta.
  set (r := after h clk (ui w)) in *. rewrite Hd.
  destruct (dirtyMessages r
            || negb (optEqb (currentSessionId (ui w)) (currentSessionId (st r))));
    [|reflexivity].
  cbn [localStorage]. unfold synced, syncEffect.
  destruct (currentSessionId (st r)) as [cur|]; [|reflexivity].
  cbn [truthyOpt] in Hc. now rewrite Hc.
Qed.

Lemma after_chat_settled (snap : State) (response : ChatResponse) (clk : Clock) :
  after (handleSendMessage_settled (Fulfilled response)) clk snap
  = mkRun (withIsLoading false
             (withMessages (messages snap ++ [chatReply response clk]) snap))
          true false 2 [].
Proof. reflexivity. Qed.


(** The batch of updates of an accepted send in an active session. *)
Lemma after_next_send (snap : State) (clk : Clock) :
  trim (inputValue snap) <> ""%string -> isLoading snap = false ->
  truthyOpt (currentSessionId snap) = true ->
  after (handleSendMessage None) clk snap
  = mkRun (withIsLoading true (withInputValue ""
             (withMessages (messages snap ++ [userMessage (trim (inputValue snap)) clk])
                           snap)))
          true false 2 [ChatCall (trim (inputValue snap)) (messages snap)].
Proof.
  intros Ht Hl Hc. unfold after, handleSendMessage. cbn [sendText].
  rewrite Hl, Hc. destruct (trim (inputValue snap)); [congruence|]. reflexivity.
Qed.









Lemma session_eta (x : ChatSession.t) :
  ChatSession.mk (ChatSession.id x) (ChatSession.title x) (ChatSession.messages x)
                 (ChatSession.createdAt x) = x.
Proof. now destruct x. Qed.

(** With distinct ids, copying a session's own messages into the
    collection changes nothing. *)
Lemma copyMessages_same (session : ChatSession.t) (l : list ChatSession.t) :
  NoDup (map ChatSession.id l) -> In session l ->
  copyMessages (ChatSession.id session) (ChatSession.messages session) l = l.
Proof.
  induction l as [|x l IH]; intros Hnd Hin; [reflexivity|].
  cbn [map] in Hnd. apply NoDup_cons in Hnd as [Hx Hnd].
  rewrite list_elem_of_In in Hx.
  cbn [copyMessages map]. fold (copyMessages (ChatSession.id session)
                                  (ChatSession.messages session) l).
  destruct Hin as [->|Hin].
  - rewrite String.eqb_refl, session_eta. f_equal. now apply copyMessages_fresh.
  - destruct (String.eqb_spec (ChatSession.id x) (ChatSession.id session)) as [He|_].
    + exfalso. apply Hx. rewrite He. now apply List.in_map.
    + f_equal. now apply IH.
Qed.

(** X8.  A click on a session row shows the messages of that session and
    makes it the active one; the row being renamed ignores the click. *)
Theorem select_shows_session (w : World) (i : nat) (session : ChatSession.t) :
  chatSessions (ui w) !! i = Some session ->
  let w' := step w (ESelect i) in
  if optEqb (editingSessionId (ui w)) (Some (ChatSession.id session))
  then w' = w
  else messages (ui w') = ChatSession.messages session
       /\ currentSessionId (ui w') = Some (ChatSession.id session)
       /\ isLoading (ui w') = isLoading (ui w)
       /\ inputValue (ui w') = inputValue (ui w)
       /\ inflight w' = inflight w
       /\ Wf.sessionIds w' = Wf.sessionIds w
       /\ (NoDup (Wf.sessionIds w) -> chatSessions (ui w') = chatSessions (ui w)).
Proof.
  intros Hi. cbv zeta. cbn [step]. rewrite Hi.
  assert (Hr : after (selectSession session) noClock (ui w)
               = if negb (optEqb (editingSessionId (ui w))
                                 (Some (ChatSession.id session)))
                 then mkRun (withMessages (ChatSession.messages session)
                               (withCurrentSessionId (Some (ChatSession.id session))
                                                     (ui w)))
                            true false 0 []
                 else freshRun (ui w) 0).
  { unfold after, selectSession.
    now destruct (optEqb (editingSessionId (ui w)) (Some (ChatSession.id session))). }
  destruct (optEqb (editingSessionId (ui w)) (Some (ChatSession.id session)));
    cbn [negb] in Hr.
  - rewrite dispatch_quiet by (now rewrite Hr). rewrite Hr. cbn.
    rewrite app_nil_r. apply world_eta.
  - destruct (dispatch_ui (selectSession session) noClock w)
      as (Hm & Hv & Hl & Hc & _ & _ & _ & _ & Hids & Hin).
    unfold Wf.sessionIds. rewrite Hm, Hv, Hl, Hc, Hin, Hids.
    rewrite dispatch_copied by (now rewrite Hr). rewrite Hr. runM.
    rewrite app_nil_r. repeat split.
    intros Hnd. unfold copied.
    destruct (truthy (ChatSession.id session)
              && (0 <? length (ChatSession.messages session))%nat); [|reflexivity].
    apply copyMessages_same; [exact Hnd|].
    apply list_elem_of_In. eapply list_elem_of_lookup_2. exact Hi.
Qed.

Lemma select_from_the_welcome_page :
  chatSessions (ui Scenes.home) !! 0%nat = Some Scenes.firstSession
  /\ messages (ui (step Scenes.home (ESelect 0)))
     = ChatSession.messages Scenes.firstSession
  /\ currentSessionId (ui (step Scenes.home (ESelect 0))) = Some "1000"%string.
Proof.
  assert (Hi : chatSessions (ui Scenes.home) !! 0%nat = Some Scenes.firstSession)
    by (vm_compute; reflexivity).
  split; [exact Hi|].
  pose proof (select_shows_session Scenes.home 0 Scenes.firstSession Hi) as H.
  cbv zeta in H.
  assert (He : optEqb (editingSessionId (ui Scenes.home))
                      (Some (ChatSession.id Scenes.firstSession)) = false)
    by (vm_compute; reflexivity).
  rewrite He in H. destruct H as (Hm & Hc & _). split; [exact Hm | exact Hc].
Defined.

Lemma send_appends (w : World) (clk : Clock) :
  sendDisabled (ui w) = false ->
  length (messages (ui (step w (ESend None clk)))) = S (length (messages (ui w))).
Proof.
  unfold sendDisabled. intros Hd. apply orb_false_iff in Hd as [Ht Hl].
  apply negb_false_iff in Ht. cbn [step].
  destruct (dispatch_ui (handleSendMessage None) clk w) as (Hm & _). rewrite Hm.
  assert (Hne : sendText None (ui w) <> ""%string).
  { cbn [sendText]. now destruct (trim (inputValue (ui w))). }
  destruct (truthyOpt (currentSessionId (ui w))) eqn:Hc.
  - rewrite after_next_send by assumption. runM. rewrite length_app. simpl. lia.
  - pose proof (after_first_send (ui w) None clk Hne Hl Hc) as Hr. cbv zeta in Hr.
    rewrite Hr. runM. rewrite length_app. simpl. lia.
Qed.

(** X9.  The send button is disabled exactly when [handleSendMessage] would
    do nothing. *)
Theorem send_button_disabled_iff_send_ignored (w : World) (clk : Clock) :
  sendDisabled (ui w) = true <-> step w (ESend None clk) = w.
Proof.
  split.
  - unfold sendDisabled. intros Hd. apply send_rejected.
    apply orb_true_iff in Hd as [Ht|Hl]; [right | now left].
    cbn [sendText]. apply negb_true_iff in Ht.
    now destruct (trim (inputValue (ui w))).
  - intros Hw. destruct (sendDisabled (ui w)) eqn:Hd; [reflexivity|].
    pose proof (send_appends w clk Hd) as Hlen. rewrite Hw in Hlen. lia.
Qed.

Lemma dispatch_skip (clk : Clock) (w : World) : dispatch (fun _ => skip) clk w = w.
Proof.
  rewrite dispatch_quiet by reflexivity. cbn. rewrite app_nil_r. apply world_eta.
Qed.

(** X10.  A key press in the input sends exactly when the key is Enter without
    Shift and the send button is enabled; otherwise nothing changes. *)
Theorem key_press_sends_iff (w : World) (e : KeyboardEvent) (clk : Clock) :
  dispatch (handleKeyPress e) clk w
  = (if String.eqb (key e) "Enter" && negb (shiftKey e) && negb (sendDisabled (ui w))
     then step w (ESend None clk) else w)
  /\ (dispatch (handleKeyPress e) clk w <> w
      <-> key e = "Enter"%string /\ shiftKey e = false
          /\ sendDisabled (ui w) = false).
Proof.
  assert (Hk : dispatch (handleKeyPress e) clk w
               = if String.eqb (key e) "Enter" && negb (shiftKey e)
                 then step w (ESend None clk) else w).
  { unfold dispatch, handleKeyPress.
    destruct (String.eqb (key e) "Enter" && negb (shiftKey e)); [reflexivity|].
    apply dispatch_skip. }
  assert (Hoff : sendDisabled (ui w) = true -> step w (ESend None clk) = w).
  { unfold sendDisabled. intros H. apply send_rejected.
    apply orb_true_iff in H as [Ht|Hl]; [right | now left].
    cbn [sendText]. apply negb_true_iff in Ht.
    now destruct (trim (inputValue (ui w))). }
  assert (Hon : sendDisabled (ui w) = false -> step w (ESend None clk) <> w).
  { intros Hd Hw. pose proof (send_appends w clk Hd) as Hlen.
    rewrite Hw in Hlen. lia. }
  rewrite Hk.
  destruct (String.eqb_spec (key e) "Enter") as [Hkey|Hkey];
    destruct (shiftKey e) eqn:Hs; destruct (sendDisabled (ui w)) eqn:Hd;
    cbn [negb andb]; rewrite ?Hoff by reflexivity;
    (split; [reflexivity|]); split; try tauto; try (intros (? & ? & ?); congruence).
Qed.

(** X7.  A reply that arrives after the user went back to the welcome page is
    displayed on its own and stored in no session. *)
Theorem reply_after_new_chat_is_stored_nowhere (w : World) (i : nat)
    (message : string) (context : list ChatMessage.t)
    (net : NetResult ChatResponse) (clk : Clock) :
  inflight w !! i = Some (ChatCall message context) ->
  let w' := run w [ENewChat; EChatSettled i net clk] in
  messages (ui w') = [chatReply (generateResponse net) clk]
  /\ currentSessionId (ui w') = None
  /\ chatSessions (ui w') = chatSessions (ui w)
  /\ localStorage w' = localStorage w
  /\ isLoading (ui w') = false.
Proof.
  intros Hi. cbv zeta. cbn [run foldl].
  assert (Hhome : step w ENewChat
                  = mkWorld (withCurrentSessionId None (withMessages [] (ui w)))
                            (localStorage w) (inflight w)).
  { cbn [step]. rewrite dispatch_sync by reflexivity. unfold handleReturnHome.
    runM. now rewrite app_nil_r. }
  rewrite Hhome. cbn [step inflight ui localStorage]. rewrite Hi.
  set (w0 := mkWorld _ _ _).
  set (h := handleSendMessage_settled (Fulfilled (generateResponse net))).
  pose proof (after_chat_settled (ui w0) (generateResponse net) clk) as Hr. fold h in Hr.
  destruct (dispatch_ui h clk w0) as (Hm & _ & Hl & Hc & _).
  rewrite Hm, Hl, Hc, dispatch_copied by (now rewrite Hr).
  rewrite (dispatch_storage h clk w0) by (now rewrite Hr).
  rewrite Hr. repeat split.
Qed.

Lemma reply_after_leaving_the_first_question :
  inflight Scenes.asked !! 0%nat = Some (ChatCall "flood policy" [])
  /\ (let w' := run Scenes.asked
                    [ENewChat; EChatSettled 0 (NetOk Samples.hello) (Samples.at_ 1005)] in
      messages (ui w') = [chatReply Samples.hello (Samples.at_ 1005)]
      /\ currentSessionId (ui w') = None
      /\ chatSessions (ui w') = chatSessions (ui Scenes.asked)
      /\ localStorage w' = localStorage Scenes.asked
      /\ isLoading (ui w') = false).
Proof.
  assert (Hi : inflight Scenes.asked !! 0%nat = Some (ChatCall "flood policy" []))
    by (vm_compute; reflexivity).
  split; [exact Hi|].
  exact (reply_after_new_chat_is_stored_nowhere Scenes.asked 0 "flood policy" []
           (NetOk Samples.hello) (Samples.at_ 1005) Hi).
Defined.

(** X11.  An edit that is cancelled leaves the titles, the store and the
    calls in flight as they were, whatever was typed. *)
Theorem cancelled_edit_changes_nothing (w : World) (sessionId currentTitle v : string) :
  run w [EStartEdit sessionId currentTitle; EEditTitle v; ECancelEdit]
  = mkWorld (withEditingTitle "" (withEditingSessionId None (ui w)))
            (localStorage w) (inflight w).
Proof.
  cbn [run foldl step]. rewrite !dispatch_quiet by reflexivity.
  unfold handleStartEdit, handleCancelEdit. runM. now rewrite !app_nil_r.
Qed.

(** X12.  After the first send the header shows the title of the new session. *)
Theorem header_shows_title_after_first_send (w : World) (clk : Clock) :
  trim (inputValue (ui w)) <> ""%string -> isLoading (ui w) = false ->
  truthyOpt (currentSessionId (ui w)) = false ->
  headerTitle (ui (step w (ESend None clk)))
  = Some (sessionTitle (trim (inputValue (ui w)))).
Proof.
  intros Ht Hl Hc. cbn [step].
  pose proof (after_first_send (ui w) None clk Ht Hl Hc) as Hr. cbv zeta in Hr.
  cbn [sendText] in Hr.
  destruct (dispatch_ui (handleSendMessage None) clk w) as (_ & _ & _ & Hcur & _).
  unfold headerTitle, titleOf. rewrite Hcur, dispatch_copied by (now rewrite Hr).
  rewrite Hr. runM. cbn [truthyOpt]. rewrite toString_truthy.
  unfold copied. rewrite toString_truthy.
  replace (0 <? length (messages (ui w)
                        ++ [firstMessage (trim (inputValue (ui w))) clk]))%nat
    with true by (symmetry; apply Nat.ltb_lt; rewrite length_app; simpl; lia).
  cbn [andb copyMessages map firstSession ChatSession.id List.find optEqb].
  rewrite !String.eqb_refl. reflexivity.
Qed.

Lemma header_after_a_long_first_question :
  let w := Samples.idleHome " What are the Digital Pakistan initiatives? " [] in
  trim (inputValue (ui w)) <> ""%string
  /\ isLoading (ui w) = false
  /\ truthyOpt (currentSessionId (ui w)) = false
  /\ headerTitle (ui (step w (ESend None (Samples.at_ 1000))))
     = Some "What are the Digital Pakistan ..."%string.
Proof.
  cbv zeta.
  assert (Ht : trim (inputValue
                       (ui (Samples.idleHome
                              " What are the Digital Pakistan initiatives? " [])))
               <> ""%string) by discriminate.
  split; [exact Ht|]. split; [reflexivity|]. split; [reflexivity|].
  exact (header_shows_title_after_first_send
           (Samples.idleHome " What are the Digital Pakistan initiatives? " [])
           (Samples.at_ 1000) Ht eq_refl eq_refl).
Defined.

End HandlerFacts.

Module GeminiFacts.
Import JsString Json Persist PersistFacts IsoFacts Gemini.

Lemma mapM_None {A B} (f : A -> option B) (l : list A) (x : A) :
  In x l -> f x = None -> mapM f l = None.
Proof.
  induction l as [|y l IH]; intros Hin Hx; [destruct Hin|].
  cbn [mapM]. destruct Hin as [->|Hin].
  - now rewrite Hx.
  - destruct (f y); [|reflexivity]. cbn [mbind option_bind].
    now rewrite (IH Hin Hx).
Qed.

(** X13.  A message without a valid date in the history: [toISOString] throws
    inside the [try] block, so the request is never made and the fixed
    apology is the answer, whatever the server would have said. *)
Theorem invalid_timestamp_is_answered_without_request
    (fetch : string -> string -> Store.NetResult Store.ChatResponse)
    (message : string) (context : list ChatMessage.t) (msg : ChatMessage.t) :
  In msg context -> ChatMessage.timestamp msg = InvalidDate ->
  chatBody message (Some context) = None
  /\ Gemini.generateResponse fetch message (Some context)
     = Store.mkChatResponse
         "I apologize, but I'm experiencing technical difficulties. Please try again in a moment or contact the PMRU support team for assistance."
         0 None.
Proof.
  intros Hin Hts.
  assert (Hb : chatBody message (Some context) = None).
  { unfold chatBody, conversationHistory.
    rewrite (mapM_None historyEntry context msg Hin); [reflexivity|].
    unfold historyEntry. now rewrite Hts. }
  split; [exact Hb|]. unfold Gemini.generateResponse. now rewrite Hb.
Qed.

Lemma undated_message_is_answered_without_request :
  let undated := ChatMessage.mk "7" user "hello" InvalidDate None in
  let context := [Samples.userSays "hi"; undated] in
  In undated context
  /\ ChatMessage.timestamp undated = InvalidDate
  /\ Gemini.generateResponse (fun _ _ => Store.NetOk Samples.hello) "again"
                             (Some context)
     = Store.mkChatResponse
         "I apologize, but I'm experiencing technical difficulties. Please try again in a moment or contact the PMRU support team for assistance."
         0 None.
Proof.
  cbv zeta.
  assert (Hin : In (ChatMessage.mk "7" user "hello" InvalidDate None)
                   [Samples.userSays "hi";
                    ChatMessage.mk "7" user "hello" InvalidDate None])
    by (right; left; reflexivity).
  split; [exact Hin|]. split; [reflexivity|].
  exact (proj2 (invalid_timestamp_is_answered_without_request
                  (fun _ _ => Store.NetOk Samples.hello) "again" _ _ Hin eq_refl)).
Defined.

Lemma historyEntry_valid (msg : ChatMessage.t) :
  Wf.validMessage msg ->
  exists entry, historyEntry msg = Some entry /\ carries msg entry
                /\ numFree entry = true.
Proof.
  unfold Wf.validMessage, Wf.validDate, historyEntry.
  destruct (ChatMessage.timestamp msg) as [t|] eqn:Hts; [|tauto]. intros Ht.
  cbn [Gemini.toISOString mbind option_bind]. eexists. split; [reflexivity|].
  split; [|reflexivity]. unfold carries. eexists. split; [reflexivity|].
  rewrite Hts. now apply parseISO_toISOString.
Qed.

Lemma conversationHistory_valid (context : list ChatMessage.t) :
  Forall Wf.validMessage context ->
  exists history, mapM historyEntry context = Some history
                  /\ Forall2 carries context history
                  /\ forallb numFree history = true.
Proof.
  induction 1 as [|msg context Hmsg _ (history & Hh & Hc & Hn)].
  - exists []. repeat split. constructor.
  - destruct (historyEntry_valid msg Hmsg) as (entry & He & Hce & Hne).
    exists (entry :: history). cbn [mapM forallb]. rewrite He, Hh, Hne, Hn.
    repeat split. now constructor.
Qed.

(** X14.  With valid dates in the history the body of the request is JSON
    text that reads back as the query, verbatim, and one entry per message
    of the history, in order, each with the role, the content and the date
    of its message; ids and citations are not sent. *)
Theorem chat_request_carries_query_and_history (message : string)
    (context : list ChatMessage.t) :
  Forall Wf.validMessage context ->
  exists body history,
    chatBody message (Some context) = Some body
    /\ parse body = Some (JObj [ ("query", JStr message);
                                 ("conversation_history", JArr history) ])
    /\ Forall2 carries context history.
Proof.
  intros Hv. destruct (conversationHistory_valid context Hv) as (history & Hh & Hc & Hn).
  eexists _, history. unfold chatBody, conversationHistory. rewrite Hh.
  cbn [mbind option_bind]. split; [reflexivity|]. split; [|exact Hc].
  apply parse_stringify. cbn [numFree forallb snd]. now rewrite Hn.
Qed.

Lemma first_exchange_is_carried :
  Forall Wf.validMessage [Samples.userSays "hi"; Samples.botSays "Hello!"]
  /\ exists body history,
       chatBody "and now?" (Some [Samples.userSays "hi"; Samples.botSays "Hello!"])
       = Some body
       /\ parse body = Some (JObj [ ("query", JStr "and now?");
                                    ("conversation_history", JArr history) ])
       /\ Forall2 carries [Samples.userSays "hi"; Samples.botSays "Hello!"] history.
Proof.
  assert (Hv : Forall Wf.validMessage
                 [Samples.userSays "hi"; Samples.botSays "Hello!"]).
  { repeat constructor; vm_compute; intros H; discriminate H. }
  split; [exact Hv|].
  exact (chat_request_carries_query_and_history "and now?" _ Hv).
Defined.

End GeminiFacts.

Module TypingFacts.
Import JsString TypingEffect SendClaims.

Lemma mount_typing (o : Options) :
  startDelay o <= 0 -> text o <> ""%string ->
  mount o = mkHook (slice0 1 (text o)) true false
                   [(speed o, TypeNextCharacter o 1)] 0.
Proof.
  intros Hd Ht. unfold mount, effect, startTyping, typeNextCharacter, initial.
  destruct (text o) as [|c s] eqn:E; [congruence|]. cbn [truthy negb].
  replace (0 <? startDelay o) with false by (symmetry; apply Z.ltb_ge; lia).
  reflexivity.
Qed.

Lemma ticks_S (n : nat) (h : Hook) : ticks (S n) h = fire 0 (ticks n h).
Proof. reflexivity. Qed.

Lemma ticks_typing (o : Options) (j : nat) :
  startDelay o <= 0 -> (j < String.length (text o))%nat ->
  ticks j (mount o)
  = mkHook (slice0 (j + 1) (text o)) true false
           [(speed o, TypeNextCharacter o (j + 1))] 0.
Proof.
  intros Hd. induction j as [|j IH]; intros Hj.
  - apply mount_typing; [exact Hd|]. intros E. rewrite E in Hj. simpl in Hj. lia.
  - rewrite ticks_S, IH by lia. unfold fire, typeNextCharacter.
    cbn [timers lookup list_lookup take drop app displayedText isTyping isComplete
         completions].
    replace (j + 1 <? String.length (text o))%nat with true
      by (symmetry; apply Nat.ltb_lt; lia).
    replace (S j + 1)%nat with (j + 1 + 1)%nat by lia. reflexivity.
Qed.

(** X15.  Without a start delay the animation shows one more character of the
    text with every timeout, is complete after as many timeouts as the
    text has characters, and calls [onComplete] once then; nothing is left
    pending. *)
Theorem typing_reveals_the_text_then_completes (o : Options) :
  startDelay o <= 0 -> text o <> ""%string ->
  (forall j, (j < String.length (text o))%nat ->
     let h := ticks j (mount o) in
     displayedText h = slice0 (j + 1) (text o)
     /\ isTyping h = true /\ isComplete h = false /\ completions h = 0%nat
     /\ length (timers h) = 1%nat)
  /\ ticks (String.length (text o)) (mount o)
     = mkHook (text o) false true [] (if onComplete o then 1 else 0).
Proof.
  intros Hd Ht. split.
  - intros j Hj. cbv zeta. rewrite (ticks_typing o j Hd Hj). repeat split.
  - destruct (String.length (text o)) as [|n] eqn:Hlen.
    { destruct (text o); [congruence | discriminate]. }
    rewrite ticks_S, (ticks_typing o n Hd) by lia.
    unfold fire, typeNextCharacter.
    cbn [timers lookup list_lookup take drop app displayedText isTyping isComplete
         completions].
    replace (n + 1 <? String.length (text o))%nat with false
      by (symmetry; apply Nat.ltb_ge; lia).
    rewrite slice0_all by lia. reflexivity.
Qed.

Lemma typing_of_a_greeting :
  let o := mkOptions "Hello" 5 0 true in
  startDelay o <= 0 /\ text o <> ""%string
  /\ displayedText (ticks 2 (mount o)) = "Hel"%string
  /\ ticks 5 (mount o) = mkHook "Hello" false true [] 1.
Proof.
  cbv zeta.
  assert (Hd : startDelay (mkOptions "Hello" 5 0 true) <= 0) by (simpl; lia).
  assert (Ht : text (mkOptions "Hello" 5 0 true) <> ""%string) by discriminate.
  split; [exact Hd|]. split; [exact Ht|].
  destruct (typing_reveals_the_text_then_completes
              (mkOptions "Hello" 5 0 true) Hd Ht) as [Hj Hend].
  split; [|exact Hend].
  assert (H2 : (2 < String.length (text (mkOptions "Hello" 5 0 true)))%nat)
    by (simpl; lia).
  exact (proj1 (Hj 2%nat H2)).
Defined.

(** X16.  A change of the text does not stop the animation of the old text:
    its timeout stays pending beside the new one, and when it fires it
    shows characters of the old text. *)
Theorem pending_timeout_survives_text_change (old new : Options) :
  startDelay old <= 0 -> startDelay new <= 0 ->
  (2 <= String.length (text old))%nat -> text new <> ""%string ->
  let h := update old new (mount old) in
  timers h = [ (speed old, TypeNextCharacter old 1);
               (speed new, TypeNextCharacter new 1) ]
  /\ displayedText h = slice0 1 (text new)
  /\ displayedText (fire 0 h) = slice0 2 (text old).
Proof.
  intros Hold Hnew Hlen Ht. cbv zeta.
  assert (Hto : text old <> ""%string).
  { intros E. rewrite E in Hlen. simpl in Hlen. lia. }
  rewrite (mount_typing old Hold Hto).
  unfold update, cleanup, effect, startTyping, typeNextCharacter.
  destruct (text old) as [|c s] eqn:Eo; [congruence|].
  destruct (text new) as [|d t] eqn:En; [congruence|].
  cbn [truthy negb timers displayedText isTyping isComplete completions].
  replace (0 <? startDelay new) with false by (symmetry; apply Z.ltb_ge; lia).
  cbn [String.length Nat.ltb Nat.leb Nat.add app].
  split; [reflexivity|]. split; [reflexivity|].
  unfold fire, typeNextCharacter.
  cbn [timers lookup list_lookup take drop app displayedText].
  rewrite Eo. replace (1 <? String.length (String c s))%nat with true
    by (symmetry; apply Nat.ltb_lt; exact Hlen).
  reflexivity.
Qed.

Lemma old_greeting_shows_after_text_change :
  let old := mkOptions "Hello" 5 0 false in
  let new := mkOptions "Bye" 5 0 false in
  startDelay old <= 0 /\ startDelay new <= 0
  /\ (2 <= String.length (text old))%nat /\ text new <> ""%string
  /\ displayedText (update old new (mount old)) = "B"%string
  /\ displayedText (fire 0 (update old new (mount old))) = "He"%string.
Proof.
  cbv zeta.
  assert (H1 : startDelay (mkOptions "Hello" 5 0 false) <= 0) by (simpl; lia).
  assert (H2 : startDelay (mkOptions "Bye" 5 0 false) <= 0) by (simpl; lia).
  assert (H3 : (2 <= String.length (text (mkOptions "Hello" 5 0 false)))%nat)
    by (simpl; lia).
  assert (H4 : text (mkOptions "Bye" 5 0 false) <> ""%string) by discriminate.
  split; [exact H1|]. split; [exact H2|]. split; [exact H3|]. split; [exact H4|].
  destruct (pending_timeout_survives_text_change _ _ H1 H2 H3 H4) as (_ & Ha & Hb).
  split; [exact Ha | exact Hb].
Defined.

End TypingFacts.

Module MarkdownFacts.
Import JsString JsStringFacts Markdown.

Local Arguments Ascii.eqb : simpl never.

Lemma mt_rep_S {R} r0 lo h prev s caps
    (k : option ascii -> string -> Captures -> option R) :
  mt (Rep r0 lo (Some (S h))) prev s caps k
  = match mt r0 prev s caps
            (fun p' s' c' => mt (Rep r0 (Nat.pred lo) (Some h)) p' s' c' k) with
    | Some x => Some x
    | None => match lo with O => k prev s caps | S _ => None end
    end.
Proof. reflexivity. Qed.

Lemma mt_rep_O {R} r0 lo prev s caps
    (k : option ascii -> string -> Captures -> option R) :
  mt (Rep r0 lo (Some O)) prev s caps k
  = match lo with O => k prev s caps | S _ => None end.
Proof. reflexivity. Qed.

Lemma mt_cat {R} r1 r2 prev s caps
    (k : option ascii -> string -> Captures -> option R) :
  mt (Cat r1 r2) prev s caps k
  = mt r1 prev s caps (fun p' s' c' => mt r2 p' s' c' k).
Proof. reflexivity. Qed.

Lemma mt_grp {R} n r0 prev s caps
    (k : option ascii -> string -> Captures -> option R) :
  mt (Grp n r0) prev s caps k
  = mt r0 prev s caps
       (fun p' s' c' =>
          k p' s' ((n, slice0 (String.length s - String.length s') s) :: c')).
Proof. reflexivity. Qed.

Lemma mt_bol {R} prev s caps
    (k : option ascii -> string -> Captures -> option R) :
  mt Bol prev s caps k
  = match prev with
    | None => k prev s caps
    | Some c => if isLineTerminator c then k prev s caps else None
    end.
Proof. reflexivity. Qed.

Lemma mt_cls {R} p prev s caps
    (k : option ascii -> string -> Captures -> option R) :
  mt (Cls p) prev s caps k
  = match s with
    | String c s' => if p c then k (Some c) s' caps else None
    | EmptyString => None
    end.
Proof. reflexivity. Qed.

Lemma mt_rep_unbounded {R} r0 lo prev s caps
    (k : option ascii -> string -> Captures -> option R) :
  mt (Rep r0 lo None) prev s caps k
  = mt (Rep r0 lo (Some (String.length s))) prev s caps k.
Proof. reflexivity. Qed.

Lemma lead_le_length (s : string) : (lead s <= String.length s)%nat.
Proof.
  induction s as [|c s IH]; simpl; [lia|]. destruct (isNewline c); lia.
Qed.

Lemma dropLead_length (s : string) :
  (String.length (dropLead s) + lead s = String.length s)%nat.
Proof.
  induction s as [|c s IH]; simpl; [reflexivity|].
  destruct (isNewline c); simpl; lia.
Qed.

Lemma lead_dropLead (s : string) : lead (dropLead s) = 0%nat.
Proof.
  induction s as [|c s IH]; simpl; [reflexivity|].
  destruct (isNewline c) eqn:E; [exact IH|]. simpl. now rewrite E.
Qed.

(** A run of line feeds is read to its end, if it is long enough. *)
Lemma mt_newlines (h : nat) :
  forall lo prev s caps, (lead s <= h)%nat ->
    exists p', mt (Rep (Cls isNewline) lo (Some h)) prev s caps
                  (fun p' s' c' => Some (p', s', c'))
               = if (lo <=? lead s)%nat then Some (p', dropLead s, caps) else None.
Proof.
  induction h as [|h IH]; intros lo prev s caps Hlead.
  - rewrite mt_rep_O. assert (lead s = 0%nat) as Hz by lia.
    exists prev. rewrite Hz. destruct lo; simpl; [|reflexivity].
    destruct s as [|c s]; [reflexivity|]. simpl in Hz |- *.
    now destruct (isNewline c).
  - rewrite mt_rep_S. destruct s as [|c s].
    + exists prev. cbn [mt lead dropLead]. now destruct lo.
    + cbn [mt lead dropLead] in *. destruct (isNewline c) eqn:E.
      * destruct (IH (Nat.pred lo) (Some c) s caps) as [p' Hp]; [lia|].
        exists p'. rewrite Hp.
        destruct (Nat.leb_spec (Nat.pred lo) (lead s)) as [Hle|Hgt].
        -- replace (lo <=? S (lead s))%nat with true
             by (symmetry; apply Nat.leb_le; lia). reflexivity.
        -- replace (lo <=? S (lead s))%nat with false
             by (symmetry; apply Nat.leb_gt; lia).
           destruct lo; [simpl in Hgt; lia | reflexivity].
      * exists prev. now destruct lo.
Qed.

Lemma mt_blankLines prev s :
  exists p', mt blankLines prev s [] (fun p' s' c' => Some (p', s', c'))
             = if (3 <=? lead s)%nat then Some (p', dropLead s, []) else None.
Proof.
  unfold blankLines. rewrite mt_rep_unbounded. apply mt_newlines, lead_le_length.
Qed.


Lemma eqb_newline (c : ascii) : Ascii.eqb (ascii_of_nat 10) c = isNewline c.
Proof. destruct c as [[] [] [] [] [] [] [] []]; reflexivity. Qed.

Lemma startsWith_blankRun (s : string) :
  startsWith blankRun s = (3 <=? lead s)%nat.
Proof.
  change blankRun
    with (String (ascii_of_nat 10)
            (String (ascii_of_nat 10) (String (ascii_of_nat 10) EmptyString))).
  destruct s as [|a [|b [|c s]]]; cbn [startsWith lead];
    rewrite ?eqb_newline;
    repeat match goal with |- context [isNewline ?x] => destruct (isNewline x) end;
    reflexivity.
Qed.

(** The last replacement: the text it returns begins with as many line
    feeds as the input, two at most, and has no blank run. *)
Lemma collapse_spec (fuel : nat) :
  forall prev s, (String.length s < fuel)%nat ->
    let out := replaceFrom fuel blankLines [Lit (newline +:+ newline)] prev s in
    lead out = Nat.min 2 (lead s) /\ includes out blankRun = false.
Proof.
  induction fuel as [|fuel IH]; intros prev s Hlen; [lia|].
  cbv zeta. cbn [replaceFrom].
  destruct (mt_blankLines prev s) as [p' Hp]. rewrite Hp.
  destruct (Nat.leb_spec 3 (lead s)) as [Hrun|Hshort].
  - pose proof (dropLead_length s) as Hd.
    replace (String.length (dropLead s) <? String.length s)%nat with true
      by (symmetry; apply Nat.ltb_lt; lia).
    destruct (IH p' (dropLead s)) as [Hl Hi]; [lia|].
    rewrite lead_dropLead in Hl. cbv zeta in Hl, Hi.
    set (X := replaceFrom fuel blankLines [Lit (newline +:+ newline)] p'
                (dropLead s)) in *.
    change (expand [Lit (newline +:+ newline)] [] +:+ X)
      with (String (ascii_of_nat 10) (String (ascii_of_nat 10) X)).
    cbn [lead includes].
    change (isNewline (ascii_of_nat 10)) with true. cbv iota.
    rewrite Hl, Hi, !startsWith_blankRun. cbn [lead].
    change (isNewline (ascii_of_nat 10)) with true. cbv iota. rewrite Hl.
    split; [lia | reflexivity].
  - destruct s as [|c s]; [split; reflexivity|].
    destruct (IH (Some c) s) as [Hl Hi]; [simpl in Hlen; lia|].
    cbn [lead includes] in *. rewrite Hi, startsWith_blankRun. cbn [lead].
    destruct (isNewline c).
    + rewrite Hl. split; [lia|].
      rewrite orb_false_r. apply Nat.leb_gt. lia.
    + split; reflexivity.
Qed.

Lemma trimStart_suffix (s : string) : exists pre, s = pre +:+ trimStart s.
Proof.
  induction s as [|c s [pre IH]]; [now exists ""%string|]. simpl.
  destruct (isWhite c); [|now exists ""%string].
  exists (String c pre). sapp. now rewrite <- IH.
Qed.

Lemma trimEnd_prefix (s : string) : exists post, s = trimEnd s +:+ post.
Proof.
  induction s as [|c s [post IH]]; [now exists ""%string|]. simpl.
  destruct (trimEnd s) as [|d t] eqn:E.
  - destruct (isWhite c).
    + now exists (String c s).
    + exists s. reflexivity.
  - exists post. sapp. now rewrite <- IH.
Qed.

Lemma trim_inside (s : string) : exists pre post, s = pre +:+ trim s +:+ post.
Proof.
  unfold trim. destruct (trimStart_suffix s) as [pre Hpre].
  destruct (trimEnd_prefix (trimStart s)) as [post Hpost].
  exists pre, post. now rewrite <- Hpost.
Qed.

Lemma trimEnd_idem (s : string) : trimEnd (trimEnd s) = trimEnd s.
Proof.
  induction s as [|c s IH]; [reflexivity|]. simpl.
  destruct (trimEnd s) as [|d t] eqn:E.
  - destruct (isWhite c) eqn:W; [reflexivity|]. simpl. now rewrite W.
  - simpl in *. now rewrite IH.
Qed.

Lemma trimEnd_head (c : ascii) (s : string) :
  isWhite c = false -> exists t, trimEnd (String c s) = String c t.
Proof.
  intros W. simpl. destruct (trimEnd s); [rewrite W|]; eauto.
Qed.

Lemma trim_idem (s : string) : trim (trim s) = trim s.
Proof.
  unfold trim.
  assert (H : trimStart (trimEnd (trimStart s)) = trimEnd (trimStart s)).
  { induction s as [|c s IH]; [reflexivity|]. cbn [trimStart].
    destruct (isWhite c) eqn:W; [exact IH|].
    destruct (trimEnd_head c s W) as [t Ht]. rewrite Ht. cbn [trimStart].
    now rewrite W. }
  rewrite H. apply trimEnd_idem.
Qed.

(** X17.  Whatever the content, the cleaned text has no three line feeds in a
    row and no white space at either end. *)
Theorem clean_markdown_leaves_no_blank_run (content : string) :
  ~ Substring blankRun (cleanMarkdownContent content)
  /\ trim (cleanMarkdownContent content) = cleanMarkdownContent content.
Proof.
  split; [|apply trim_idem].
  unfold cleanMarkdownContent.
  set (x := replaceAll headerAfterLine _ _).
  intros (pre & post & H).
  destruct (trim_inside (replaceAll blankLines [Lit (newline +:+ newline)] x))
    as (a & b & Hx).
  destruct (collapse_spec (S (String.length x)) None x) as [_ Hi]; [lia|].
  apply includes_false in Hi. apply Hi. fold (replaceAll blankLines
    [Lit (newline +:+ newline)] x).
  exists (a +:+ pre), (post +:+ b). rewrite Hx at 1. rewrite H.
  now rewrite !sapp_assoc.
Qed.


(** A pattern that matches at no position of the text leaves it as it
    is. *)
Lemma replaceFrom_none (Q : string -> Prop) (r : re) (tmpl : list piece) :
  (forall c s, Q (String c s) -> Q s) ->
  (forall prev s, Q s -> mt r prev s [] (fun p' s' c' => Some (p', s', c')) = None) ->
  forall fuel prev s, Q s -> replaceFrom fuel r tmpl prev s = s.
Proof.
  intros Htail Hnone. induction fuel as [|fuel IH]; intros prev s Hs; [reflexivity|].
  cbn [replaceFrom]. rewrite (Hnone prev s Hs).
  destruct s as [|c s]; [reflexivity|]. f_equal. apply IH. now apply Htail with c.
Qed.

Lemma noHash_tail (c : ascii) (s : string) : noHash (String c s) = true -> noHash s = true.
Proof. simpl. now intros [_ H]%andb_true_iff. Qed.

Lemma hashes_need_a_hash {R} lo prev s caps
    (k : option ascii -> string -> Captures -> option R) :
  noHash s = true ->
  mt (Rep (Cls isHash) (S lo) (Some 6%nat)) prev s caps k = None.
Proof.
  intros Hs. rewrite mt_rep_S, mt_cls. destruct s as [|c s]; [reflexivity|].
  simpl in Hs. apply andb_true_iff in Hs as [Hc _].
  apply negb_true_iff in Hc. now rewrite Hc.
Qed.

Lemma spacedHeader_needs_a_hash prev s :
  noHash s = true ->
  mt spacedHeader prev s [] (fun p' s' c' => Some (p', s', c')) = None.
Proof.
  intros Hs. unfold spacedHeader. rewrite mt_cat, mt_bol.
  destruct prev as [c|]; [destruct (isLineTerminator c); [|reflexivity]|];
    rewrite mt_cat, mt_grp; now apply hashes_need_a_hash.
Qed.

Lemma headerAfterLine_needs_a_hash prev s :
  noHash s = true ->
  mt headerAfterLine prev s [] (fun p' s' c' => Some (p', s', c')) = None.
Proof.
  intros Hs. unfold headerAfterLine. rewrite mt_cat, mt_grp, mt_cls.
  destruct s as [|a s]; [reflexivity|]. destruct (notNewline a); [|reflexivity].
  apply noHash_tail in Hs. rewrite mt_cat, mt_grp, mt_cls.
  destruct s as [|b s]; [reflexivity|]. destruct (isNewline b); [|reflexivity].
  apply noHash_tail in Hs. rewrite mt_grp, mt_cat. now apply hashes_need_a_hash.
Qed.

Lemma blankLines_needs_a_run prev s :
  includes s blankRun = false ->
  mt blankLines prev s [] (fun p' s' c' => Some (p', s', c')) = None.
Proof.
  intros Hs. destruct (mt_blankLines prev s) as [p' Hp]. rewrite Hp.
  destruct s as [|c s]; [reflexivity|].
  cbn [includes] in Hs. apply orb_false_iff in Hs as [Hs _].
  rewrite startsWith_blankRun in Hs. now rewrite Hs.
Qed.

(** X18.  A text without a number sign and without three line feeds in a row
    is only trimmed. *)
Theorem plain_text_is_only_trimmed (content : string) :
  noHash content = true -> ~ Substring blankRun content ->
  cleanMarkdownContent content = trim content.
Proof.
  intros Hh Hb. apply includes_false in Hb. unfold cleanMarkdownContent, replaceAll.
  rewrite (replaceFrom_none (fun s => noHash s = true) spacedHeader)
    by (first [exact noHash_tail | apply spacedHeader_needs_a_hash | exact Hh]).
  rewrite (replaceFrom_none (fun s => noHash s = true) headerAfterLine)
    by (first [exact noHash_tail | apply headerAfterLine_needs_a_hash | exact Hh]).
  rewrite (replaceFrom_none (fun s => includes s blankRun = false) blankLines);
    [reflexivity| |apply blankLines_needs_a_run|exact Hb].
  intros c s H. cbn [includes] in H. now apply orb_false_iff in H as [_ H].
Qed.

Lemma a_plain_answer_is_only_trimmed :
  let content := (" Apply online." +:+ newline +:+ newline +:+ "Bring your CNIC. "
                  +:+ newline)%string in
  noHash content = true
  /\ ~ Substring blankRun content
  /\ cleanMarkdownContent content
     = ("Apply online." +:+ newline +:+ newline +:+ "Bring your CNIC.")%string.
Proof.
  cbv zeta.
  assert (Hh : noHash (" Apply online." +:+ newline +:+ newline
                       +:+ "Bring your CNIC. " +:+ newline) = true)
    by (vm_compute; reflexivity).
  assert (Hb : ~ Substring blankRun
                   (" Apply online." +:+ newline +:+ newline
                    +:+ "Bring your CNIC. " +:+ newline)).
  { apply includes_false. vm_compute. reflexivity. }
  split; [exact Hh|]. split; [exact Hb|].
  rewrite (plain_text_is_only_trimmed _ Hh Hb). vm_compute. reflexivity.
Defined.

End MarkdownFacts.
